(** * Student finance tracker: validators, search engine and statistics

    A shallow embedding of the data-processing core of the tracker
    (validators.js, search.js and the statistics part of state.js, plus the
    budget classification of ui.js) together with the properties its
    specification states about it; then of the rest of the data path:
    storage.js, the changes of the state in state.js, the form and
    category handlers and the figures of the charts in ui.js, and theme.js.

    Modelling conventions.
    - A JavaScript string is the list of its UTF-16 code units ([list N]).
    - A JavaScript number is followed in two ways.  Where the outcome
      turns on how the engine rounds (the total spent against the budget
      cap, the totals per category and the top category) a number is an
      IEEE 754 binary64 value and every operation is rounded to nearest,
      ties to even ([Binary64] and [Doubles], on [SpecFloat] of the
      Standard Library).  Elsewhere a number is the rational it is written
      as ([Q]): the amount of a record is the decimal read from the form
      or from a JSON text, whose nearest binary64 number the engine holds,
      and a sum over [Q] is the sum of those decimals.
    - Regular expressions are abstract syntax trees run by a backtracking
      matcher that follows the ECMAScript pattern semantics (continuation
      passing, priority of alternatives, greedy and lazy repetition with the
      empty-iteration check, capture reset, back-references, anchors and
      word boundaries), in non-unicode mode.
    - Arrays live in a store and are handled through references where
      aliasing matters ([sortTransactions], the categories of the state);
      elsewhere a sequence is a list.
    - [localStorage] is a finite map from keys to texts.  [JSON.parse],
      [JSON.stringify], the quota of the store, the clock, the time zone
      of the host (the offset of local time as a function of the instant)
      and the identifier generator are parameters of the functions that
      use them.
    - A function that can throw returns an option or names the exception
      in its result type. *)

From stdpp Require Import base option list gmap.
From Stdlib Require Import ZArith NArith QArith Lia Lqa String Ascii Sorted.
From Stdlib Require SpecFloat.

Set Default Goal Selector "!".
Close Scope Q_scope.

(* ================================================================== *)
(** ** JavaScript numbers *)
(* ================================================================== *)

Module JsNumber.
(** [x < y] and [x <= y] on numbers, as booleans. *)
Definition ltb (x y : Q) : bool := negb (Qle_bool y x).
Definition leb (x y : Q) : bool := Qle_bool x y.

End JsNumber.

(* ================================================================== *)
(** ** JavaScript numbers as the engine holds them *)
(* ================================================================== *)

Module Binary64.

(** A number of the engine: an IEEE 754 binary64 value, by its sign,
    mantissa and exponent, or a zero, an infinity or NaN. *)
Definition number : Type := SpecFloat.spec_float.

Definition prec : Z := 53.
Definition emax : Z := 1024.

Definition zero : number := SpecFloat.S754_zero false.
Definition NaN : number := SpecFloat.S754_nan.

(** The four operations, each rounded to the nearest number, ties to
    even. *)
Definition add (x y : number) : number := SpecFloat.SFadd prec emax x y.
Definition sub (x y : number) : number := SpecFloat.SFsub prec emax x y.
Definition div (x y : number) : number := SpecFloat.SFdiv prec emax x y.

(** [x < y], [x <= y] and [x === y]: false when either side is NaN. *)
Definition ltb (x y : number) : bool := SpecFloat.SFltb x y.
Definition leb (x y : number) : bool := SpecFloat.SFleb x y.
Definition eqb (x y : number) : bool := SpecFloat.SFeqb x y.

Definition isNaN (x : number) : bool :=
  match x with
  | SpecFloat.S754_nan => true
  | _ => false
  end.

(** Truthiness of a number: 0, -0 and NaN are falsy. *)
Definition truthy (x : number) : bool :=
  match x with
  | SpecFloat.S754_zero _ | SpecFloat.S754_nan => false
  | _ => true
  end.

(** [Math.min(x, y)]. *)
Definition min (x y : number) : number :=
  if isNaN x || isNaN y then NaN
  else if ltb x y then x
  else if ltb y x then y
  else match x with
       | SpecFloat.S754_zero true => x
       | _ => y
       end.

(** The number nearest to a rational, an infinity beyond the range: the
    value the engine gives to a decimal literal, to the text read by
    [parseFloat] and to a number in a JSON text. *)
Definition ofQ (q : Q) : number :=
  match Qnum q with
  | Z0 => zero
  | Zpos n =>
      div (SpecFloat.S754_finite false n 0)
        (SpecFloat.S754_finite false (Qden q) 0)
  | Zneg n =>
      div (SpecFloat.S754_finite true n 0)
        (SpecFloat.S754_finite false (Qden q) 0)
  end.

(** The rational a finite number stands for. *)
Definition toQ (x : number) : option Q :=
  match x with
  | SpecFloat.S754_zero _ => Some 0%Q
  | SpecFloat.S754_finite s m e =>
      Some ((if s then - inject_Z (Zpos m) else inject_Z (Zpos m))
            * Qpower 2 e)%Q
  | _ => None
  end.

(** The place of a number in the order of [<]: the numbers that are not
    NaN are ordered as the triples of their class, exponent and mantissa,
    those of a negative number with the sign changed. *)
Definition rankClass (x : number) : Z :=
  match x with
  | SpecFloat.S754_infinity true => -2
  | SpecFloat.S754_finite true _ _ => -1
  | SpecFloat.S754_finite false _ _ => 1
  | SpecFloat.S754_infinity false => 2
  | _ => 0
  end.

Definition rankExponent (x : number) : Z :=
  match x with
  | SpecFloat.S754_finite true _ e => - e
  | SpecFloat.S754_finite false _ e => e
  | _ => 0
  end.

Definition rankMantissa (x : number) : Z :=
  match x with
  | SpecFloat.S754_finite true m _ => Zneg m
  | SpecFloat.S754_finite false m _ => Zpos m
  | _ => 0
  end.

Definition below (x y : number) : Prop :=
  (rankClass x < rankClass y
   \/ (rankClass x = rankClass y
       /\ (rankExponent x < rankExponent y
           \/ (rankExponent x = rankExponent y
               /\ rankMantissa x < rankMantissa y))))%Z.

End Binary64.

(* ================================================================== *)
(** ** JavaScript strings *)
(* ================================================================== *)

Module JsString.

(** A string is a sequence of UTF-16 code units. *)
Definition jsstring : Type := list N.

(** [js "abc"]: the code units of an ASCII literal. *)
Definition js (s : string) : jsstring :=
  List.map N_of_ascii (list_ascii_of_string s).

Fixpoint eqb (a b : jsstring) : bool :=
  match a, b with
  | [], [] => true
  | x :: a', y :: b' => N.eqb x y && eqb a' b'
  | _, _ => false
  end.

(** Membership of a code unit in an inclusive range. *)
Definition inRange (lo hi c : N) : bool := N.leb lo c && N.leb c hi.

(** LineTerminator: LF, CR, LS, PS. *)
Definition isLineTerminator (c : N) : bool :=
  N.eqb c 10 || N.eqb c 13 || N.eqb c 8232 || N.eqb c 8233.

(** WhiteSpace and LineTerminator code units: what [\s] matches and what
    [String.prototype.trim] strips. *)
Definition isWhiteSpace (c : N) : bool :=
  inRange 9 13 c || N.eqb c 32 || N.eqb c 160 || N.eqb c 5760
  || inRange 8192 8202 c || N.eqb c 8232 || N.eqb c 8233
  || N.eqb c 8239 || N.eqb c 8287 || N.eqb c 12288 || N.eqb c 65279.

Definition isDigit (c : N) : bool := inRange 48 57 c.
Definition isUpper (c : N) : bool := inRange 65 90 c.
Definition isLower (c : N) : bool := inRange 97 122 c.

(** The characters of [\w]: ASCII letters, digits and underscore. *)
Definition isWordChar (c : N) : bool :=
  isLower c || isUpper c || isDigit c || N.eqb c 95.

Fixpoint trimStart (s : jsstring) : jsstring :=
  match s with
  | c :: s' => if isWhiteSpace c then trimStart s' else s
  | [] => []
  end.

Definition trimEnd (s : jsstring) : jsstring :=
  List.rev (trimStart (List.rev s)).

(** [String.prototype.trim]. *)
Definition trim (s : jsstring) : jsstring := trimEnd (trimStart s).

(** Truthiness of a string value: only the empty string is falsy. *)
Definition truthy (s : jsstring) : bool :=
  match s with [] => false | _ => true end.

(** The guard [!value || value.trim() === ''] shared by the validators
    and by [compileRegex]. *)
Definition blank (s : jsstring) : bool :=
  negb (truthy s) || eqb (trim s) [].

(** Slice [s.substring(i, j)] for [i <= j]. *)
Definition substring (s : jsstring) (i j : nat) : jsstring :=
  List.firstn (j - i) (List.skipn i s).

End JsString.
Export JsString.

(* ================================================================== *)
(** ** Regular expressions *)
(* ================================================================== *)

Module RegExp.

(** Members of a bracketed class, and the class escapes. *)
Inductive class_item : Type :=
| CChar (c : N)
| CRange (lo hi : N)
| CDigit | CNotDigit
| CWord | CNotWord
| CSpace | CNotSpace.

(** Pattern syntax (the fragment of the ECMAScript grammar the tracker's
    literals and the usual search expressions are written in). *)
Inductive regex : Type :=
| Empty
| Char (c : N)                             (* a pattern character *)
| Dot                                      (* [.] *)
| Class (invert : bool) (items : list class_item)  (* [[...]], [\d], ... *)
| Seq (r1 r2 : regex)                      (* concatenation *)
| Alt (r1 r2 : regex)                      (* [r1|r2] *)
| Quant (r : regex) (min : nat) (max : option nat) (greedy : bool)
| Group (n : nat) (r : regex)              (* n-th capturing group *)
| Backref (n : nat)                        (* [\n] *)
| AssertStart                              (* [^] *)
| AssertEnd                                (* [$] *)
| WordBoundary                             (* [\b] *)
| NotWordBoundary.                         (* [\B] *)

(** Concatenation of a list of terms, nested to the right. *)
Fixpoint seqs (rs : list regex) : regex :=
  match rs with
  | [] => Empty
  | [r] => r
  | r :: rs' => Seq r (seqs rs')
  end.
Definition lit (s : string) : regex := seqs (List.map Char (js s)).
Definition star (r : regex) : regex := Quant r 0 None true.
Definition plus (r : regex) : regex := Quant r 1 None true.
Definition opt (r : regex) : regex := Quant r 0 (Some 1) true.
Definition rep (lo hi : nat) (r : regex) : regex := Quant r lo (Some hi) true.
Definition esc_d : regex := Class false [CDigit].
Definition esc_w : regex := Class false [CWord].
Definition esc_s : regex := Class false [CSpace].
Definition esc_S : regex := Class false [CNotSpace].
Definition range (a b : string) : class_item :=
  match js a, js b with
  | [x], [y] => CRange x y
  | _, _ => CRange 1 0
  end.

(** Indices of the capturing groups inside a pattern. *)
Fixpoint groups (r : regex) : list nat :=
  match r with
  | Seq a b | Alt a b => groups a ++ groups b
  | Quant a _ _ _ => groups a
  | Group n a => n :: groups a
  | _ => []
  end.

Definition item_has (it : class_item) (c : N) : bool :=
  match it with
  | CChar x => N.eqb x c
  | CRange lo hi => inRange lo hi c
  | CDigit => isDigit c
  | CNotDigit => negb (isDigit c)
  | CWord => isWordChar c
  | CNotWord => negb (isWordChar c)
  | CSpace => isWhiteSpace c
  | CNotSpace => negb (isWhiteSpace c)
  end.

Definition set_has (items : list class_item) (c : N) : bool :=
  List.existsb (fun it => item_has it c) items.

(** A compiled regular expression object: pattern and flags. *)
Record RegExp : Type := mkRegExp {
  source : regex;
  ignoreCase : bool;
  global : bool
}.

(** *** The matcher *)

Record MatchState : Type := mkState {
  endIndex : nat;
  captures : nat -> option (nat * nat)
}.

Definition MatchResult : Type := option MatchState.
Definition Continuation : Type := MatchState -> MatchResult.
Definition Matcher : Type := MatchState -> Continuation -> MatchResult.

Definition no_captures : nat -> option (nat * nat) := fun _ => None.

Definition set_capture (caps : nat -> option (nat * nat)) (n : nat)
    (v : option (nat * nat)) : nat -> option (nat * nat) :=
  fun k => if Nat.eqb k n then v else caps k.

Definition clear_captures (caps : nat -> option (nat * nat))
    (ns : list nat) : nat -> option (nat * nat) :=
  fun k => if List.existsb (Nat.eqb k) ns then None else caps k.

Section Matching.
Variable Input : jsstring.
Variable icase : bool.

(** Canonicalize (non-unicode mode): under the [i] flag a character is
    compared through its upper-case form.  The map is written out for
    the ASCII letters; a code unit from 128 up is never identified with
    an ASCII one by the standard, and here it stands for itself. *)
Definition canonicalize (c : N) : N :=
  if icase && isLower c then (c - 32)%N else c.

(** Is some member of the set canonically equal to [c]? *)
Definition set_matches (items : list class_item) (c : N) : bool :=
  set_has items c
  || (icase && ((isLower c && set_has items (c - 32)%N)
                || (isUpper c && set_has items (c + 32)%N))).

Definition charAt (i : nat) : option N := List.nth_error Input i.

(** CharacterSetMatcher. *)
Definition charSetMatcher (p : N -> bool) (invert : bool) : Matcher :=
  fun x c =>
    match charAt (endIndex x) with
    | None => None
    | Some ch =>
        if Bool.eqb invert (p ch) then None
        else c (mkState (S (endIndex x)) (captures x))
    end.

(** IsWordChar(e): false at both ends of the input. *)
Definition wordCharAt (before : bool) (e : nat) : bool :=
  match (if before then match e with O => None | S e' => charAt e' end
         else charAt e) with
  | Some ch => isWordChar ch
  | None => false
  end.

Definition atBoundary (e : nat) : bool :=
  negb (Bool.eqb (wordCharAt true e) (wordCharAt false e)).

(** Do [len] characters from [i] and from [j] agree canonically? *)
Fixpoint sameText (len i j : nat) : bool :=
  match len with
  | O => true
  | S len' =>
      match charAt i, charAt j with
      | Some a, Some b =>
          N.eqb (canonicalize a) (canonicalize b)
          && sameText len' (S i) (S j)
      | _, _ => false
      end
  end.

(** BackreferenceMatcher. *)
Definition backrefMatcher (n : nat) : Matcher :=
  fun x c =>
    match captures x n with
    | None => c x
    | Some (s, e) =>
        let len := e - s in
        let f := endIndex x + len in
        if Nat.ltb (List.length Input) f then None
        else if sameText len s (endIndex x)
             then c (mkState f (captures x))
             else None
    end.

(** RepeatMatcher.  [fuel] bounds the nesting of iterations: every
    iteration either uses up one of the [min] required ones or moves
    [endIndex] forward. *)
Fixpoint repeatMatcher (fuel : nat) (m : Matcher) (min : nat)
    (max : option nat) (greedy : bool) (parens : list nat)
    (x : MatchState) (c : Continuation) : MatchResult :=
  match fuel with
  | O => None
  | S fuel' =>
      match max with
      | Some O => c x
      | _ =>
          let d : Continuation := fun y =>
            if Nat.eqb min 0 && Nat.eqb (endIndex y) (endIndex x)
            then None
            else repeatMatcher fuel' m (Nat.pred min)
                   (option_map Nat.pred max) greedy parens y c in
          let xr := mkState (endIndex x)
                      (clear_captures (captures x) parens) in
          if negb (Nat.eqb min 0) then m xr d
          else if negb greedy then
            match c x with
            | Some z => Some z
            | None => m xr d
            end
          else
            match m xr d with
            | Some z => Some z
            | None => c x
            end
      end
  end.

(** Compilation of a pattern into its matcher. *)
Fixpoint compile (r : regex) : Matcher :=
  match r with
  | Empty => fun x c => c x
  | Char ch =>
      charSetMatcher (fun a => N.eqb (canonicalize a) (canonicalize ch))
        false
  | Dot => charSetMatcher (fun a => negb (isLineTerminator a)) false
  | Class invert items => charSetMatcher (set_matches items) invert
  | Seq r1 r2 => fun x c => compile r1 x (fun y => compile r2 y c)
  | Alt r1 r2 =>
      fun x c =>
        match compile r1 x c with
        | Some z => Some z
        | None => compile r2 x c
        end
  | Quant r' min max greedy =>
      repeatMatcher (min + List.length Input + 1) (compile r') min max
        greedy (groups r')
  | Group n r' =>
      fun x c =>
        compile r' x (fun y =>
          c (mkState (endIndex y)
               (set_capture (captures y) n
                  (Some (endIndex x, endIndex y)))))
  | Backref n => backrefMatcher n
  | AssertStart =>
      fun x c => if Nat.eqb (endIndex x) 0 then c x else None
  | AssertEnd =>
      fun x c =>
        if Nat.eqb (endIndex x) (List.length Input) then c x else None
  | WordBoundary =>
      fun x c => if atBoundary (endIndex x) then c x else None
  | NotWordBoundary =>
      fun x c => if atBoundary (endIndex x) then None else c x
  end.

(** One attempt at position [i]. *)
Definition matchAt (r : regex) (i : nat) : MatchResult :=
  compile r (mkState i no_captures) Some.

(** The scan of RegExpBuiltinExec: try [lastIndex], then the next
    position, up to and including the end of the input.  The result is
    the start of the match and the final state. *)
Fixpoint scan (r : regex) (n : nat) (lastIndex : nat)
    : option (nat * MatchState) :=
  match matchAt r lastIndex with
  | Some y => Some (lastIndex, y)
  | None =>
      match n with
      | O => None
      | S n' => scan r n' (S lastIndex)
      end
  end.

Definition execFrom (r : regex) (lastIndex : nat)
    : option (nat * MatchState) :=
  if Nat.ltb (List.length Input) lastIndex then None
  else scan r (List.length Input - lastIndex) lastIndex.

End Matching.

(** [RegExp.prototype.test] for a regular expression without the [g]
    flag: every call starts at index 0. *)
Definition test (re : RegExp) (s : jsstring) : bool :=
  match execFrom s (ignoreCase re) (source re) 0 with
  | Some _ => true
  | None => false
  end.

(** [String.prototype.replace] with a global regular expression and a
    replacement function of the matched text.  After an empty match the
    scan resumes one code unit further. *)
Fixpoint replaceLoop (fuel : nat) (re : RegExp) (s : jsstring)
    (f : jsstring -> jsstring) (lastIndex nextSource : nat)
    (acc : jsstring) : jsstring :=
  match fuel with
  | O => acc ++ List.skipn nextSource s
  | S fuel' =>
      match execFrom s (ignoreCase re) (source re) lastIndex with
      | None => acc ++ List.skipn nextSource s
      | Some (position, y) =>
          let e := endIndex y in
          let matched := substring s position e in
          let lastIndex' := if Nat.eqb e position then S e else e in
          if Nat.leb nextSource position then
            replaceLoop fuel' re s f lastIndex' e
              (acc ++ substring s nextSource position ++ f matched)
          else replaceLoop fuel' re s f lastIndex' nextSource acc
      end
  end.

Definition replaceAll (re : RegExp) (s : jsstring)
    (f : jsstring -> jsstring) : jsstring :=
  replaceLoop (List.length s + 1) re s f 0 0 [].

End RegExp.
Export RegExp.

(* ================================================================== *)
(** ** Dates: the time-value arithmetic of the [Date] object *)
(* ================================================================== *)

Module JsDate.
Local Open Scope Z_scope.

Definition msPerDay : Z := 86400000.

Definition Day (t : Z) : Z := t / msPerDay.
Definition TimeWithinDay (t : Z) : Z := t mod msPerDay.

Definition DaysInYear (y : Z) : Z :=
  if negb (y mod 4 =? 0) then 365
  else if negb (y mod 100 =? 0) then 366
  else if negb (y mod 400 =? 0) then 365
  else 366.

Definition DayFromYear (y : Z) : Z :=
  365 * (y - 1970) + (y - 1969) / 4 - (y - 1901) / 100 + (y - 1601) / 400.

Definition TimeFromYear (y : Z) : Z := msPerDay * DayFromYear y.

(** The year of day number [d]: the largest [y] with
    [DayFromYear y <= d], found from the mean year length and one step of
    adjustment (see [YearFromDay_spec]). *)
Definition YearFromDay (d : Z) : Z :=
  let y := 1970 + (400 * d) / 146097 in
  if d <? DayFromYear y then y - 1
  else if DayFromYear (y + 1) <=? d then y + 1
  else y.

Definition YearFromTime (t : Z) : Z := YearFromDay (Day t).

Definition InLeapYear (t : Z) : Z :=
  if DaysInYear (YearFromTime t) =? 366 then 1 else 0.

Definition DayWithinYear (t : Z) : Z :=
  Day t - DayFromYear (YearFromTime t).

(** First day-within-year of month [m] (0 = January, 12 = end of year). *)
Definition monthStart (leap m : Z) : Z :=
  match m with
  | 0 => 0
  | 1 => 31
  | 2 => 59 + leap
  | 3 => 90 + leap
  | 4 => 120 + leap
  | 5 => 151 + leap
  | 6 => 181 + leap
  | 7 => 212 + leap
  | 8 => 243 + leap
  | 9 => 273 + leap
  | 10 => 304 + leap
  | 11 => 334 + leap
  | _ => 365 + leap
  end.

Definition MonthFromTime (t : Z) : Z :=
  let d := DayWithinYear t in
  let leap := InLeapYear t in
  if d <? 31 then 0
  else if d <? 59 + leap then 1
  else if d <? 90 + leap then 2
  else if d <? 120 + leap then 3
  else if d <? 151 + leap then 4
  else if d <? 181 + leap then 5
  else if d <? 212 + leap then 6
  else if d <? 243 + leap then 7
  else if d <? 273 + leap then 8
  else if d <? 304 + leap then 9
  else if d <? 334 + leap then 10
  else 11.

Definition DateFromTime (t : Z) : Z :=
  DayWithinYear t - monthStart (InLeapYear t) (MonthFromTime t) + 1.

(** MakeDay(year, month, date): the day number of the first of the month,
    moved by [date - 1]; months outside 0..11 carry into the year. *)
Definition MakeDay (year month date : Z) : Z :=
  let ym := year + month / 12 in
  let mn := month mod 12 in
  let leap := if DaysInYear ym =? 366 then 1 else 0 in
  DayFromYear ym + monthStart leap mn + date - 1.

Definition MakeDate (day time : Z) : Z := day * msPerDay + time.

(** [new Date(year, month, day)]: a two-digit year means 19xx; the time of
    day is midnight.  The value built here is the local time value, the
    one the getters below read back: with a fixed offset between local
    time and UTC the offset cancels.  Four-digit years stay far inside the
    range of representable time values. *)
Definition Date_ymd (year month day : Z) : Z :=
  let yr := if (0 <=? year) && (year <=? 99) then 1900 + year else year in
  MakeDate (MakeDay yr month day) 0.

Definition getFullYear (t : Z) : Z := YearFromTime t.
Definition getMonth (t : Z) : Z := MonthFromTime t.
Definition getDate (t : Z) : Z := DateFromTime t.

(** [Date.UTC]-style time value of a calendar date at midnight UTC: what
    [new Date("YYYY-MM-DD")] denotes. *)
Definition utcMidnight (year month day : Z) : Z :=
  MakeDate (MakeDay year (month - 1) day) 0.

End JsDate.
Export JsDate.

(* ================================================================== *)
(** ** validators.js *)
(* ================================================================== *)

Module Validators.
Local Open Scope string_scope.
Local Open Scope char_scope.

Definition code (a : ascii) : N := N_of_ascii a.
Definition ch (a : ascii) : regex := Char (code a).
Definition cls (items : list class_item) : regex := Class false items.
Definition cr (a b : ascii) : class_item := CRange (code a) (code b).

(** REGEX_PATTERNS.description: [/^\S(?:.*\S)?$/]. *)
Definition REGEX_description : RegExp :=
  mkRegExp
    (seqs [AssertStart; esc_S; opt (Seq (star Dot) esc_S); AssertEnd])
    false false.

(** REGEX_PATTERNS.amount: [/^(A)(B)?$/] where A is [0|[1-9]\d*] and B is
    [\.\d{1,2}]. *)
Definition REGEX_amount : RegExp :=
  mkRegExp
    (seqs [AssertStart;
           Group 1 (Alt (ch "0") (Seq (cls [cr "1" "9"]) (star esc_d)));
           opt (Group 2 (Seq (ch ".") (rep 1 2 esc_d)));
           AssertEnd])
    false false.

(** REGEX_PATTERNS.date:
    [/^\d{4}-(0[1-9]|1[0-2])-(0[1-9]|[12]\d|3[01])$/]. *)
Definition REGEX_date : RegExp :=
  mkRegExp
    (seqs [AssertStart; rep 4 4 esc_d; ch "-";
           Group 1 (Alt (Seq (ch "0") (cls [cr "1" "9"]))
                        (Seq (ch "1") (cls [cr "0" "2"])));
           ch "-";
           Group 2 (Alt (Seq (ch "0") (cls [cr "1" "9"]))
                   (Alt (Seq (cls [CChar (code "1"); CChar (code "2")]) esc_d)
                        (Seq (ch "3")
                             (cls [CChar (code "0"); CChar (code "1")]))));
           AssertEnd])
    false false.

(** REGEX_PATTERNS.category: [/^[A-Za-z]+(?:[ -][A-Za-z]+)*$/]. *)
Definition REGEX_category : RegExp :=
  mkRegExp
    (seqs [AssertStart;
           plus (cls [cr "A" "Z"; cr "a" "z"]);
           star (Seq (cls [CChar (code " "); CChar (code "-")])
                     (plus (cls [cr "A" "Z"; cr "a" "z"])));
           AssertEnd])
    false false.

(** REGEX_PATTERNS.duplicateWord: [/\b(\w+)\s+\1\b/i]. *)
Definition REGEX_duplicateWord : RegExp :=
  mkRegExp
    (seqs [WordBoundary; Group 1 (plus esc_w); plus esc_s; Backref 1;
           WordBoundary])
    true false.

(** MESSAGES. *)
Definition MSG_description_required : jsstring :=
  js "Description is required".
Definition MSG_description_invalid : jsstring :=
  js "Description cannot start or end with a space".
Definition MSG_description_duplicate : jsstring :=
  (js "Description has a repeated word (e.g. " ++ [34%N] ++ js "the the"
     ++ [34%N] ++ js ")")%list.
Definition MSG_amount_required : jsstring := js "Amount is required".
Definition MSG_amount_invalid : jsstring :=
  js "Enter a valid amount like 10 or 10.50".
Definition MSG_amount_negative : jsstring := js "Amount cannot be negative".
Definition MSG_date_required : jsstring := js "Date is required".
Definition MSG_date_invalid : jsstring :=
  js "Date must be in YYYY-MM-DD format (e.g. 2025-09-29)".
Definition MSG_date_unreal : jsstring :=
  js "That date does not exist (e.g. Feb 30 is invalid)".
Definition MSG_category_required : jsstring := js "Please select a category".
Definition MSG_category_invalid : jsstring :=
  js "Category can only contain letters, spaces, and hyphens".

(** The result object [{ valid, message }]. *)
Record Validation : Type := mkValidation {
  valid : bool;
  message : jsstring
}.

Definition accept : Validation := mkValidation true [].
Definition reject (msg : jsstring) : Validation := mkValidation false msg.

(** *** String helpers used by the validators *)

(** [value.split('-')]. *)
Fixpoint split (sep : N) (s : jsstring) : list jsstring :=
  match s with
  | [] => [[]]
  | c :: s' =>
      if N.eqb c sep then [] :: split sep s'
      else match split sep s' with
           | p :: ps => (c :: p) :: ps
           | [] => [[c]]
           end
  end.

(** Value of a run of decimal digits, most significant first. *)
Fixpoint digitsValue (acc : Z) (s : jsstring) : option Z :=
  match s with
  | [] => Some acc
  | c :: s' =>
      if isDigit c then digitsValue (10 * acc + (Z.of_N c - 48))%Z s'
      else None
  end.

(** [Number(part)] for a part of the split date: the parts that reach it
    have passed the date pattern and are runs of digits; an absent part or
    any other text stands for NaN ([None]). *)
Definition Number (part : option jsstring) : option Z :=
  match part with
  | Some (c :: s) => digitsValue 0 (c :: s)
  | _ => None
  end.

(** [parseFloat] on an unsigned decimal literal [digits] or
    [digits.digits], the shape the amount pattern lets through: the
    decimal the text denotes.  The number the engine returns is the
    binary64 number nearest to that decimal, [Binary64.ofQ] of it.  [None]
    stands for NaN, which is what a text of another shape is given as. *)
Definition parseFloat (s : jsstring) : option Q :=
  match split (code ".") s with
  | [ip] =>
      match Number (Some ip) with
      | Some i => Some (inject_Z i)
      | None => None
      end
  | [ip; fp] =>
      match Number (Some ip), digitsValue 0 fp with
      | Some i, Some f =>
          Some (inject_Z i + inject_Z f / inject_Z (10 ^ Z.of_nat (List.length fp)))%Q
      | _, _ => None
      end
  | _ => None
  end.

(** *** Individual field validators *)

Definition validateDescription (value : jsstring) : Validation :=
  if blank value then reject MSG_description_required
  else if negb (test REGEX_description value)
       then reject MSG_description_invalid
  else if test REGEX_duplicateWord value
       then reject MSG_description_duplicate
  else accept.

Definition validateAmount (value : jsstring) : Validation :=
  if blank value then reject MSG_amount_required
  else if negb (test REGEX_amount value) then reject MSG_amount_invalid
  else
    match parseFloat value with
    | Some number =>
        if JsNumber.ltb number 0 then reject MSG_amount_negative else accept
    | None => accept   (* NaN < 0 is false *)
    end.

(** The second step of [validateDate]: build the date and read it back. *)
Definition isRealDate (year month day : option Z) : bool :=
  match year, month, day with
  | Some y, Some m, Some d =>
      let dateObject := Date_ymd y (m - 1) d in
      (getFullYear dateObject =? y)%Z
      && (getMonth dateObject =? m - 1)%Z
      && (getDate dateObject =? d)%Z
  | _, _, _ => false   (* an invalid Date reads back NaN *)
  end.

Definition validateDate (value : jsstring) : Validation :=
  if blank value then reject MSG_date_required
  else if negb (test REGEX_date value) then reject MSG_date_invalid
  else
    let parts := split (code "-") value in
    let year := Number (List.nth_error parts 0) in
    let month := Number (List.nth_error parts 1) in
    let day := Number (List.nth_error parts 2) in
    if negb (isRealDate year month day) then reject MSG_date_unreal
    else accept.

Definition validateCategory (value : jsstring) : Validation :=
  if blank value then reject MSG_category_required
  else if negb (test REGEX_category value) then reject MSG_category_invalid
  else accept.

End Validators.
Export Validators.

(* ================================================================== *)
(** ** The [RegExp] constructor on pattern text *)
(* ================================================================== *)

(** How a call completes: with a value, or by throwing. *)
Inductive jserror : Type :=
| SyntaxError     (* the pattern or the flags are not well formed *)
| NotModelled.    (* syntax outside the fragment read by [parsePattern] *)

Inductive completion (A : Type) : Type :=
| Normal (a : A)
| Throw (e : jserror).
Arguments Normal {A} a.
Arguments Throw {A} e.

Module PatternParser.
Local Open Scope char_scope.

(** Outcome of reading pattern text.  [PSyntaxError] is reported only
    where the ECMAScript grammar (with its web-compatibility annex) has no
    reading of the text; text the grammar accepts or rejects by rules
    that are not written out here is [PUnsupported]. *)
Inductive parsed (A : Type) : Type :=
| POk (a : A)
| PSyntaxError
| PUnsupported.
Arguments POk {A} a.
Arguments PSyntaxError {A}.
Arguments PUnsupported {A}.

Definition isCh (a : ascii) (c : N) : bool := N.eqb c (code a).

Definition isSyntaxCharacter (c : N) : bool :=
  isCh "^" c || isCh "$" c || isCh "\" c || isCh "." c || isCh "*" c || isCh "+" c
  || isCh "?" c || isCh "(" c || isCh ")" c || isCh "[" c || isCh "]" c || isCh "{" c
  || isCh "}" c || isCh "|" c.

(** Leading decimal digits of the text. *)
Fixpoint takeDigits (s : jsstring) : jsstring * jsstring :=
  match s with
  | c :: s' =>
      if isDigit c then let (d, r) := takeDigits s' in (c :: d, r)
      else ([], s)
  | [] => ([], [])
  end.

Definition natOfDigits (d : jsstring) : nat :=
  List.fold_left (fun acc c => 10 * acc + N.to_nat (c - 48)) d 0.

(** A braced quantifier [{n}], [{n,}] or [{n,m}] at the head of the text:
    bounds and the text after the closing brace. *)
Definition bracedQuantifier (s : jsstring)
    : option (nat * option nat * jsstring) :=
  match s with
  | c :: s1 =>
      if isCh "{" c then
        match takeDigits s1 with
        | ([], _) => None
        | (lo, c2 :: s2) =>
            if isCh "}" c2 then
              Some (natOfDigits lo, Some (natOfDigits lo), s2)
            else if isCh "," c2 then
              match takeDigits s2 with
              | ([], c3 :: s3) =>
                  if isCh "}" c3 then Some (natOfDigits lo, None, s3)
                  else None
              | (hi, c3 :: s3) =>
                  if isCh "}" c3
                  then Some (natOfDigits lo, Some (natOfDigits hi), s3)
                  else None
              | (_, []) => None
              end
            else None
        | (_, []) => None
        end
      else None
  | [] => None
  end.

(** Does the text start with a quantifier? *)
Definition startsQuantifier (s : jsstring) : bool :=
  match s with
  | c :: _ =>
      isCh "*" c || isCh "+" c || isCh "?" c
      || match bracedQuantifier s with Some _ => true | None => false end
  | [] => false
  end.

(** The optional quantifier after an atom. *)
Definition parseQuantifier (atom : regex) (s : jsstring)
    : parsed (regex * jsstring) :=
  let finish (lo : nat) (hi : option nat) (rest : jsstring) :=
    match hi with
    | Some h =>
        if Nat.ltb h lo then PSyntaxError   (* numbers out of order *)
        else
          match rest with
          | c :: rest' =>
              if isCh "?" c then POk (Quant atom lo hi false, rest')
              else POk (Quant atom lo hi true, rest)
          | [] => POk (Quant atom lo hi true, rest)
          end
    | None =>
        match rest with
        | c :: rest' =>
            if isCh "?" c then POk (Quant atom lo hi false, rest')
            else POk (Quant atom lo hi true, rest)
        | [] => POk (Quant atom lo hi true, rest)
        end
    end in
  match s with
  | c :: s' =>
      if isCh "*" c then finish 0 None s'
      else if isCh "+" c then finish 1 None s'
      else if isCh "?" c then finish 0 (Some 1) s'
      else if isCh "{" c then
        match bracedQuantifier s with
        | Some (lo, hi, rest) => finish lo hi rest
        | None => PUnsupported   (* a brace standing for itself *)
        end
      else POk (atom, s)
  | [] => POk (atom, s)
  end.

(** A character escape shared by atoms and classes: the control letters
    and the syntax characters standing for themselves. *)
Definition characterEscape (c : N) : option N :=
  if isCh "t" c then Some 9%N
  else if isCh "n" c then Some 10%N
  else if isCh "v" c then Some 11%N
  else if isCh "f" c then Some 12%N
  else if isCh "r" c then Some 13%N
  else if isSyntaxCharacter c || isCh "/" c || isCh "-" c then Some c
  else None.

Definition classEscape (c : N) : option class_item :=
  if isCh "d" c then Some CDigit
  else if isCh "D" c then Some CNotDigit
  else if isCh "w" c then Some CWord
  else if isCh "W" c then Some CNotWord
  else if isCh "s" c then Some CSpace
  else if isCh "S" c then Some CNotSpace
  else None.

(** One member of a class: a class escape or a single character. *)
Definition parseClassAtom (s : jsstring)
    : parsed (class_item * jsstring) :=
  match s with
  | [] => PSyntaxError                       (* unterminated class *)
  | c :: s1 =>
      if isCh "\" c then
        match s1 with
        | [] => PSyntaxError                 (* \ at end of pattern *)
        | e :: s2 =>
            match classEscape e with
            | Some it => POk (it, s2)
            | None =>
                if isCh "b" e then POk (CChar 8%N, s2)
                else match characterEscape e with
                     | Some x => POk (CChar x, s2)
                     | None => PUnsupported
                     end
            end
        end
      else POk (CChar c, s1)
  end.

(** The members of a class up to the closing bracket. *)
Fixpoint parseClassItems (fuel : nat) (s : jsstring)
    : parsed (list class_item * jsstring) :=
  match fuel with
  | O => PUnsupported
  | S fuel' =>
      match s with
      | [] => PSyntaxError                   (* unterminated class *)
      | c :: s1 =>
          if isCh "]" c then POk ([], s1)
          else
            match parseClassAtom s with
            | POk (a, s2) =>
                match s2 with
                | d :: (e :: _) as s3 =>
                    if isCh "-" d && negb (isCh "]" e) then
                      match a, parseClassAtom s3 with
                      | CChar lo, POk (CChar hi, s4) =>
                          if N.ltb hi lo then PSyntaxError (* out of order *)
                          else
                            match parseClassItems fuel' s4 with
                            | POk (items, s5) =>
                                POk (CRange lo hi :: items, s5)
                            | PSyntaxError => PSyntaxError
                            | PUnsupported => PUnsupported
                            end
                      | _, POk _ => PUnsupported
                      | _, PSyntaxError => PSyntaxError
                      | _, PUnsupported => PUnsupported
                      end
                    else
                      match parseClassItems fuel' s2 with
                      | POk (items, s5) => POk (a :: items, s5)
                      | PSyntaxError => PSyntaxError
                      | PUnsupported => PUnsupported
                      end
                | _ =>
                    match parseClassItems fuel' s2 with
                    | POk (items, s5) => POk (a :: items, s5)
                    | PSyntaxError => PSyntaxError
                    | PUnsupported => PUnsupported
                    end
                end
            | PSyntaxError => PSyntaxError
            | PUnsupported => PUnsupported
            end
      end
  end.

(** A class, the opening bracket already read. *)
Definition parseClass (s : jsstring) : parsed (regex * jsstring) :=
  let (invert, body) :=
    match s with
    | c :: s' => if isCh "^" c then (true, s') else (false, s)
    | [] => (false, s)
    end in
  match parseClassItems (S (List.length body)) body with
  | POk (items, rest) => POk (Class invert items, rest)
  | PSyntaxError => PSyntaxError
  | PUnsupported => PUnsupported
  end.

(** An escape in atom position, the backslash already read.  The result
    says whether the term may take a quantifier. *)
Definition parseAtomEscape (s : jsstring)
    : parsed (regex * bool * jsstring) :=
  match s with
  | [] => PSyntaxError                       (* \ at end of pattern *)
  | e :: s1 =>
      if isCh "b" e then POk (WordBoundary, false, s1)
      else if isCh "B" e then POk (NotWordBoundary, false, s1)
      else
        match classEscape e with
        | Some it => POk (Class false [it], true, s1)
        | None =>
            if isDigit e && negb (isCh "0" e) then
              let (d, rest) := takeDigits s in
              POk (Backref (natOfDigits d), true, rest)
            else
              match characterEscape e with
              | Some x => POk (Char x, true, s1)
              | None => PUnsupported
              end
        end
  end.

(** Disjunction, alternative and term.  The counter is the number of
    capturing groups opened so far (groups are numbered by their opening
    parenthesis, from 1). *)
Fixpoint parseDisjunction (fuel : nat) (s : jsstring) (g : nat)
    : parsed (regex * jsstring * nat) :=
  match fuel with
  | O => PUnsupported
  | S fuel' =>
      match parseAlternative fuel' s g with
      | POk (r1, s1, g1) =>
          match s1 with
          | c :: s2 =>
              if isCh "|" c then
                match parseDisjunction fuel' s2 g1 with
                | POk (r2, s3, g2) => POk (Alt r1 r2, s3, g2)
                | PSyntaxError => PSyntaxError
                | PUnsupported => PUnsupported
                end
              else POk (r1, s1, g1)
          | [] => POk (r1, s1, g1)
          end
      | PSyntaxError => PSyntaxError
      | PUnsupported => PUnsupported
      end
  end

with parseAlternative (fuel : nat) (s : jsstring) (g : nat)
    : parsed (regex * jsstring * nat) :=
  match fuel with
  | O => PUnsupported
  | S fuel' =>
      match s with
      | [] => POk (Empty, s, g)
      | c :: _ =>
          if isCh "|" c || isCh ")" c then POk (Empty, s, g)
          else
            match parseTerm fuel' s g with
            | POk (r1, s1, g1) =>
                match parseAlternative fuel' s1 g1 with
                | POk (r2, s2, g2) =>
                    POk (match r2 with Empty => r1 | _ => Seq r1 r2 end,
                         s2, g2)
                | PSyntaxError => PSyntaxError
                | PUnsupported => PUnsupported
                end
            | PSyntaxError => PSyntaxError
            | PUnsupported => PUnsupported
            end
      end
  end

with parseTerm (fuel : nat) (s : jsstring) (g : nat)
    : parsed (regex * jsstring * nat) :=
  let quantified (atom : regex) (rest : jsstring) (g' : nat) :=
    match parseQuantifier atom rest with
    | POk (r, rest') => POk (r, rest', g')
    | PSyntaxError => PSyntaxError
    | PUnsupported => PUnsupported
    end in
  match fuel with
  | O => PUnsupported
  | S fuel' =>
      match s with
      | [] => POk (Empty, s, g)
      | c :: s1 =>
          if isCh "^" c then POk (AssertStart, s1, g)
          else if isCh "$" c then POk (AssertEnd, s1, g)
          else if isCh "*" c || isCh "+" c || isCh "?" c then
            PSyntaxError                     (* nothing to repeat *)
          else if isCh "{" c then
            if startsQuantifier s then PSyntaxError (* nothing to repeat *)
            else PUnsupported                (* a brace standing for itself *)
          else if isCh "}" c || isCh "]" c then PUnsupported
          else if isCh "." c then quantified Dot s1 g
          else if isCh "[" c then
            match parseClass s1 with
            | POk (r, rest) => quantified r rest g
            | PSyntaxError => PSyntaxError
            | PUnsupported => PUnsupported
            end
          else if isCh "\" c then
            match parseAtomEscape s1 with
            | POk (r, true, rest) => quantified r rest g
            | POk (r, false, rest) => POk (r, rest, g)
            | PSyntaxError => PSyntaxError
            | PUnsupported => PUnsupported
            end
          else if isCh "(" c then
            match s1 with
            | q :: s2 =>
                if isCh "?" q then
                  match s2 with
                  | k :: s3 =>
                      if isCh ":" k then
                        match parseDisjunction fuel' s3 g with
                        | POk (r, p :: rest, g') =>
                            if isCh ")" p then quantified r rest g'
                            else PSyntaxError
                        | POk (_, [], _) => PSyntaxError (* unterminated *)
                        | PSyntaxError => PSyntaxError
                        | PUnsupported => PUnsupported
                        end
                      else PUnsupported      (* look-around, named group *)
                  | [] => PSyntaxError
                  end
                else
                  match parseDisjunction fuel' s1 (S g) with
                  | POk (r, p :: rest, g') =>
                      if isCh ")" p then quantified (Group (S g) r) rest g'
                      else PSyntaxError
                  | POk (_, [], _) => PSyntaxError   (* unterminated *)
                  | PSyntaxError => PSyntaxError
                  | PUnsupported => PUnsupported
                  end
            | [] => PSyntaxError                     (* unterminated *)
            end
          else quantified (Char c) s1 g
      end
  end.

(** Largest back-reference number used in a pattern. *)
Fixpoint maxBackref (r : regex) : nat :=
  match r with
  | Seq a b | Alt a b => Nat.max (maxBackref a) (maxBackref b)
  | Quant a _ _ _ | Group _ a => maxBackref a
  | Backref n => n
  | _ => 0
  end.

Definition parsePattern (s : jsstring) : parsed regex :=
  match parseDisjunction (3 * List.length s + 3) s 0 with
  | POk (r, [], g) =>
      if Nat.ltb g (maxBackref r) then PUnsupported  (* legacy octal *)
      else POk r
  | POk (_, _ :: _, _) => PSyntaxError               (* unmatched [)] *)
  | PSyntaxError => PSyntaxError
  | PUnsupported => PUnsupported
  end.

(** The flags text: [g] and [i], each at most once. *)
Fixpoint parseFlags (s : jsstring) (i g : bool) : parsed (bool * bool) :=
  match s with
  | [] => POk (i, g)
  | c :: s' =>
      if isCh "i" c then (if i then PSyntaxError else parseFlags s' true g)
      else if isCh "g" c then (if g then PSyntaxError else parseFlags s' i true)
      else if isCh "m" c || isCh "s" c || isCh "u" c || isCh "y" c || isCh "d" c
              || isCh "v" c
      then PUnsupported
      else PSyntaxError
  end.

(** [new RegExp(pattern, flags)] on the fragment. *)
Definition RegExp_new (pattern flags : jsstring) : completion RegExp :=
  match parseFlags flags false false with
  | POk (i, g) =>
      match parsePattern pattern with
      | POk r => Normal (mkRegExp r i g)
      | PSyntaxError => Throw SyntaxError
      | PUnsupported => Throw NotModelled
      end
  | PSyntaxError => Throw SyntaxError
  | PUnsupported => Throw NotModelled
  end.

End PatternParser.

(* ================================================================== *)
(** ** Transactions *)
(* ================================================================== *)

Module Model.

(** A committed transaction record. *)
Record Transaction : Type := mkTransaction {
  id : jsstring;
  description : jsstring;
  amount : Q;
  category : jsstring;
  date : jsstring;
  createdAt : jsstring;
  updatedAt : jsstring
}.

(** *** Objects used as dictionaries

    [categoryTotals] and [dailyTotals] are plain objects.  Their own
    properties are kept in creation order; a property read also sees the
    members of [Object.prototype]; [Object.keys] lists canonical array
    indices first, in increasing order, then the other names in creation
    order. *)

Inductive propval : Type :=
| PNum (q : Q)     (* a number *)
| PJunk.           (* an inherited function, or the text made by adding a
                      number to one: truthy, and NaN when compared *)

Definition JsObject : Type := list (jsstring * propval).

Definition objectPrototypeNames : list jsstring :=
  List.map js
    ["constructor"; "__defineGetter__"; "__defineSetter__";
     "hasOwnProperty"; "__lookupGetter__"; "__lookupSetter__";
     "isPrototypeOf"; "propertyIsEnumerable"; "toString"; "valueOf";
     "__proto__"; "toLocaleString"]%string.

Definition inherited (k : jsstring) : bool :=
  List.existsb (JsString.eqb k) objectPrototypeNames.

Fixpoint getOwn (o : JsObject) (k : jsstring) : option propval :=
  match o with
  | [] => None
  | (k', v) :: o' => if JsString.eqb k' k then Some v else getOwn o' k
  end.

Definition hasOwnProperty (o : JsObject) (k : jsstring) : bool :=
  match getOwn o k with Some _ => true | None => false end.

(** [o[k]]: [None] is [undefined]. *)
Definition get (o : JsObject) (k : jsstring) : option propval :=
  match getOwn o k with
  | Some v => Some v
  | None => if inherited k then Some PJunk else None
  end.

Fixpoint setOwn (o : JsObject) (k : jsstring) (v : propval) : JsObject :=
  match o with
  | [] => [(k, v)]
  | (k', v') :: o' =>
      if JsString.eqb k' k then (k', v) :: o'
      else (k', v') :: setOwn o' k v
  end.

(** [o[k] = v] for a primitive [v]: the [__proto__] accessor ignores it. *)
Definition set (o : JsObject) (k : jsstring) (v : propval) : JsObject :=
  if JsString.eqb k (js "__proto__") then o else setOwn o k v.

(** Truthiness of a property read. *)
Definition truthyProp (v : option propval) : bool :=
  match v with
  | None => false
  | Some (PNum q) => negb (Qeq_bool q 0)
  | Some PJunk => true
  end.

(** [v + amount]. *)
Definition addNumber (v : option propval) (a : Q) : propval :=
  match v with
  | Some (PNum q) => PNum (q + a)
  | _ => PJunk
  end.

(** A canonical array index: decimal digits without a leading zero, value
    below 2^32 - 1. *)
Definition arrayIndex (k : jsstring) : option Z :=
  match k with
  | [] => None
  | c :: k' =>
      if N.eqb c 48 && negb (JsString.eqb k' []) then None
      else match digitsValue 0 k with
           | Some n => if (n <? 4294967295)%Z then Some n else None
           | None => None
           end
  end.

Fixpoint insertIndex (n : Z) (k : jsstring) (l : list (Z * jsstring))
    : list (Z * jsstring) :=
  match l with
  | [] => [(n, k)]
  | (m, k') :: l' =>
      if (n <? m)%Z then (n, k) :: l else (m, k') :: insertIndex n k l'
  end.

Fixpoint indexKeys (o : JsObject) : list (Z * jsstring) :=
  match o with
  | [] => []
  | (k, _) :: o' =>
      match arrayIndex k with
      | Some n => insertIndex n k (indexKeys o')
      | None => indexKeys o'
      end
  end.

Fixpoint nameKeys (o : JsObject) : list jsstring :=
  match o with
  | [] => []
  | (k, _) :: o' =>
      match arrayIndex k with
      | Some _ => nameKeys o'
      | None => k :: nameKeys o'
      end
  end.

(** [Object.keys(o)]. *)
Definition Object_keys (o : JsObject) : list jsstring :=
  List.map snd (indexKeys o) ++ nameKeys o.

End Model.
Export Model.

(* ================================================================== *)
(** ** The whole-record validator of validators.js *)
(* ================================================================== *)

Module Form.

(** The value held by the [amount] property of the validated object: the
    form supplies text, other callers may supply a number, and the
    property may be missing. *)
Inductive amountValue : Type :=
| AmountUndefined
| AmountNumber (q : Q)
| AmountString (s : jsstring).

(** The object handed to [validateTransaction]. *)
Record FormData : Type := mkFormData {
  description : jsstring;
  amount : amountValue;
  category : jsstring;
  date : jsstring
}.

(** The [errors] object: field names with their messages, in the order
    the properties are created. *)
Definition Errors : Type := list (jsstring * jsstring).

Record Result : Type := mkResult {
  valid : bool;
  errors : Errors
}.

Fixpoint lookup (k : jsstring) (e : Errors) : option jsstring :=
  match e with
  | [] => None
  | (k', m) :: e' => if JsString.eqb k' k then Some m else lookup k e'
  end.

Section WithRuntime.
(** [String(n)] for a number [n]: the runtime's decimal printer. *)
Variable Number_toString : Q -> jsstring.

Definition truthyAmount (v : amountValue) : bool :=
  match v with
  | AmountUndefined => false
  | AmountNumber q => negb (Qeq_bool q 0)
  | AmountString s => truthy s
  end.

(** [String(transaction.amount || '')]. *)
Definition amountText (v : amountValue) : jsstring :=
  if truthyAmount v then
    match v with
    | AmountNumber q => Number_toString q
    | AmountString s => s
    | AmountUndefined => js "undefined"
    end
  else [].

Definition addError (name : string) (check : Validation) (e : Errors)
    : Errors :=
  if negb (Validators.valid check)
  then (e ++ [(js name, Validators.message check)])%list
  else e.

Definition validateTransaction (transaction : FormData) : Result :=
  let descCheck := validateDescription (description transaction) in
  let amountCheck := validateAmount (amountText (amount transaction)) in
  let dateCheck := validateDate (date transaction) in
  let categoryCheck := validateCategory (category transaction) in
  let errors :=
    addError "category" categoryCheck
      (addError "date" dateCheck
         (addError "amount" amountCheck
            (addError "description" descCheck []))) in
  mkResult (Nat.eqb (List.length errors) 0) errors.

End WithRuntime.

End Form.

(* ================================================================== *)
(** ** search.js *)
(* ================================================================== *)

Module SearchEngine.
Local Open Scope char_scope.

(** *** compileRegex *)

Section CompileRegex.
(** The runtime's [new RegExp(pattern, flags)]. *)
Variable RegExp_new : jsstring -> jsstring -> completion RegExp.

(** The body of [compileRegex] runs its constructor call inside
    [try/catch]; the guard before it works on a string and cannot
    throw.  [Normal None] is the return value [null]. *)
Definition compileRegex (input : jsstring) (caseSensitive : bool)
    : completion (option RegExp) :=
  if blank input then Normal None
  else
    let flags := if caseSensitive then js "" else js "i" in
    match RegExp_new input flags with
    | Normal re => Normal (Some re)
    | Throw _ => Normal None      (* catch: console.error, return null *)
    end.
End CompileRegex.

(** *** makeGlobalRegex, escapeHtml, highlight *)

(** A fresh regular expression with the same pattern, the [g] flag, and
    the [i] flag when the original has it.  Re-reading the pattern text of
    an existing regular expression cannot fail. *)
Definition makeGlobalRegex (regex : option RegExp) : option RegExp :=
  match regex with
  | None => None
  | Some re => Some (mkRegExp (source re) (ignoreCase re) true)
  end.

(** Text serialisation of a text node ([div.textContent = text] read back
    through [div.innerHTML]). *)
Definition escapeChar (c : N) : jsstring :=
  if N.eqb c (code "&") then js "&amp;"
  else if N.eqb c (code "<") then js "&lt;"
  else if N.eqb c (code ">") then js "&gt;"
  else if N.eqb c 160 then js "&nbsp;"
  else [c].

Definition escapeHtml (text : jsstring) : jsstring :=
  List.flat_map escapeChar text.

Definition mark (matched : jsstring) : jsstring :=
  (js "<mark>" ++ matched ++ js "</mark>")%list.

Definition highlight (text : jsstring) (regex : option RegExp) : jsstring :=
  match regex with
  | None => escapeHtml (if truthy text then text else [])
  | Some _ =>
      if negb (truthy text) then escapeHtml []
      else
        match makeGlobalRegex regex with
        | Some globalRegex =>
            let safeText := escapeHtml text in
            replaceAll globalRegex safeText mark
        | None => escapeHtml text   (* not reached: [regex] is not null *)
        end
  end.

(** *** searchTransactions, filterByCategory *)

Section SearchTransactions.
Variable Number_toString : Q -> jsstring.

Definition matchesAny (searchRegex : RegExp) (txn : Transaction) : bool :=
  let matchesDescription := test searchRegex (description txn) in
  let matchesAmount := test searchRegex (Number_toString (amount txn)) in
  let matchesCategory := test searchRegex (category txn) in
  let matchesDate := test searchRegex (date txn) in
  matchesDescription || matchesAmount || matchesCategory || matchesDate.

Fixpoint collect (keep : Transaction -> bool)
    (transactions : list Transaction) : list Transaction :=
  match transactions with
  | [] => []
  | txn :: rest =>
      if keep txn then txn :: collect keep rest else collect keep rest
  end.

Definition searchTransactions (transactions : list Transaction)
    (searchRegex : option RegExp) : list Transaction :=
  match searchRegex with
  | None => transactions
  | Some re => collect (matchesAny re) transactions
  end.
End SearchTransactions.

Definition filterByCategory (transactions : list Transaction)
    (category : jsstring) : list Transaction :=
  if negb (truthy category) then transactions
  else collect (fun txn => JsString.eqb (Model.category txn) category)
         transactions.

End SearchEngine.
Export SearchEngine.

(* ================================================================== *)
(** ** Reading a date string: [new Date(text)] *)
(* ================================================================== *)

Module DateText.
Local Open Scope Z_scope.

Definition daysInMonth (year month : Z) : Z :=
  let leap := if DaysInYear year =? 366 then 1 else 0 in
  monthStart leap month - monthStart leap (month - 1).

(** [Date.parse] on the date-only form [YYYY-MM-DD], the form the date
    pattern of the validators admits, as V8 reads it: midnight UTC of that
    day, where a day number up to 31 that lies beyond the end of its month
    runs on into the next month ([2025-02-30] is 2 March).  [None] is NaN:
    a month outside 01..12 or a day outside 01..31.  Text in any other
    form is given as NaN. *)
Definition Date_parse (text : jsstring) : option Z :=
  match text with
  | [y1; y2; y3; y4; h1; m1; m2; h2; d1; d2] =>
      if (N.eqb h1 45 && N.eqb h2 45)%bool then
        match digitsValue 0 [y1; y2; y3; y4], digitsValue 0 [m1; m2],
              digitsValue 0 [d1; d2] with
        | Some y, Some m, Some d =>
            if (1 <=? m) && (m <=? 12) && (1 <=? d) && (d <=? 31)
            then Some (utcMidnight y m d)
            else None
        | _, _, _ => None
        end
      else None
  | _ => None
  end.

(** [digits.padStart(width, '0')]. *)
Definition padStart (width : nat) (digits : jsstring) : jsstring :=
  (List.repeat 48%N (width - List.length digits) ++ digits)%list.

(** Decimal digits of a non-negative integer. *)
Fixpoint digitsOf (fuel : nat) (n : Z) (acc : jsstring) : jsstring :=
  match fuel with
  | O => acc
  | S f =>
      let acc' := (Z.to_N (n mod 10) + 48)%N :: acc in
      if n <? 10 then acc' else digitsOf f (n / 10) acc'
  end.

Definition decimal (n : Z) : jsstring := digitsOf (Z.to_nat n + 1) n [].

(** [d.toISOString().split('T')[0]] for a time value in the years 0 to
    9999: the UTC calendar date as [YYYY-MM-DD]. *)
Definition isoDate (t : Z) : jsstring :=
  (padStart 4 (decimal (YearFromTime t)) ++ [45%N]
   ++ padStart 2 (decimal (MonthFromTime t + 1)) ++ [45%N]
   ++ padStart 2 (decimal (DateFromTime t)))%list.

End DateText.
Export DateText.

(* ================================================================== *)
(** ** Array.prototype.sort and sortTransactions *)
(* ================================================================== *)

Module Sorting.

Section ArraySort.
Context {A : Type}.
(** The comparison function; [None] is a NaN result. *)
Variable comparefn : A -> A -> option Q.

(** SortCompare: a NaN result counts as 0. *)
Definition sortCompare (x y : A) : Q :=
  match comparefn x y with
  | Some v => v
  | None => 0%Q
  end.

(** [x] comes from before every element of [l]; it moves past the
    elements it must follow and stays in front of the ones it ties
    with, which keeps the sort stable. *)
Fixpoint insertSorted (x : A) (l : list A) : list A :=
  match l with
  | [] => [x]
  | y :: l' =>
      if JsNumber.ltb 0 (sortCompare x y) then y :: insertSorted x l'
      else x :: l
  end.

(** The sorted order of an array: for a consistent comparison function
    the standard fixes it (the sort is stable).  For an inconsistent one,
    as [date-desc] is on dates that do not read, the standard leaves the
    order to the engine; this is the order of a stable insertion. *)
Fixpoint arraySort (l : list A) : list A :=
  match l with
  | [] => []
  | x :: l' => insertSorted x (arraySort l')
  end.
End ArraySort.

(** [new Date(a) - new Date(b)] on date strings. *)
Definition dateDifference (a b : jsstring) : option Q :=
  match Date_parse a, Date_parse b with
  | Some ta, Some tb => Some (inject_Z (ta - tb))
  | _, _ => None
  end.

(** The store of arrays: [sortTransactions] receives a reference and
    returns a reference. *)
Definition Store : Type := gmap nat (list Transaction).

Section SortTransactions.
(** [a.localeCompare(b)]: the collation of the host locale. *)
Variable localeCompare : jsstring -> jsstring -> Q.

(** The comparison function chosen by [sortBy]; [None] when no branch
    applies and the copy is returned as it is. *)
Definition comparator (sortBy : jsstring)
    : option (Transaction -> Transaction -> option Q) :=
  if JsString.eqb sortBy (js "date-desc") then
    Some (fun a b => dateDifference (date b) (date a))
  else if JsString.eqb sortBy (js "date-asc") then
    Some (fun a b => dateDifference (date a) (date b))
  else if JsString.eqb sortBy (js "desc-asc") then
    Some (fun a b => Some (localeCompare (description a) (description b)))
  else if JsString.eqb sortBy (js "desc-desc") then
    Some (fun a b => Some (localeCompare (description b) (description a)))
  else if JsString.eqb sortBy (js "amount-desc") then
    Some (fun a b => Some (amount b - amount a)%Q)
  else if JsString.eqb sortBy (js "amount-asc") then
    Some (fun a b => Some (amount a - amount b)%Q)
  else None.

(** [const sorted = [...transactions]] allocates a new array holding
    the elements of the argument; [sorted.sort(...)] reorders that new
    array in place; the new reference is returned. *)
Definition sortTransactions (h : Store) (transactions : nat)
    (sortBy : jsstring) : Store * nat :=
  let sorted := fresh (dom h) in
  let h1 := <[sorted := default [] (h !! transactions)]> h in
  let h2 :=
    match comparator sortBy with
    | Some comparefn => alter (arraySort comparefn) sorted h1
    | None => h1
    end in
  (h2, sorted).
End SortTransactions.

End Sorting.
Export Sorting.

(* ================================================================== *)
(** ** state.js: the statistics of the dashboard *)
(* ================================================================== *)

Module State.
Local Open Scope Z_scope.

(** The part of the application state read by the statistics: the
    transaction collection and the budget cap.  In this module the
    figures are those of the decimals the amounts are written as; the
    total spent and the totals per category as the engine rounds them
    are in [Doubles] below. *)
Record AppState : Type := mkAppState {
  transactions : list Transaction;
  budgetCap : Q
}.

(** The object returned by [calculateStats]. *)
Record Stats : Type := mkStats {
  total : nat;
  totalExpenses : Q;
  topCategory : jsstring;
  weekTotal : Q;
  dailyTotals : JsObject;
  stats_budgetCap : Q
}.

(** *** The loops of calculateStats *)

Definition sumAmounts (transactions : list Transaction) : Q :=
  List.fold_left (fun acc txn => (acc + amount txn)%Q) transactions 0%Q.

(** One turn of the loop that fills [categoryTotals]. *)
Definition addToCategory (categoryTotals : JsObject) (txn : Transaction)
    : JsObject :=
  let cat := category txn in
  let o :=
    if negb (truthyProp (get categoryTotals cat))
    then set categoryTotals cat (PNum 0)
    else categoryTotals in
  set o cat (addNumber (get o cat) (amount txn)).

Definition categoryTotals (transactions : list Transaction) : JsObject :=
  List.fold_left addToCategory transactions [].

(** One turn of the loop that looks for the highest total; the
    accumulator is [(topCategory, topAmount)]. *)
Definition pickTop (totals : JsObject) (acc : jsstring * Q)
    (cat : jsstring) : jsstring * Q :=
  match get totals cat with
  | Some (PNum amount) =>
      if JsNumber.ltb (snd acc) amount then (cat, amount) else acc
  | _ => acc       (* a comparison with NaN is false *)
  end.

Definition findTop (totals : JsObject) : jsstring * Q :=
  List.fold_left (pickTop totals) (Object_keys totals) (js "None", 0%Q).

(** The time zone of the host: [LocalTZA(t, isUTC)] of the standard, the
    offset of local time from UTC in milliseconds.  With [isUTC] true,
    [t] is a UTC time value; with [isUTC] false, [t] is a local time
    value.  The offset may change from one instant to another, as it does
    when daylight saving time begins or ends. *)
Definition TimeZone : Type := Z -> bool -> Z.

(** A zone whose offset never changes; [fixedOffset 0] is UTC. *)
Definition fixedOffset (offset : Z) : TimeZone := fun _ _ => offset.

Section Clock.
(** The time value of [new Date()] and the time zone of the host. *)
Variable now : Z.
Variable LocalTZA : TimeZone.

Definition LocalTime (t : Z) : Z := t + LocalTZA t true.
Definition UTC (t : Z) : Z := t - LocalTZA t false.

(** [d.setDate(d.getDate() + k)] on a date with time value [t]. *)
Definition shiftDate (t k : Z) : Z :=
  let lt := LocalTime t in
  UTC (MakeDate
         (MakeDay (YearFromTime lt) (MonthFromTime lt)
            (DateFromTime lt + k))
         (TimeWithinDay lt)).

Definition sevenDaysAgo : Z := shiftDate now (-7).

(** The loop computing [weekTotal]: [new Date(txn.date) >= sevenDaysAgo]
    is false for an invalid date. *)
Definition inLastWeek (txn : Transaction) : bool :=
  match Date_parse (date txn) with
  | Some t => sevenDaysAgo <=? t
  | None => false
  end.

Definition sumWeek (transactions : list Transaction) : Q :=
  List.fold_left
    (fun weekTotal txn =>
       if inLastWeek txn then (weekTotal + amount txn)%Q else weekTotal)
    transactions 0%Q.

(** The keys of the last seven days, oldest first, each set to 0. *)
Definition seedDays : JsObject :=
  List.fold_left
    (fun dailyTotals i => set dailyTotals (isoDate (shiftDate now (- i)))
                            (PNum 0))
    [6; 5; 4; 3; 2; 1; 0] [].

Definition addToDay (dailyTotals : JsObject) (txn : Transaction)
    : JsObject :=
  let txnDate := date txn in
  if hasOwnProperty dailyTotals txnDate
  then set dailyTotals txnDate
         (addNumber (get dailyTotals txnDate) (amount txn))
  else dailyTotals.

Definition calculateStats (state : AppState) : Stats :=
  let transactions := transactions state in
  {| total := List.length transactions;
     totalExpenses := sumAmounts transactions;
     topCategory := fst (findTop (categoryTotals transactions));
     weekTotal := sumWeek transactions;
     dailyTotals := List.fold_left addToDay transactions seedDays;
     stats_budgetCap := budgetCap state |}.

End Clock.

End State.
Export State.

(* ================================================================== *)
(** ** state.js and ui.js in binary64 *)
(* ================================================================== *)

(** The figures whose outcome depends on how the engine rounds: the total
    of the amounts, the totals per category with the top category, and the
    budget class.  The amount of a record and the budget cap enter as the
    numbers nearest to the decimals they were written as. *)

Module Doubles.
Import Binary64.

(** *** Objects used as dictionaries, holding numbers of the engine *)

Inductive propval : Type :=
| PNum (x : number)     (* a number *)
| PJunk.                (* an inherited function, or the text made by
                           adding a number to one: truthy, and NaN when
                           compared *)

Definition JsObject : Type := list (jsstring * propval).

Fixpoint getOwn (o : JsObject) (k : jsstring) : option propval :=
  match o with
  | [] => None
  | (k', v) :: o' => if JsString.eqb k' k then Some v else getOwn o' k
  end.

(** [o[k]]: [None] is [undefined]. *)
Definition get (o : JsObject) (k : jsstring) : option propval :=
  match getOwn o k with
  | Some v => Some v
  | None => if inherited k then Some PJunk else None
  end.

Fixpoint setOwn (o : JsObject) (k : jsstring) (v : propval) : JsObject :=
  match o with
  | [] => [(k, v)]
  | (k', v') :: o' =>
      if JsString.eqb k' k then (k', v) :: o'
      else (k', v') :: setOwn o' k v
  end.

(** [o[k] = v] for a primitive [v]: the [__proto__] accessor ignores it. *)
Definition set (o : JsObject) (k : jsstring) (v : propval) : JsObject :=
  if JsString.eqb k (js "__proto__") then o else setOwn o k v.

(** Truthiness of a property read. *)
Definition truthyProp (v : option propval) : bool :=
  match v with
  | None => false
  | Some (PNum x) => truthy x
  | Some PJunk => true
  end.

(** [v + amount]. *)
Definition addNumber (v : option propval) (a : number) : propval :=
  match v with
  | Some (PNum x) => PNum (add x a)
  | _ => PJunk
  end.

Fixpoint indexKeys (o : JsObject) : list (Z * jsstring) :=
  match o with
  | [] => []
  | (k, _) :: o' =>
      match arrayIndex k with
      | Some n => insertIndex n k (indexKeys o')
      | None => indexKeys o'
      end
  end.

Fixpoint nameKeys (o : JsObject) : list jsstring :=
  match o with
  | [] => []
  | (k, _) :: o' =>
      match arrayIndex k with
      | Some _ => nameKeys o'
      | None => k :: nameKeys o'
      end
  end.

(** [Object.keys(o)]: canonical array indices first, in increasing order,
    then the other names in creation order. *)
Definition Object_keys (o : JsObject) : list jsstring :=
  List.map snd (indexKeys o) ++ nameKeys o.

(** *** The loops of calculateStats *)

(** [totalExpenses]. *)
Definition totalExpenses (transactions : list Transaction) : number :=
  List.fold_left (fun acc txn => add acc (ofQ (amount txn)))
    transactions zero.

(** One turn of the loop that fills [categoryTotals]. *)
Definition addToCategory (categoryTotals : JsObject) (txn : Transaction)
    : JsObject :=
  let cat := category txn in
  let o :=
    if negb (truthyProp (get categoryTotals cat))
    then set categoryTotals cat (PNum zero)
    else categoryTotals in
  set o cat (addNumber (get o cat) (ofQ (amount txn))).

Definition categoryTotals (transactions : list Transaction) : JsObject :=
  List.fold_left addToCategory transactions [].

(** One turn of the loop that looks for the highest total; the
    accumulator is [(topCategory, topAmount)]. *)
Definition pickTop (totals : JsObject) (acc : jsstring * number)
    (cat : jsstring) : jsstring * number :=
  match get totals cat with
  | Some (PNum amount) =>
      if ltb (snd acc) amount then (cat, amount) else acc
  | _ => acc       (* a comparison with NaN is false *)
  end.

Definition findTop (totals : JsObject) : jsstring * number :=
  List.fold_left (pickTop totals) (Object_keys totals) (js "None", zero).

(** [topCategory]. *)
Definition topCategory (transactions : list Transaction) : jsstring :=
  fst (findTop (categoryTotals transactions)).

(** *** ui.js: renderBudgetCap *)





End Doubles.

(* ================================================================== *)
(** ** A host for the worked examples *)
(* ================================================================== *)

(** The statements below hold for every host; where an example needs one,
    it uses the pattern reader of [PatternParser], the decimal printer and
    the code-unit order defined here. *)

Module Host.

(** Fraction digits of [r / d], at most [fuel] of them. *)
Fixpoint fractionDigits (fuel : nat) (r d : Z) : jsstring :=
  match fuel with
  | O => []
  | S f =>
      if (r =? 0)%Z then []
      else (Z.to_N (10 * r / d) + 48)%N
             :: fractionDigits f ((10 * r) mod d)%Z d
  end.

(** [String(q)] for a number with a short decimal expansion. *)
Definition Number_toString (q : Q) : jsstring :=
  let n := Z.abs (Qnum q) in
  let d := Zpos (Qden q) in
  let sign := if (Qnum q <? 0)%Z then js "-" else [] in
  let whole := decimal (n / d)%Z in
  let frac := fractionDigits 20 (n mod d)%Z d in
  match frac with
  | [] => (sign ++ whole)%list
  | _ => (sign ++ whole ++ js "." ++ frac)%list
  end.

(** Comparison by code units: -1, 0 or 1. *)
Fixpoint localeCompare (a b : jsstring) : Q :=
  match a, b with
  | [], [] => 0%Q
  | [], _ :: _ => (-1)%Q
  | _ :: _, [] => 1%Q
  | x :: a', y :: b' =>
      if N.ltb x y then (-1)%Q
      else if N.ltb y x then 1%Q
      else localeCompare a' b'
  end.

(** A transaction with the given category, amount and date. *)
Definition txn (category : string) (amount : Q) (date : string)
    : Transaction :=
  mkTransaction (js "txn_1") (js "Lunch") amount (js category) (js date)
    (js "2025-01-01T00:00:00.000Z") (js "2025-01-01T00:00:00.000Z").

End Host.

(* ================================================================== *)
(** ** Definitions used by the statements *)
(* ================================================================== *)

(** The text [Tea], a line feed, [Cake]. *)
Definition twoLines : jsstring := (js "Tea" ++ [10%N] ++ js "Cake")%list.

(** The parts of a date string as [validateDate] reads them. *)
Definition datePart (value : jsstring) (i : nat) : option Z :=
  Number (List.nth_error (split (code "-") value) i).

(** The sum of the amounts of the transactions of category [c], added in
    the order of the collection. *)
Definition categorySum (transactions : list Transaction) (c : jsstring) : Q :=
  List.fold_left
    (fun acc txn =>
       if JsString.eqb (category txn) c then (acc + amount txn)%Q else acc)
    transactions 0%Q.

(** The categories of a collection in the order in which they are first
    met. *)
Definition firstSeen (transactions : list Transaction) : list jsstring :=
  List.fold_left
    (fun seen txn =>
       if List.existsb (JsString.eqb (category txn)) seen then seen
       else (seen ++ [category txn])%list)
    transactions [].

(** A category name that is neither an array index nor the name of a
    member of [Object.prototype]; every name the form's select offers next
    to the default categories is one unless the user adds such a name. *)
Definition plainCategory (c : jsstring) : Prop :=
  arrayIndex c = None /\ inherited c = false.

(** Every number held by the object is zero. *)
Definition allZero (o : JsObject) : Prop :=
  forall k q, getOwn o k = Some (PNum q) -> (q == 0)%Q.

(** The collection of the specification's example: Food 30, Food 20,
    Books 10. *)
Definition foodAndBooks : list Transaction :=
  [Host.txn "Food" 30 "2025-01-15"; Host.txn "Food" 20 "2025-01-14";
   Host.txn "Books" 10 "2025-01-13"].

(** The sum of a category as the loop of [calculateStats] adds it: the
    amounts of the category in the order of the collection, each rounded
    sum the start of the next, and a sum that has come to 0 or to NaN
    started again from 0. *)
Definition categoryTotal (transactions : list Transaction) (c : jsstring)
    : Binary64.number :=
  List.fold_left
    (fun acc txn =>
       if JsString.eqb (category txn) c
       then Binary64.add (if Binary64.truthy acc then acc else Binary64.zero)
              (Binary64.ofQ (amount txn))
       else acc)
    transactions Binary64.zero.

(** Two categories of equal total, the second named as an array index;
    and a category named as a member of [Object.prototype]. *)
Definition indexNamed : list Transaction :=
  [Host.txn "b" 5 "2025-01-15"; Host.txn "1" 5 "2025-01-15"].

Definition inheritedNamed : list Transaction :=
  [Host.txn "constructor" 10 "2025-01-15"].

(** Ten amounts of 0.1 under A, then one amount of 1 under B. *)
Definition tenTenths : list Transaction :=
  (List.repeat (Host.txn "A" (1 # 10) "2025-01-15") 10
   ++ [Host.txn "B" 1 "2025-01-15"])%list.

(** The sum of the rationals the amounts of a category stand for, when all
    of them are finite. *)
Definition exactCategorySum (transactions : list Transaction) (c : jsstring)
    : option Q :=
  List.fold_left
    (fun acc txn =>
       if JsString.eqb (category txn) c
       then match acc, Binary64.toQ (Binary64.ofQ (amount txn)) with
            | Some s, Some a => Some (s + a)%Q
            | _, _ => None
            end
       else acc)
    transactions (Some 0%Q).



(** The comparison function of the key [date-desc]. *)
Definition dateDesc (a b : Transaction) : option Q :=
  dateDifference (date b) (date a).

(** A store with one array of three transactions, not in date order. *)
Definition sampleArray : list Transaction :=
  [Host.txn "Food" 30 "2025-01-14"; Host.txn "Books" 10 "2025-01-15";
   Host.txn "Food" 20 "2025-01-13"].

Definition sampleStore : Store := {[ 0 := sampleArray ]}.

(** The sample with two more records: one whose date names no day, one
    dated 30 February. *)
Definition oddDates : list Transaction :=
  (Host.txn "Fees" 5 "soon" :: sampleArray
   ++ [Host.txn "Other" 7 "2025-02-30"])%list.

Definition oddDatesStore : Store := {[ 0 := oddDates ]}.

(** The seven calendar dates ending today, oldest first, where today is
    the local date of the clock. *)
Definition lastSevenDates (now : Z) (tza : TimeZone) : list jsstring :=
  List.map (fun i => isoDate ((Day (LocalTime tza now) - i) * msPerDay)%Z)
    [6; 5; 4; 3; 2; 1; 0]%Z.

(** The total of the week as the specification words it: the sum of the
    amounts of the transactions dated on one of those seven dates. *)
Definition weekTotalByDate (now : Z) (tza : TimeZone)
    (transactions : list Transaction) : Q :=
  List.fold_left
    (fun acc txn =>
       if List.existsb (JsString.eqb (date txn)) (lastSevenDates now tza)
       then (acc + amount txn)%Q else acc)
    transactions 0%Q.

(** Midnight and noon UTC of 15 January 2025. *)
Definition midnight15 : Z := 1736899200000.
Definition noon15 : Z := 1736942400000.




(** [x] may stand before [y]: the comparison function does not ask to
    swap them. *)
Definition keeps {A : Type} (comparefn : A -> A -> option Q) (x y : A)
    : Prop :=
  JsNumber.ltb 0 (sortCompare comparefn x y) = false.

(** Neighbours are in order. *)
Fixpoint inOrder {A : Type} (comparefn : A -> A -> option Q) (l : list A)
    : Prop :=
  match l with
  | x :: (y :: _) as l' => keeps comparefn x y /\ inOrder comparefn l'
  | _ => True
  end.

(** 1 in a leap year, 0 otherwise. *)
Definition leapDay (y : Z) : Z :=
  if (DaysInYear y =? 366)%Z then 1%Z else 0%Z.

(** The shape the date pattern describes: four digits, a hyphen, a month
    01..12, a hyphen, a day 01..31. *)
Definition isoDateShape (v : jsstring) : bool :=
  match v with
  | [y1; y2; y3; y4; h1; m1; m2; h2; d1; d2] =>
      isDigit y1 && isDigit y2 && isDigit y3 && isDigit y4
      && N.eqb h1 45
      && ((N.eqb m1 48 && inRange 49 57 m2)
          || (N.eqb m1 49 && inRange 48 50 m2))
      && N.eqb h2 45
      && ((N.eqb d1 48 && inRange 49 57 d2)
          || ((N.eqb 49 d1 || N.eqb 50 d1) && isDigit d2)
          || (N.eqb d1 51 && (N.eqb 48 d2 || N.eqb 49 d2)))
  | _ => false
  end.


(** Did the matcher succeed? *)
Definition succeeds (r : MatchResult) : bool :=
  match r with Some _ => true | None => false end.

(** From index [i], where the rest of the input is [suffix]: can the
    continuation succeed at [i], or after one more character of the set
    [p], or after two, ...? *)
Fixpoint reach (p : N -> bool) (c : nat -> bool) (suffix : jsstring)
    (i : nat) : bool :=
  c i
  || match suffix with
     | ch :: rest => p ch && reach p c rest (S i)
     | [] => false
     end.

(** All characters but the last are not line terminators, and the last is
    not white space. *)
Fixpoint endsWell (rest : jsstring) : bool :=
  match rest with
  | [] => false
  | [c] => negb (isWhiteSpace c)
  | c :: rest' => negb (isLineTerminator c) && endsWell rest'
  end.

(** The shape the description pattern describes. *)
Definition descriptionShape (v : jsstring) : bool :=
  match v with
  | [] => false
  | c :: rest =>
      negb (isWhiteSpace c)
      && match rest with [] => true | _ => endsWell rest end
  end.

(* ================================================================== *)
(** ** Loops that may stop early *)
(* ================================================================== *)

(** The results of [f] on the elements of [l] in turn, or [None] as soon
    as [f] gives [None] on one of them. *)
Fixpoint allOf {A B : Type} (f : A -> option B) (l : list A)
    : option (list B) :=
  match l with
  | [] => Some []
  | x :: rest =>
      match f x, allOf f rest with
      | Some y, Some ys => Some (y :: ys)
      | _, _ => None
      end
  end.

(* ================================================================== *)
(** ** JSON values *)
(* ================================================================== *)

Module Json.

(** What [JSON.parse] returns and [JSON.stringify] prints: the value of an
    imported file, and of the texts kept in [localStorage]. *)
#[warnings="-register-all"]
Inductive json : Type :=
| JNull
| JBool (b : bool)
| JNumber (q : Q)
| JString (s : jsstring)
| JArray (items : list json)
| JObject (members : list (jsstring * json)).

(** The result of a property read: [None] is [undefined]. *)
Definition value : Type := option json.

Definition truthyValue (v : value) : bool :=
  match v with
  | None | Some JNull => false
  | Some (JBool b) => b
  | Some (JNumber q) => negb (Qeq_bool q 0)
  | Some (JString s) => truthy s
  | Some (JArray _) | Some (JObject _) => true
  end.

(** [typeof v === 'object']. *)
Definition isObjectType (v : value) : bool :=
  match v with
  | Some JNull | Some (JArray _) | Some (JObject _) => true
  | _ => false
  end.

(** [typeof v === 'string'], [typeof v === 'number'], [Array.isArray(v)]. *)
Definition isString (v : value) : bool :=
  match v with Some (JString _) => true | _ => false end.
Definition isNumber (v : value) : bool :=
  match v with Some (JNumber _) => true | _ => false end.
Definition isArray (v : value) : bool :=
  match v with Some (JArray _) => true | _ => false end.

Fixpoint member (name : jsstring) (members : list (jsstring * json))
    : value :=
  match members with
  | [] => None
  | (k, v) :: rest => if JsString.eqb k name then Some v else member name rest
  end.

(** [v.name] for one of the property names this program reads from parsed
    data ([transactions], [settings], [categories], [budgetCap] and the
    seven fields of a transaction): none of them is a member of a built-in
    prototype, so the read finds an own member of an object or nothing.
    Reading a property of [null] throws a TypeError: [None]. *)
Definition field (v : json) (name : string) : option value :=
  match v with
  | JNull => None
  | JObject members => Some (member (js name) members)
  | _ => Some None
  end.

(** [v.name] once [v] is known not to be [null]. *)
Definition read (v : json) (name : string) : value :=
  match field v name with
  | Some x => x
  | None => None
  end.

End Json.
Export Json.

(* ================================================================== *)
(** ** validators.js: validateImportData *)
(* ================================================================== *)

Module ImportCheck.

Definition MSG_not_json : jsstring := js "File does not contain valid JSON data".
Definition MSG_no_list : jsstring := js "Missing transactions list in file".
Definition MSG_good : jsstring := js "Data looks good!".

(** How the checks of one element of the list end. *)
Inductive verdict : Type :=
| Passes
| Fails (problem : string)      (* a check returned its message *)
| ThrowsTypeError.              (* the element is [null] *)

(** [parts.join(',')]. *)
Fixpoint joinComma (parts : list jsstring) : jsstring :=
  match parts with
  | [] => []
  | [p] => p
  | p :: rest => (p ++ 44%N :: joinComma rest)%list
  end.

Section WithRuntime.
(** [String(n)] for a number, and the text of the TypeError raised by
    reading the property [id] of [null]. *)
Variable Number_toString : Q -> jsstring.
Variable nullReadMessage : jsstring.

(** [String(v)], as [RegExp.prototype.test] applies it to its argument:
    an array prints its elements separated by commas, [null] among them as
    nothing. *)
Fixpoint toText (v : json) : jsstring :=
  match v with
  | JNull => js "null"
  | JBool true => js "true"
  | JBool false => js "false"
  | JNumber q => Number_toString q
  | JString s => s
  | JArray items =>
      joinComma
        (List.map (fun item => match item with
                               | JNull => []
                               | _ => toText item
                               end) items)
  | JObject _ => js "[object Object]"
  end.

(** The body of the loop of [validateImportData] for the element [txn]. *)
Definition checkTransaction (txn : json) : verdict :=
  match txn with
  | JNull => ThrowsTypeError      (* reading [txn.id] throws *)
  | _ =>
      if negb (truthyValue (read txn "id")) || negb (isString (read txn "id"))
      then Fails ": missing or invalid id"
      else if negb (truthyValue (read txn "description"))
              || negb (isString (read txn "description"))
      then Fails ": missing description"
      else if negb (isNumber (read txn "amount"))
              || match read txn "amount" with
                 | Some (JNumber q) => JsNumber.ltb q 0
                 | _ => false
                 end
      then Fails ": invalid amount"
      else if negb (truthyValue (read txn "category"))
              || negb (isString (read txn "category"))
      then Fails ": missing category"
      else if negb (truthyValue (read txn "date"))
              || negb (match read txn "date" with
                       | Some d => test REGEX_date (toText d)
                       | None => false
                       end)
      then Fails ": invalid date format"
      else if negb (truthyValue (read txn "createdAt"))
              || negb (truthyValue (read txn "updatedAt"))
      then Fails ": missing timestamps"
      else Passes
  end.

(** The loop from index [i] on. *)
Fixpoint checkFrom (i : nat) (transactions : list json) : Validation :=
  match transactions with
  | [] => mkValidation true MSG_good
  | txn :: rest =>
      match checkTransaction txn with
      | Passes => checkFrom (S i) rest
      | Fails problem =>
          reject (js "Transaction " ++ decimal (Z.of_nat (i + 1))
                    ++ js problem)%list
      | ThrowsTypeError =>
          reject (js "Validation error: " ++ nullReadMessage)%list
      end
  end.

Definition validateImportData (data : json) : Validation :=
  if negb (truthyValue (Some data)) || negb (isObjectType (Some data))
  then reject MSG_not_json
  else
    let transactions := read data "transactions" in
    if negb (truthyValue transactions) || negb (isArray transactions)
    then reject MSG_no_list
    else match transactions with
         | Some (JArray items) => checkFrom 0 items
         | _ => reject MSG_no_list     (* not reached: it is an array *)
         end.

End WithRuntime.

End ImportCheck.

(* ================================================================== *)
(** ** storage.js *)
(* ================================================================== *)

Module Storage.

(** STORAGE_KEYS. *)
Definition KEY_TRANSACTIONS : jsstring := js "finance-tracker:transactions".
Definition KEY_SETTINGS : jsstring := js "finance-tracker:settings".
Definition KEY_CATEGORIES : jsstring := js "finance-tracker:categories".
Definition KEY_BUDGET_CAP : jsstring := js "finance-tracker:budget-cap".

Definition DEFAULT_CATEGORIES : list jsstring :=
  List.map js
    ["Food"; "Books"; "Transport"; "Entertainment"; "Fees"; "Other"]%string.

Definition DEFAULT_SETTINGS : json :=
  JObject
    [(js "baseCurrency", JString (js "USD"));
     (js "rates",
      JObject [(js "USD", JNumber 1); (js "EUR", JNumber (92 # 100));
               (js "GBP", JNumber (79 # 100))])].

(** [localStorage]: texts under keys. *)
Definition LocalStorage : Type := gmap (list N) jsstring.

(** What [loadCategories] returns: a new value built by [JSON.parse], or
    the array [DEFAULT_CATEGORIES] itself (the same object at every
    call). *)
Inductive loaded : Type :=
| Parsed (v : json)
| TheDefaultArray.

Section Runtime.
(** [JSON.parse] ([None]: it throws a SyntaxError), [JSON.stringify],
    whether a write would exceed the quota of the store (then [setItem]
    throws), and [String(n)] for a number. *)
Variable JSON_parse : jsstring -> option json.
Variable JSON_stringify : json -> jsstring.
Variable quotaExceeded : LocalStorage -> jsstring -> jsstring -> bool.
Variable Number_toString : Q -> jsstring.

Definition getItem (store : LocalStorage) (key : jsstring) : option jsstring :=
  store !! key.

(** [None]: the call throws. *)
Definition setItem (store : LocalStorage) (key value : jsstring)
    : option LocalStorage :=
  if quotaExceeded store key value then None
  else Some (<[key := value]> store).

Definition removeItem (store : LocalStorage) (key : jsstring) : LocalStorage :=
  delete key store.

(** The shared body of the loaders that parse: the saved text when there
    is one and it is not empty, parsed; [None] when nothing is saved or the
    text does not parse (the [catch] branch). *)
Definition parsedItem (store : LocalStorage) (key : jsstring) : option json :=
  match getItem store key with
  | Some saved => if truthy saved then JSON_parse saved else None
  | None => None
  end.

Definition loadTransactions (store : LocalStorage) : json :=
  match parsedItem store KEY_TRANSACTIONS with
  | Some v => v
  | None => JArray []
  end.

Definition loadSettings (store : LocalStorage) : json :=
  match parsedItem store KEY_SETTINGS with
  | Some v => v
  | None => DEFAULT_SETTINGS
  end.

Definition loadCategories (store : LocalStorage) : loaded :=
  match parsedItem store KEY_CATEGORIES with
  | Some v => Parsed v
  | None => TheDefaultArray
  end.

(** [loadBudgetCap], for a cap stored as an unsigned decimal
    [digits] or [digits.digits].  [None] is NaN, or a text beyond that
    shape (a sign, an exponent, a leading point or space, trailing
    text), which [parseFloat] of the validators' model does not read. *)
Definition loadBudgetCap (store : LocalStorage) : option Q :=
  match getItem store KEY_BUDGET_CAP with
  | Some saved => if truthy saved then parseFloat saved else Some 0%Q
  | None => Some 0%Q
  end.

(** The shared body of the savers: the new store and the value
    returned. *)
Definition saveItem (store : LocalStorage) (key text : jsstring)
    : LocalStorage * bool :=
  match setItem store key text with
  | Some store' => (store', true)
  | None => (store, false)       (* catch: console.error, return false *)
  end.

Definition saveTransactions (store : LocalStorage) (transactions : json)
    : LocalStorage * bool :=
  saveItem store KEY_TRANSACTIONS (JSON_stringify transactions).

Definition saveSettings (store : LocalStorage) (settings : json)
    : LocalStorage * bool :=
  saveItem store KEY_SETTINGS (JSON_stringify settings).

Definition saveCategories (store : LocalStorage) (categories : json)
    : LocalStorage * bool :=
  saveItem store KEY_CATEGORIES (JSON_stringify categories).

Definition saveBudgetCap (store : LocalStorage) (cap : Q)
    : LocalStorage * bool :=
  saveItem store KEY_BUDGET_CAP (Number_toString cap).

Definition clearAllData (store : LocalStorage) : LocalStorage * bool :=
  (removeItem
     (removeItem
        (removeItem (removeItem store KEY_TRANSACTIONS) KEY_SETTINGS)
        KEY_CATEGORIES)
     KEY_BUDGET_CAP,
   true).

(** The object returned by [importData]. *)
Record ImportResult : Type := mkImportResult {
  success : bool;
  importMessage : jsstring
}.

Definition importData (store : LocalStorage) (data : json)
    : LocalStorage * ImportResult :=
  if negb (truthyValue (Some data)) || negb (isObjectType (Some data))
  then (store, mkImportResult false (js "Invalid data format"))
  else
    let store1 :=
      if truthyValue (read data "transactions")
         && isArray (read data "transactions")
      then match read data "transactions" with
           | Some transactions => fst (saveTransactions store transactions)
           | None => store
           end
      else store in
    let store2 :=
      if truthyValue (read data "settings")
         && isObjectType (read data "settings")
      then match read data "settings" with
           | Some settings => fst (saveSettings store1 settings)
           | None => store1
           end
      else store1 in
    let store3 :=
      if truthyValue (read data "categories")
         && isArray (read data "categories")
      then match read data "categories" with
           | Some categories => fst (saveCategories store2 categories)
           | None => store2
           end
      else store2 in
    let store4 :=
      match read data "budgetCap" with
      | Some (JNumber cap) => fst (saveBudgetCap store3 cap)
      | _ => store3           (* typeof is not 'number' *)
      end in
    (store4, mkImportResult true (js "Data imported successfully")).

End Runtime.

End Storage.

(* ================================================================== *)
(** ** state.js: the state and its changes *)
(* ================================================================== *)

Module Tracker.

(** The application with its store.  [state.transactions] is held as the
    sequence of its records.  [state.categories] is a reference into
    [arrays]: the array [DEFAULT_CATEGORIES] of storage.js is one object,
    at [defaultCategories], and [loadCategories] hands out that very
    object when nothing is saved.  [state.settings] and
    [state.currentFilter] play no part in the functions below and are left
    out. *)
Record World : Type := mkWorld {
  localStorage : Storage.LocalStorage;
  arrays : gmap nat (list jsstring);
  transactions : list Transaction;
  categories : nat;
  budgetCap : Q;
  editingId : option jsstring
}.

Definition defaultCategories : nat := 0.

(** The part of the state read by the statistics. *)
Definition appState (w : World) : AppState :=
  mkAppState (transactions w) (budgetCap w).

(** *** Records as JSON values *)

Definition toJson (t : Transaction) : json :=
  JObject
    [(js "id", JString (id t));
     (js "description", JString (description t));
     (js "amount", JNumber (amount t));
     (js "category", JString (category t));
     (js "date", JString (date t));
     (js "createdAt", JString (createdAt t));
     (js "updatedAt", JString (updatedAt t))].

(** A parsed value read as a record: the objects the application itself
    writes, with the seven members in the order [addTransaction] creates
    them.  Any other value gives [None]: the state it would make is
    outside this model. *)
Definition fromJson (v : json) : option Transaction :=
  match v with
  | JObject
      [(k1, JString i); (k2, JString d); (k3, JNumber a); (k4, JString c);
       (k5, JString dt); (k6, JString cr); (k7, JString up)] =>
      if JsString.eqb k1 (js "id") && JsString.eqb k2 (js "description")
         && JsString.eqb k3 (js "amount") && JsString.eqb k4 (js "category")
         && JsString.eqb k5 (js "date") && JsString.eqb k6 (js "createdAt")
         && JsString.eqb k7 (js "updatedAt")
      then Some (mkTransaction i d a c dt cr up)
      else None
  | _ => None
  end.

Definition transactionsOf (v : json) : option (list Transaction) :=
  match v with
  | JArray items => allOf fromJson items
  | _ => None
  end.

Definition stringsOf (v : json) : option (list jsstring) :=
  match v with
  | JArray items =>
      allOf (fun item => match item with
                         | JString s => Some s
                         | _ => None
                         end) items
  | _ => None
  end.

Definition transactionsJson (l : list Transaction) : json :=
  JArray (List.map toJson l).

Definition stringsJson (l : list jsstring) : json :=
  JArray (List.map JString l).

Section Runtime.
Variable JSON_parse : jsstring -> option json.
Variable JSON_stringify : json -> jsstring.
Variable quotaExceeded : Storage.LocalStorage -> jsstring -> jsstring -> bool.
Variable Number_toString : Q -> jsstring.

Definition saveTransactions (w : World) (l : list Transaction)
    : Storage.LocalStorage :=
  fst (Storage.saveTransactions JSON_stringify quotaExceeded
         (localStorage w) (transactionsJson l)).

Definition saveCategories (w : World) (l : list jsstring)
    : Storage.LocalStorage :=
  fst (Storage.saveCategories JSON_stringify quotaExceeded
         (localStorage w) (stringsJson l)).

(** The array behind [state.categories]. *)
Definition categoryList (w : World) : list jsstring :=
  default [] (arrays w !! categories w).

(** The value of [loadCategories()] as a reference: the default array
    itself, or a new array holding what was parsed.  [None]: the parsed
    value is not an array of strings. *)
Definition loadCategoriesRef (w : World)
    : option (gmap nat (list jsstring) * nat) :=
  match Storage.loadCategories JSON_parse (localStorage w) with
  | Storage.TheDefaultArray => Some (arrays w, defaultCategories)
  | Storage.Parsed v =>
      match stringsOf v with
      | Some l =>
          let r := fresh (dom (arrays w)) in
          Some (<[r := l]> (arrays w), r)
      | None => None
      end
  end.

(** [initializeState].  [None]: the transactions or the categories
    stored are not of the shapes the application writes, or the cap
    stored is a text that [loadBudgetCap] does not read. *)
Definition initializeState (w : World) : option World :=
  match transactionsOf (Storage.loadTransactions JSON_parse (localStorage w)),
        loadCategoriesRef w,
        Storage.loadBudgetCap (localStorage w) with
  | Some l, Some (arrays', r), Some cap =>
      Some (mkWorld (localStorage w) arrays' l r cap (editingId w))
  | _, _, _ => None
  end.

(** The argument of [parseFloat(formData.amount)] as text. *)
Definition amountArgument (v : Form.amountValue) : jsstring :=
  match v with
  | Form.AmountString s => s
  | Form.AmountNumber q => Number_toString q
  | Form.AmountUndefined => js "undefined"
  end.

(** [addTransaction(formData)], given the identifier [generateId()]
    returns and the text of [new Date().toISOString()].  The result is the
    new state and the record returned.  [None]: the amount text is not one
    [parseFloat] of the validators' model reads. *)
Definition addTransaction (generatedId now : jsstring)
    (formData : Form.FormData) (w : World) : option (World * Transaction) :=
  match parseFloat (amountArgument (Form.amount formData)) with
  | Some number =>
      let newTransaction :=
        mkTransaction generatedId (trim (Form.description formData)) number
          (Form.category formData) (Form.date formData) now now in
      let l := newTransaction :: transactions w in
      Some (mkWorld (saveTransactions w l) (arrays w) l (categories w)
              (budgetCap w) (editingId w),
            newTransaction)
  | None => None
  end.

(** The index of the first record with the identifier, as both loops of
    state.js look for it. *)
Fixpoint findIndex (wanted : jsstring) (l : list Transaction) : option nat :=
  match l with
  | [] => None
  | t :: rest =>
      if JsString.eqb (id t) wanted then Some 0
      else option_map S (findIndex wanted rest)
  end.

(** [updateTransaction(id, formData)]: the new state and the record
    returned ([None] inside: [null]). *)
Definition updateTransaction (wanted now : jsstring)
    (formData : Form.FormData) (w : World)
    : option (World * option Transaction) :=
  match findIndex wanted (transactions w) with
  | None => Some (w, None)
  | Some foundIndex =>
      match transactions w !! foundIndex,
            parseFloat (amountArgument (Form.amount formData)) with
      | Some original, Some number =>
          let updated :=
            mkTransaction (id original) (trim (Form.description formData))
              number (Form.category formData) (Form.date formData)
              (createdAt original) now in
          let l := <[foundIndex := updated]> (transactions w) in
          Some (mkWorld (saveTransactions w l) (arrays w) l (categories w)
                  (budgetCap w) (editingId w),
                Some updated)
      | _, _ => None
      end
  end.

(** [deleteTransaction(id)]. *)
Definition deleteTransaction (wanted : jsstring) (w : World) : World * bool :=
  match findIndex wanted (transactions w) with
  | None => (w, false)
  | Some foundIndex =>
      let l := delete foundIndex (transactions w) in
      (mkWorld (saveTransactions w l) (arrays w) l (categories w)
         (budgetCap w) (editingId w),
       true)
  end.

(** [getTransaction(id)]: [None] is [null]. *)
Fixpoint getFrom (wanted : jsstring) (l : list Transaction)
    : option Transaction :=
  match l with
  | [] => None
  | t :: rest => if JsString.eqb (id t) wanted then Some t
                 else getFrom wanted rest
  end.

Definition getTransaction (wanted : jsstring) (w : World)
    : option Transaction :=
  getFrom wanted (transactions w).

Definition getTransactions (w : World) : list Transaction := transactions w.

(** [addCategory(name)]: [push] changes the array [state.categories]
    refers to, in place. *)
Definition addCategory (name : jsstring) (w : World) : World * bool :=
  let trimmedName := trim name in
  if negb (truthy trimmedName) then (w, false)
  else if List.existsb (JsString.eqb trimmedName) (categoryList w)
  then (w, false)
  else
    let l := (categoryList w ++ [trimmedName])%list in
    (mkWorld (saveCategories w l) (<[categories w := l]> (arrays w))
       (transactions w) (categories w) (budgetCap w) (editingId w),
     true).

(** [indexOf]: the index of the first element equal to [name]. *)
Fixpoint indexOf (name : jsstring) (l : list jsstring) : option nat :=
  match l with
  | [] => None
  | x :: rest =>
      if JsString.eqb x name then Some 0 else option_map S (indexOf name rest)
  end.

(** [removeCategory(name)]: [splice] changes the array in place. *)
Definition removeCategory (name : jsstring) (w : World) : World * bool :=
  match indexOf name (categoryList w) with
  | None => (w, false)
  | Some index =>
      let l := delete index (categoryList w) in
      (mkWorld (saveCategories w l) (<[categories w := l]> (arrays w))
         (transactions w) (categories w) (budgetCap w) (editingId w),
       true)
  end.

Definition setBudgetCap (amount : Q) (w : World) : World :=
  mkWorld
    (fst (Storage.saveBudgetCap quotaExceeded Number_toString
            (localStorage w) amount))
    (arrays w) (transactions w) (categories w) amount (editingId w).

(** [clearAllData]: the categories are loaded before the store is
    emptied. *)
Definition clearAllData (w : World) : option World :=
  match loadCategoriesRef w with
  | Some (arrays', r) =>
      Some (mkWorld (fst (Storage.clearAllData (localStorage w))) arrays' []
              r 0%Q None)
  | None => None
  end.

(** [importData(data)]. *)
Definition importData (data : json) (w : World)
    : option (World * Storage.ImportResult) :=
  let (store, result) :=
    Storage.importData JSON_stringify quotaExceeded Number_toString
      (localStorage w) data in
  let w' := mkWorld store (arrays w) (transactions w) (categories w)
              (budgetCap w) (editingId w) in
  if Storage.success result then
    match initializeState w' with
    | Some w'' => Some (w'', result)
    | None => None
    end
  else Some (w', result).

End Runtime.

End Tracker.

(* ================================================================== *)
(** ** ui.js: the handlers that change the data *)
(* ================================================================== *)

Module Ui.
Import Tracker.


(** How [handleAddCategory] ends. *)
Inductive CategoryAdded : Type :=
| CategoryError (text : jsstring)
| CategoryListed (w : World).

Section Runtime.
Variable JSON_stringify : json -> jsstring.
Variable quotaExceeded : Storage.LocalStorage -> jsstring -> jsstring -> bool.
Variable Number_toString : Q -> jsstring.


(** [handleAddCategory] on the text of the input; the drawing of the
    list that follows is left out. *)
Definition handleAddCategory (input : jsstring) (w : World) : CategoryAdded :=
  let value := trim input in
  let validation := validateCategory value in
  if negb (valid validation) then CategoryError (message validation)
  else if List.existsb (JsString.eqb value) (categoryList w)
  then CategoryError (js "That category already exists")
  else CategoryListed (fst (addCategory JSON_stringify quotaExceeded value w)).

End Runtime.

End Ui.

(* ================================================================== *)
(** ** ui.js: the figures of the charts *)
(* ================================================================== *)

Module Charts.

(** The result of a division of numbers: a number, NaN, or an infinity. *)
Inductive quotient : Type :=
| Finite (q : Q)
| NotANumber
| Infinite (negative : bool).

(** A property value as a number: the text made by adding a number to an
    inherited function is NaN. *)
Definition numberOf (v : propval) : option Q :=
  match v with
  | PNum q => Some q
  | PJunk => None
  end.

(** [a / b] for [a] and [b] that are numbers or NaN; the zero of the
    divisor is the positive one. *)
Definition divide (a b : option Q) : quotient :=
  match a, b with
  | Some x, Some y =>
      if Qeq_bool y 0 then
        if Qeq_bool x 0 then NotANumber else Infinite (JsNumber.ltb x 0)
      else Finite (x / y)
  | _, _ => NotANumber
  end.

Definition times (r : quotient) (k : Q) : quotient :=
  match r with
  | Finite q => Finite (q * k)
  | _ => r
  end.



(** [Object.entries(o)]: the own properties in the order of
    [Object.keys]. *)
Definition Object_entries (o : JsObject) : list (jsstring * propval) :=
  List.flat_map
    (fun k => match getOwn o k with
              | Some v => [(k, v)]
              | None => []
              end)
    (Object_keys o).


(** *** renderTrendChart *)




(** *** renderCategoryBreakdown *)

(** One row of the breakdown: the category, its total and the width of
    its bar in percent. *)
Record Row : Type := mkRow {
  rowCategory : jsstring;
  rowAmount : Q;
  widthPct : quotient
}.

(** How [renderCategoryBreakdown] ends. *)
Inductive Breakdown : Type :=
| NoDataYet                         (* the text [No data yet.] is shown *)
| Rows (rows : list Row)
| ToFixedThrows.                    (* a total is not a number: TypeError *)

(** The comparison function [b[1] - a[1]]. *)
Definition byTotalDescending (a b : jsstring * propval) : option Q :=
  match numberOf (snd b), numberOf (snd a) with
  | Some y, Some x => Some (y - x)%Q
  | _, _ => None
  end.

(** The totals per category are added up by the same loop as in
    [calculateStats]. *)
Definition renderCategoryBreakdown (transactions : list Transaction)
    : Breakdown :=
  let sorted :=
    arraySort byTotalDescending (Object_entries (categoryTotals transactions)) in
  match sorted with
  | [] => NoDataYet
  | (_, topAmount) :: _ =>
      match allOf
              (fun entry =>
                 match snd entry with
                 | PNum amount =>
                     Some (mkRow (fst entry) amount
                             (times (divide (Some amount) (numberOf topAmount))
                                100))
                 | PJunk => None
                 end)
              sorted with
      | Some rows => Rows rows
      | None => ToFixedThrows
      end
  end.

(** *** renderMonthlyTrend: the month a transaction is counted in *)

(** [String(n)] for an integer. *)
Definition integerText (n : Z) : jsstring :=
  if (n <? 0)%Z then (45%N :: decimal (- n))%list else decimal n.

(** The local year and month (1 to 12) of [new Date(text)], where [tza] is
    the offset of local time from UTC; [None] for an invalid date. *)
Definition monthOf (tza : Z) (text : jsstring) : option (Z * Z) :=
  match Date_parse text with
  | Some t =>
      let local := (t + tza)%Z in
      Some (YearFromTime local, (MonthFromTime local + 1)%Z)
  | None => None
  end.

(** [year + '-' + String(month).padStart(2, '0')]. *)
Definition monthKey (tza : Z) (text : jsstring) : jsstring :=
  match monthOf tza text with
  | Some (year, month) =>
      (integerText year ++ [45%N] ++ padStart 2 (integerText month))%list
  | None => js "NaN-NaN"
  end.

End Charts.

(* ================================================================== *)
(** ** theme.js *)
(* ================================================================== *)

Module Theme.

Definition THEME_KEY : jsstring := js "finance-tracker:theme".
Definition DEFAULT_THEME : jsstring := js "light".

(** The page as theme.js sees it: the [data-theme] attribute of the root
    element and the [aria-pressed] attributes of the two buttons ([None]:
    the attribute is absent). *)
Record Page : Type := mkPage {
  dataTheme : option jsstring;
  hasButtons : bool;              (* both toggle buttons are in the page *)
  lightPressed : option jsstring;
  darkPressed : option jsstring
}.

Definition boolText (b : bool) : jsstring := if b then js "true" else js "false".

Definition updateButtonStates (theme : jsstring) (page : Page) : Page :=
  if hasButtons page then
    let isLight := JsString.eqb theme (js "light") in
    mkPage (dataTheme page) true (Some (boolText isLight))
      (Some (boolText (negb isLight)))
  else page.

(** How [setTheme] ends. *)
Inductive Applied : Type :=
| Done (store : Storage.LocalStorage) (page : Page)
| Threw (page : Page).

Section Runtime.
Variable quotaExceeded : Storage.LocalStorage -> jsstring -> jsstring -> bool.

(** [setTheme(theme)].  [localStorage.setItem] may throw, and nothing
    catches it: the attribute of the root element is changed by then, the
    buttons are not. *)
Definition setTheme (theme : jsstring) (store : Storage.LocalStorage)
    (page : Page) : Applied :=
  let page1 :=
    if JsString.eqb theme (js "dark")
    then mkPage (Some (js "dark")) (hasButtons page) (lightPressed page)
           (darkPressed page)
    else mkPage None (hasButtons page) (lightPressed page) (darkPressed page) in
  match Storage.setItem quotaExceeded store THEME_KEY theme with
  | Some store' => Done store' (updateButtonStates theme page1)
  | None => Threw page1
  end.

(** [initTheme], without the wiring of the buttons. *)
Definition initTheme (store : Storage.LocalStorage) (page : Page) : Applied :=
  let savedTheme :=
    match Storage.getItem store THEME_KEY with
    | Some saved => if truthy saved then saved else DEFAULT_THEME
    | None => DEFAULT_THEME
    end in
  setTheme savedTheme store page.

End Runtime.

Definition getTheme (page : Page) : jsstring :=
  match dataTheme page with
  | Some current => if truthy current then current else js "light"
  | None => js "light"
  end.

End Theme.

(* ================================================================== *)
(** ** A JSON printer and reader for the worked examples *)
(* ================================================================== *)

(** The theorems below hold for every [JSON.parse], [JSON.stringify] and
    quota; the examples need one of each to run.  The printer and the
    reader here cover the texts the application writes: numbers are read
    in plain decimal notation (no exponent) and printed by
    [Host.Number_toString], lone surrogates are printed as they are. *)

Module HostJson.

Definition hexDigit (n : N) : N :=
  if N.ltb n 10 then (n + 48)%N else (n + 87)%N.

(** QuoteJSONString, one code unit. *)
Definition quoteChar (c : N) : jsstring :=
  if N.eqb c 34 then [92; 34]%N
  else if N.eqb c 92 then [92; 92]%N
  else if N.eqb c 10 then [92; 110]%N
  else if N.eqb c 13 then [92; 114]%N
  else if N.eqb c 9 then [92; 116]%N
  else if N.eqb c 8 then [92; 98]%N
  else if N.eqb c 12 then [92; 102]%N
  else if N.ltb c 32
       then [92; 117; 48; 48; hexDigit (c / 16); hexDigit (c mod 16)]%N
  else [c].

Definition quote (s : jsstring) : jsstring :=
  (34%N :: List.flat_map quoteChar s ++ [34%N])%list.

(** [JSON.stringify(v)]. *)
Fixpoint JSON_stringify (v : json) : jsstring :=
  match v with
  | JNull => js "null"
  | JBool true => js "true"
  | JBool false => js "false"
  | JNumber q => Host.Number_toString q
  | JString s => quote s
  | JArray items =>
      (91%N :: ImportCheck.joinComma (List.map JSON_stringify items)
         ++ [93%N])%list
  | JObject members =>
      (123%N
         :: ImportCheck.joinComma
              (List.map (fun member =>
                           let '(k, x) := member in
                           (quote k ++ 58%N :: JSON_stringify x)%list)
                 members)
         ++ [125%N])%list
  end.

Fixpoint skipSpace (s : jsstring) : jsstring :=
  match s with
  | c :: s' =>
      if N.eqb c 32 || N.eqb c 9 || N.eqb c 10 || N.eqb c 13
      then skipSpace s' else s
  | [] => []
  end.

Definition hexValue (c : N) : option N :=
  if isDigit c then Some (c - 48)%N
  else if inRange 97 102 c then Some (c - 87)%N
  else if inRange 65 70 c then Some (c - 55)%N
  else None.

(** The characters of a string literal after its opening quote, and the
    text behind its closing quote. *)
Fixpoint readString (s acc : jsstring) : option (jsstring * jsstring) :=
  match s with
  | [] => None
  | c :: s' =>
      if N.eqb c 34 then Some (List.rev acc, s')
      else if N.ltb c 32 then None
      else if N.eqb c 92 then
        match s' with
        | e :: s'' =>
            if N.eqb e 117 then
              match s'' with
              | h1 :: h2 :: h3 :: h4 :: rest =>
                  match hexValue h1, hexValue h2, hexValue h3, hexValue h4 with
                  | Some a, Some b, Some c', Some d =>
                      readString rest
                        ((((a * 16 + b) * 16 + c') * 16 + d)%N :: acc)
                  | _, _, _, _ => None
                  end
              | _ => None
              end
            else
              match (if N.eqb e 34 then Some 34
                     else if N.eqb e 92 then Some 92
                     else if N.eqb e 47 then Some 47
                     else if N.eqb e 110 then Some 10
                     else if N.eqb e 114 then Some 13
                     else if N.eqb e 116 then Some 9
                     else if N.eqb e 98 then Some 8
                     else if N.eqb e 102 then Some 12
                     else None)%N with
              | Some x => readString s'' (x :: acc)
              | None => None
              end
        | [] => None
        end
      else readString s' (c :: acc)
  end.

(** A run of digits and the text behind it. *)
Fixpoint readDigits (s acc : jsstring) : jsstring * jsstring :=
  match s with
  | c :: s' => if isDigit c then readDigits s' (c :: acc) else (List.rev acc, s)
  | [] => (List.rev acc, [])
  end.

(** A number without exponent: an optional minus, digits, an optional
    fraction. *)
Definition readNumber (s : jsstring) : option (Q * jsstring) :=
  let (negative, s1) :=
    match s with
    | c :: s' => if N.eqb c 45 then (true, s') else (false, s)
    | [] => (false, s)
    end in
  let (whole, s2) := readDigits s1 [] in
  let leadingZero :=
    match whole with
    | c :: _ :: _ => N.eqb c 48
    | _ => false
    end in
  match digitsValue 0 whole, whole with
  | Some i, _ :: _ =>
      if leadingZero then None
      else
        let '(pointSeen, fraction, s3) :=
          match s2 with
          | c :: s' =>
              if N.eqb c 46
              then let (digits, r) := readDigits s' [] in (true, digits, r)
              else (false, [], s2)
          | [] => (false, [], s2)
          end in
        let exponentNext :=
          match s3 with
          | c :: _ => N.eqb c 101 || N.eqb c 69
          | [] => false
          end in
        match digitsValue 0 fraction with
        | Some f =>
            if (pointSeen && JsString.eqb fraction []) || exponentNext
            then None
            else
              let magnitude :=
                (inject_Z i
                 + inject_Z f
                   / inject_Z (10 ^ Z.of_nat (List.length fraction)))%Q in
              Some (Qred (if negative then - magnitude else magnitude)%Q, s3)
        | None => None
        end
  | _, _ => None
  end.

Definition startsWith (p s : jsstring) : option jsstring :=
  if JsString.eqb (List.firstn (List.length p) s) p
  then Some (List.skipn (List.length p) s) else None.

(** A member read after [acc] (the members so far, last first): a key
    met again keeps its place and takes the new value. *)
Definition putMember (k : jsstring) (v : json)
    (acc : list (jsstring * json)) : list (jsstring * json) :=
  if List.existsb (fun m => JsString.eqb (fst m) k) acc
  then List.map (fun m => if JsString.eqb (fst m) k then (fst m, v) else m) acc
  else (k, v) :: acc.

(** A value and the text behind it. *)
Fixpoint readValue (fuel : nat) (s : jsstring) : option (json * jsstring) :=
  match fuel with
  | O => None
  | S fuel' =>
      match skipSpace s with
      | [] => None
      | c :: rest =>
          if N.eqb c 34 then
            match readString rest [] with
            | Some (text, r) => Some (JString text, r)
            | None => None
            end
          else if N.eqb c 91 then
            match skipSpace rest with
            | c2 :: r2 =>
                if N.eqb c2 93 then Some (JArray [], r2)
                else readItems fuel' rest []
            | [] => None
            end
          else if N.eqb c 123 then
            match skipSpace rest with
            | c2 :: r2 =>
                if N.eqb c2 125 then Some (JObject [], r2)
                else readMembers fuel' rest []
            | [] => None
            end
          else if N.eqb c 45 || isDigit c then
            match readNumber (c :: rest) with
            | Some (q, r) => Some (JNumber q, r)
            | None => None
            end
          else
            match startsWith (js "null") (c :: rest),
                  startsWith (js "true") (c :: rest),
                  startsWith (js "false") (c :: rest) with
            | Some r, _, _ => Some (JNull, r)
            | _, Some r, _ => Some (JBool true, r)
            | _, _, Some r => Some (JBool false, r)
            | _, _, _ => None
            end
      end
  end
with readItems (fuel : nat) (s : jsstring) (acc : list json)
    : option (json * jsstring) :=
  match fuel with
  | O => None
  | S fuel' =>
      match readValue fuel' s with
      | Some (v, r) =>
          match skipSpace r with
          | c :: r' =>
              if N.eqb c 44 then readItems fuel' r' (v :: acc)
              else if N.eqb c 93 then Some (JArray (List.rev (v :: acc)), r')
              else None
          | [] => None
          end
      | None => None
      end
  end
with readMembers (fuel : nat) (s : jsstring) (acc : list (jsstring * json))
    : option (json * jsstring) :=
  match fuel with
  | O => None
  | S fuel' =>
      match skipSpace s with
      | q :: s1 =>
          if N.eqb q 34 then
            match readString s1 [] with
            | Some (k, s2) =>
                match skipSpace s2 with
                | colon :: s3 =>
                    if N.eqb colon 58 then
                      match readValue fuel' s3 with
                      | Some (v, r) =>
                          match skipSpace r with
                          | c :: r' =>
                              if N.eqb c 44
                              then readMembers fuel' r' (putMember k v acc)
                              else if N.eqb c 125
                              then Some (JObject
                                           (List.rev (putMember k v acc)), r')
                              else None
                          | [] => None
                          end
                      | None => None
                      end
                    else None
                | [] => None
                end
            | None => None
            end
          else None
      | [] => None
      end
  end.

(** [JSON.parse(text)]; [None]: a SyntaxError. *)
Definition JSON_parse (text : jsstring) : option json :=
  match readValue (List.length text + 1) text with
  | Some (v, r) => match skipSpace r with [] => Some v | _ => None end
  | None => None
  end.

(** A store that never runs out of room. *)
Definition noQuota (store : Storage.LocalStorage) (key value : jsstring)
    : bool := false.

End HostJson.

(* ================================================================== *)
(** ** Definitions used by the further statements *)
(* ================================================================== *)

(** The comparison functions of the keys [amount-asc] and
    [amount-desc]: [a.amount - b.amount] and [b.amount - a.amount]. *)
Definition amountAsc (a b : Transaction) : option Q :=
  Some (amount a - amount b)%Q.

Definition amountDesc (a b : Transaction) : option Q :=
  Some (amount b - amount a)%Q.

(** The records whose amount is [q]. *)
Definition sameAmount (q : Q) (t : Transaction) : bool := Qeq_bool (amount t) q.

(** Does [s] begin with [p]? *)
Fixpoint startsWith (p s : jsstring) : bool :=
  match p, s with
  | [], _ => true
  | a :: p', b :: s' => N.eqb a b && startsWith p' s'
  | _ :: _, [] => false
  end.

(** The text left when every opening and closing [mark] tag is taken out;
    [skip] counts the characters of a tag still to be dropped. *)
Fixpoint unmarkFrom (skip : nat) (s : jsstring) : jsstring :=
  match s with
  | [] => []
  | c :: s' =>
      match skip with
      | S k => unmarkFrom k s'
      | O =>
          if startsWith (js "<mark>") s then unmarkFrom 5 s'
          else if startsWith (js "</mark>") s then unmarkFrom 6 s'
          else c :: unmarkFrom 0 s'
      end
  end.

(** The text without its [mark] tags. *)
Definition unmark (s : jsstring) : jsstring := unmarkFrom 0 s.

(** No character of the string opens or closes a tag. *)
Definition noAngle (s : jsstring) : bool :=
  List.forallb (fun c => negb (N.eqb c 60) && negb (N.eqb c 62)) s.

(** A matcher that succeeds has called its continuation, on a state that
    is not before the one it was given and not beyond the end of the
    input. *)
Definition progresses (Input : jsstring) (m : Matcher) : Prop :=
  forall x c z,
    m x c = Some z ->
    exists y, endIndex x <= endIndex y
              /\ (endIndex x <= List.length Input ->
                  endIndex y <= List.length Input)
              /\ c y = Some z.

(** Repetition of a character set between [min] and [max] times from
    index [i], where the rest of the input is [suffix]: can the continuation
    succeed after an allowed number of characters of the set? *)
Fixpoint reachN (p : N -> bool) (c : nat -> bool) (suffix : jsstring)
    (i min : nat) (max : option nat) : bool :=
  match max with
  | Some O => c i
  | _ =>
      let more :=
        match suffix with
        | ch :: rest =>
            p ch && reachN p c rest (S i) (Nat.pred min)
                      (option_map Nat.pred max)
        | [] => false
        end in
      if Nat.eqb min 0 then more || c i else more
  end.

(** What may follow the whole part of an amount: nothing, or a point and
    one or two digits. *)
Definition fractionShape (s : jsstring) : bool :=
  match s with
  | [] => true
  | [p; d1] => N.eqb p 46 && isDigit d1
  | [p; d1; d2] => N.eqb p 46 && isDigit d1 && isDigit d2
  | _ => false
  end.

(** Digits, then the fraction. *)
Fixpoint digitsThenFraction (s : jsstring) : bool :=
  fractionShape s
  || match s with
     | c :: s' => isDigit c && digitsThenFraction s'
     | [] => false
     end.

(** The shape the amount pattern describes: [0] or a run of digits that
    does not begin with 0, then the fraction. *)
Definition amountShape (v : jsstring) : bool :=
  match v with
  | [] => false
  | c :: rest =>
      (N.eqb c 48 && fractionShape rest)
      || (inRange 49 57 c && digitsThenFraction rest)
  end.

(** The end of the amount pattern: the optional fraction group and the
    end anchor. *)
Definition amountTail : regex :=
  Seq (Quant (Group 2 (Seq (Char 46) (Quant (Class false [CDigit]) 1 (Some 2) true)))
         0 (Some 1) true) AssertEnd.

(** A letter A to Z or a to z; a space or a hyphen. *)
Definition isLetter (c : N) : bool := isUpper c || isLower c.

Definition isSeparator (c : N) : bool := N.eqb 32 c || N.eqb 45 c.

(** Words of letters with one space or hyphen between neighbours;
    [afterLetter] tells whether the character before was a letter. *)
Fixpoint wordsFrom (afterLetter : bool) (s : jsstring) : bool :=
  match s with
  | [] => afterLetter
  | c :: s' =>
      (isLetter c && wordsFrom true s')
      || (afterLetter && isSeparator c && wordsFrom false s')
  end.

(** The shape the category pattern describes. *)
Definition categoryShape (v : jsstring) : bool := wordsFrom false v.

(** What may follow a word: nothing, or a separator and further
    words. *)
Definition afterWord (s : jsstring) : bool :=
  match s with
  | [] => true
  | c :: s' => isSeparator c && wordsFrom false s'
  end.

(** The repeated group of the category pattern: a separator and a
    word. *)
Definition categoryBody : regex :=
  Seq (Class false [CChar 32; CChar 45])
      (Quant (Class false [CRange 65 90; CRange 97 122]) 1 None true).



Section RecordStatements.
Import Tracker.

(** What [saveTransactions] leaves in the store: the text of the
    sequence, unless the write exceeds the quota; then the store is as it
    was. *)
Definition stored (JSON_stringify : json -> jsstring)
    (quotaExceeded : Storage.LocalStorage -> jsstring -> jsstring -> bool)
    (w : World) (l : list Transaction) (store : Storage.LocalStorage)
    : Prop :=
  let text := JSON_stringify (transactionsJson l) in
  if quotaExceeded (localStorage w) Storage.KEY_TRANSACTIONS text
  then store = localStorage w
  else store = <[Storage.KEY_TRANSACTIONS := text]> (localStorage w).

(** The record [updateTransaction] puts in the place of [original]. *)
Definition updatedRecord (original : Transaction) (formData : Form.FormData)
    (number : Q) (now : jsstring) : Transaction :=
  mkTransaction (id original) (trim (Form.description formData)) number
    (Form.category formData) (Form.date formData) (createdAt original) now.

End RecordStatements.

Section CategoryStatements.
Import Tracker.

(** The page as it is loaded with nothing saved: an empty store, the
    default array in place, [state.categories] an empty array of its
    own. *)
Definition freshWorld : World :=
  mkWorld ∅ {[ defaultCategories := Storage.DEFAULT_CATEGORIES; 1 := [] ]}
    [] 1 0%Q None.

(** The categories the state shows after: start with nothing saved, add
    the category [Pets], clear all data, clear all data again. *)
Definition clearedTwice : option (list jsstring) :=
  match initializeState HostJson.JSON_parse freshWorld with
  | Some w1 =>
      let w2 := fst (addCategory HostJson.JSON_stringify HostJson.noQuota
                       (js "Pets") w1) in
      match clearAllData HostJson.JSON_parse w2 with
      | Some w3 =>
          match clearAllData HostJson.JSON_parse w3 with
          | Some w4 => Some (categoryList w4)
          | None => None
          end
      | None => None
      end
  | None => None
  end.

(** The first element equal to [x] taken out. *)
Fixpoint removeFirst (x : jsstring) (l : list jsstring) : list jsstring :=
  match l with
  | [] => []
  | y :: rest => if JsString.eqb y x then rest else y :: removeFirst x rest
  end.

(** The four keys of storage.js. *)
Definition storageKeys : list jsstring :=
  [Storage.KEY_TRANSACTIONS; Storage.KEY_SETTINGS; Storage.KEY_CATEGORIES;
   Storage.KEY_BUDGET_CAP].

End CategoryStatements.

Section ImportStatements.
Import Tracker.

(** What [validateImportData] asks of a record: the texts are not empty,
    the amount is not negative, the date has the form of the date
    pattern. *)
Definition importable (t : Transaction) : bool :=
  truthy (id t) && truthy (description t)
  && negb (JsNumber.ltb (amount t) 0)
  && truthy (category t) && isoDateShape (date t)
  && truthy (createdAt t) && truthy (updatedAt t).

(** The check that fails first for a record that is not importable. *)
Definition firstProblem (t : Transaction) : string :=
  if negb (truthy (id t)) then ": missing or invalid id"
  else if negb (truthy (description t)) then ": missing description"
  else if JsNumber.ltb (amount t) 0 then ": invalid amount"
  else if negb (truthy (category t)) then ": missing category"
  else if negb (isoDateShape (date t)) then ": invalid date format"
  else ": missing timestamps".

(** A file with the records [l] under [transactions], and other members
    behind. *)
Definition fileOf (l : list Transaction) (others : list (jsstring * json))
    : json :=
  JObject ((js "transactions", transactionsJson l) :: others).

(** A record dated 30 February. *)
Definition thirtiethOfFebruary : Transaction :=
  mkTransaction (js "txn_1") (js " Lunch") 10 (js "123") (js "2025-02-30")
    (js "x") (js "y").

End ImportStatements.

(** A value [importData] accepts as a file: an array or an object. *)
Definition isContainer (data : json) : bool :=
  match data with
  | JArray _ | JObject _ => true
  | _ => false
  end.

Section ReloadStatements.
Import Tracker.

(** The state after a change of the transactions of [w] into [l]: the
    sequence is [l], the store is what [saveTransactions] leaves, the rest
    is as in [w].  [addTransaction], [updateTransaction] and
    [deleteTransaction] all end so. *)
Definition savedChange (JSON_stringify : json -> jsstring)
    (quotaExceeded : Storage.LocalStorage -> jsstring -> jsstring -> bool)
    (w : World) (l : list Transaction) : World :=
  mkWorld (saveTransactions JSON_stringify quotaExceeded w l) (arrays w) l
    (categories w) (budgetCap w) (editingId w).

(** The sample array, saved from the state of a page with nothing
    saved. *)
Definition sampleSaved : World :=
  savedChange HostJson.JSON_stringify HostJson.noQuota freshWorld sampleArray.

End ReloadStatements.

Section FormStatements.
Import Tracker.


End FormStatements.


(** One record filed under [constructor]. *)
Definition constructorItem : list Transaction :=
  [Host.txn "constructor" 5 "2025-01-14"].

(** The month before [(y, m)]. *)
Definition monthBefore (y m : Z) : Z * Z :=
  if (m =? 1)%Z then ((y - 1)%Z, 12%Z) else (y, (m - 1)%Z).

(** The theme the page shows for a requested theme. *)
Definition shownTheme (theme : jsstring) : jsstring :=
  if JsString.eqb theme (js "dark") then js "dark" else js "light".

(** The form's values for a lunch of 12.50 on 20 January 2025. *)
Definition lunchForm : Form.FormData :=
  Form.mkFormData (js " Lunch ") (Form.AmountString (js "12.50")) (js "Food")
    (js "2025-01-20").


(* ================================================================== *)
(** * Properties *)
(* ================================================================== *)

(** ** Numbers and strings *)

Lemma ltb_lt (x y : Q) : JsNumber.ltb x y = true <-> (x < y)%Q.
Proof.
  unfold JsNumber.ltb.
  rewrite negb_true_iff, <- not_true_iff_false, Qle_bool_iff.
  split; [apply Qnot_le_lt | apply Qlt_not_le].
Qed.

Lemma ltb_ge (x y : Q) : JsNumber.ltb x y = false <-> (y <= x)%Q.
Proof.
  unfold JsNumber.ltb. rewrite negb_false_iff. apply Qle_bool_iff.
Qed.

Lemma leb_le (x y : Q) : JsNumber.leb x y = true <-> (x <= y)%Q.
Proof. apply Qle_bool_iff. Qed.

Lemma leb_gt (x y : Q) : JsNumber.leb x y = false <-> (y < x)%Q.
Proof.
  unfold JsNumber.leb. rewrite <- not_true_iff_false, Qle_bool_iff.
  split; [apply Qnot_le_lt | apply Qlt_not_le].
Qed.

Lemma jsstring_eqb_eq (a b : jsstring) : JsString.eqb a b = true <-> a = b.
Proof.
  revert b; induction a as [|x a IH]; intros [|y b]; simpl;
    try (split; [discriminate | congruence]); [tauto|].
  rewrite andb_true_iff, N.eqb_eq, IH. split.
  - intros [-> ->]; reflexivity.
  - intros [= -> ->]; auto.
Qed.

Lemma jsstring_eqb_refl (a : jsstring) : JsString.eqb a a = true.
Proof. apply jsstring_eqb_eq; reflexivity. Qed.

Lemma jsstring_eqb_neq (a b : jsstring) : JsString.eqb a b = false <-> a <> b.
Proof.
  rewrite <- not_true_iff_false, jsstring_eqb_eq. tauto.
Qed.

(* ================================================================== *)
(** ** search.js: an invalid pattern *)
(* ================================================================== *)

Section InvalidPattern.
Variable RegExp_new : jsstring -> jsstring -> completion RegExp.
Variable Number_toString : Q -> jsstring.

(** Without a matcher the search returns its argument. *)
Lemma searchTransactions_null (transactions : list Transaction) :
  searchTransactions Number_toString transactions None = transactions.
Proof. reflexivity. Qed.

(** [compileRegex] never throws: every path ends in a [return]. *)
Lemma compileRegex_returns (input : jsstring) (caseSensitive : bool) :
  exists m, compileRegex RegExp_new input caseSensitive = Normal m.
Proof.
  unfold compileRegex. destruct (blank input); [eauto|].
  destruct (RegExp_new input _); eauto.
Qed.

(** C1 (as the code has it).  When the constructor rejects the pattern,
    [compileRegex] does not throw: it returns [null]; and
    [searchTransactions] applied to any sequence with that result returns
    the whole sequence, in order. *)
Theorem compileRegex_invalid_pattern_keeps_all
    (transactions : list Transaction) (input : jsstring)
    (caseSensitive : bool) (e : jserror) :
  RegExp_new input (if caseSensitive then js "" else js "i") = Throw e ->
  compileRegex RegExp_new input caseSensitive = Normal None
  /\ forall m, compileRegex RegExp_new input caseSensitive = Normal m ->
       searchTransactions Number_toString transactions m = transactions.
Proof.
  intros Hthrow.
  assert (Hnull : compileRegex RegExp_new input caseSensitive = Normal None).
  { unfold compileRegex. destruct (blank input); [reflexivity|].
    rewrite Hthrow. reflexivity. }
  split; [exact Hnull|].
  intros m Hm. rewrite Hnull in Hm. injection Hm as <-.
  apply searchTransactions_null.
Qed.

End InvalidPattern.

(** The pattern [++] (a quantifier with nothing to repeat) is rejected by
    the constructor; the search then keeps the one transaction it is
    given. *)
Lemma compileRegex_invalid_pattern_witness :
  PatternParser.RegExp_new (js "++") (js "i") = Throw SyntaxError
  /\ compileRegex PatternParser.RegExp_new (js "++") false = Normal None
  /\ forall m,
       compileRegex PatternParser.RegExp_new (js "++") false = Normal m ->
       searchTransactions Host.Number_toString
         [Host.txn "Food" 12 "2025-01-15"] m
       = [Host.txn "Food" 12 "2025-01-15"].
Proof.
  split; [reflexivity|].
  apply (compileRegex_invalid_pattern_keeps_all PatternParser.RegExp_new
           Host.Number_toString [Host.txn "Food" 12 "2025-01-15"]
           (js "++") false SyntaxError).
  reflexivity.
Defined.

(** C1 as stated fails: for the invalid pattern [++] the search over a
    one-element sequence does not return the empty sequence. *)
Lemma invalid_pattern_search_not_empty :
  PatternParser.RegExp_new (js "++") (js "i") = Throw SyntaxError
  /\ compileRegex PatternParser.RegExp_new (js "++") false = Normal None
  /\ searchTransactions Host.Number_toString
       [Host.txn "Food" 12 "2025-01-15"] None
     = [Host.txn "Food" 12 "2025-01-15"]
  /\ searchTransactions Host.Number_toString
       [Host.txn "Food" 12 "2025-01-15"] None <> [].
Proof. repeat split. discriminate. Qed.

(* ================================================================== *)
(** ** search.js: highlighting works on the escaped text *)
(* ================================================================== *)

Lemma highlight_null (text : jsstring) :
  highlight text None = escapeHtml text.
Proof. destruct text; reflexivity. Qed.

Lemma highlight_nonempty (c : N) (text : jsstring) (re : RegExp) :
  highlight (c :: text) (Some re)
  = replaceAll (mkRegExp (source re) (ignoreCase re) true)
      (escapeHtml (c :: text)) mark.
Proof. reflexivity. Qed.

(** C10.  Without a matcher [highlight] returns the escaped text.  With
    one, the matches are looked for in the escaped text, by a global copy
    of the matcher (same pattern, same case flag).  So for the text [a&b]
    and the search expression [amp], which the text itself does not
    contain, the markers wrap the letters of the entity [&amp;] that the
    escaping wrote. *)
Theorem highlight_matches_escaped_text :
  (forall text, highlight text None = escapeHtml text)
  /\ (forall c text re,
        highlight (c :: text) (Some re)
        = replaceAll (mkRegExp (source re) (ignoreCase re) true)
            (escapeHtml (c :: text)) mark)
  /\ (exists re,
        compileRegex PatternParser.RegExp_new (js "amp") false
          = Normal (Some re)
        /\ test re (js "a&b") = false
        /\ escapeHtml (js "a&b") = js "a&amp;b"
        /\ highlight (js "a&b") (Some re) = js "a&<mark>amp</mark>;b").
Proof.
  split; [exact highlight_null|].
  split; [exact highlight_nonempty|].
  eexists. split; [reflexivity|]. repeat split; vm_compute; reflexivity.
Qed.

(* ================================================================== *)
(** ** validators.js: description, date, whole record *)
(* ================================================================== *)

(** C7 at its failing input.  The description [twoLines] is not blank,
    its first and last characters are not white space, and it has no
    repeated word; [validateDescription] still rejects it, with the reason
    given for a leading or trailing space, because the dot of the pattern
    does not match a line terminator.  The two examples of the claim hold. *)
Theorem validateDescription_inner_line_break :
  blank twoLines = false
  /\ List.map isWhiteSpace (List.firstn 1 twoLines) = [false]
  /\ List.map isWhiteSpace (List.skipn 7 twoLines) = [false]
  /\ test REGEX_duplicateWord twoLines = false
  /\ validateDescription twoLines = reject MSG_description_invalid
  /\ validateDescription (js "the the book")
     = reject MSG_description_duplicate
  /\ validateDescription (js "the theme") = accept.
Proof. repeat split; vm_compute; reflexivity. Qed.

Lemma validateDate_accept_iff (value : jsstring) :
  validateDate value = accept
  <-> blank value = false
      /\ test REGEX_date value = true
      /\ isRealDate (datePart value 0) (datePart value 1) (datePart value 2)
         = true.
Proof.
  unfold validateDate, datePart.
  destruct (blank value); [split; [discriminate | intros [? _]; discriminate]|].
  destruct (test REGEX_date value); simpl;
    [|split; [discriminate | intros (_ & ? & _); discriminate]].
  destruct (isRealDate _ _ _); simpl.
  - split; auto.
  - split; [discriminate | intros (_ & _ & ?); discriminate].
Qed.

Lemma validateDate_bad_form (value : jsstring) :
  blank value = false -> test REGEX_date value = false ->
  validateDate value = reject MSG_date_invalid.
Proof. intros Hb Ht. unfold validateDate. rewrite Hb, Ht. reflexivity. Qed.

Lemma isRealDate_round_trip (y m d : Z) :
  isRealDate (Some y) (Some m) (Some d) = true
  <-> getFullYear (Date_ymd y (m - 1) d) = y
      /\ getMonth (Date_ymd y (m - 1) d) = (m - 1)%Z
      /\ getDate (Date_ymd y (m - 1) d) = d.
Proof.
  unfold isRealDate. rewrite !andb_true_iff, !Z.eqb_eq. tauto.
Qed.

Lemma lookup_addError_other (name other : string) (check : Validation)
    (e : Form.Errors) (msg : jsstring) :
  Form.lookup (js name) e = Some msg ->
  Form.lookup (js name) (Form.addError other check e) = Some msg.
Proof.
  intros H. unfold Form.addError.
  destruct (negb (Validators.valid check)); [|exact H].
  induction e as [|[k v] e IH]; simpl in *; [discriminate|].
  destruct (JsString.eqb k (js name)); [exact H | auto].
Qed.

Lemma addError_nonempty (name : string) (check : Validation)
    (e : Form.Errors) :
  e <> [] -> Form.addError name check e <> [].
Proof.
  unfold Form.addError. destruct (negb _); [|auto].
  destruct e; [congruence | discriminate].
Qed.

(** C8.  Whatever the other fields are, a record whose amount is the
    number 0 gets the amount-required error and is not valid: the number is
    falsy, so the validator is given the empty string.  Applied to the text
    [0] the amount validator accepts. *)
Theorem validateTransaction_number_zero
    (Number_toString : Q -> jsstring) (description category date : jsstring) :
  Form.amountText Number_toString (Form.AmountNumber 0) = []
  /\ Form.lookup (js "amount")
       (Form.errors
          (Form.validateTransaction Number_toString
             (Form.mkFormData description (Form.AmountNumber 0) category
                date)))
     = Some MSG_amount_required
  /\ Form.valid
       (Form.validateTransaction Number_toString
          (Form.mkFormData description (Form.AmountNumber 0) category date))
     = false
  /\ validateAmount (js "0") = accept.
Proof.
  split; [reflexivity|].
  assert (Hamount : forall e,
    Form.lookup (js "amount") e = None ->
    Form.lookup (js "amount")
      (Form.addError "amount"
         (validateAmount
            (Form.amountText Number_toString (Form.AmountNumber 0))) e)
    = Some MSG_amount_required).
  { intros e He. unfold Form.addError. simpl.
    induction e as [|[k v] e IH]; simpl in *; [reflexivity|].
    destruct (JsString.eqb k (js "amount")); [discriminate | auto]. }
  assert (Hdesc : Form.lookup (js "amount")
            (Form.addError "description" (validateDescription description) [])
          = None).
  { unfold Form.addError. destruct (negb _); reflexivity. }
  split; [|split].
  - unfold Form.validateTransaction; cbn [Form.errors Form.description
      Form.amount Form.category Form.date].
    do 2 apply lookup_addError_other. apply Hamount, Hdesc.
  - unfold Form.validateTransaction; cbn [Form.valid Form.description
      Form.amount Form.category Form.date].
    apply Nat.eqb_neq. intros Hlen. apply length_zero_iff_nil in Hlen.
    revert Hlen. do 2 apply addError_nonempty.
    intros Hnil. specialize (Hamount _ Hdesc). rewrite Hnil in Hamount.
    discriminate.
  - vm_compute. reflexivity.
Qed.

(* ================================================================== *)
(** ** The calendar arithmetic *)
(* ================================================================== *)

Local Open Scope Z_scope.

Ltac zdiv := unfold DayFromYear in *; Z.to_euclidean_division_equations; lia.

Lemma DayFromYear_step (y : Z) :
  DayFromYear (y + 1) = DayFromYear y + DaysInYear y.
Proof.
  unfold DaysInYear.
  destruct (y mod 4 =? 0) eqn:E4; simpl negb; cbv iota.
  2:{ apply Z.eqb_neq in E4. zdiv. }
  apply Z.eqb_eq in E4.
  destruct (y mod 100 =? 0) eqn:E100; simpl negb; cbv iota.
  2:{ apply Z.eqb_neq in E100. zdiv. }
  apply Z.eqb_eq in E100.
  destruct (y mod 400 =? 0) eqn:E400; simpl negb; cbv iota.
  2:{ apply Z.eqb_neq in E400. zdiv. }
  apply Z.eqb_eq in E400. zdiv.
Qed.

Lemma DaysInYear_cases (y : Z) : DaysInYear y = 365 \/ DaysInYear y = 366.
Proof.
  unfold DaysInYear.
  destruct (negb _); [auto|]. destruct (negb _); [auto|].
  destruct (negb _); auto.
Qed.

Lemma DayFromYear_mono (a b : Z) : a <= b -> DayFromYear a <= DayFromYear b.
Proof. intros H. zdiv. Qed.

Lemma DayFromYear_lt (a b : Z) : a < b -> DayFromYear a < DayFromYear b.
Proof.
  intros H. apply Z.lt_le_trans with (DayFromYear (a + 1)).
  - rewrite DayFromYear_step. destruct (DaysInYear_cases a); lia.
  - apply DayFromYear_mono. lia.
Qed.

(** [YearFromDay] returns the year the day lies in. *)
Lemma YearFromDay_spec (d : Z) :
  DayFromYear (YearFromDay d) <= d < DayFromYear (YearFromDay d + 1).
Proof.
  unfold YearFromDay.
  set (y := 1970 + 400 * d / 146097).
  assert (Hlo : DayFromYear (y - 1) <= d /\ d < DayFromYear (y + 2)).
  { unfold y. zdiv. }
  destruct (d <? DayFromYear y) eqn:E1.
  - apply Z.ltb_lt in E1. replace (y - 1 + 1) with y by lia. lia.
  - apply Z.ltb_ge in E1.
    destruct (DayFromYear (y + 1) <=? d) eqn:E2.
    + apply Z.leb_le in E2. replace (y + 1 + 1) with (y + 2) by lia. lia.
    + apply Z.leb_gt in E2. lia.
Qed.

Lemma YearFromDay_unique (d y : Z) :
  DayFromYear y <= d < DayFromYear (y + 1) -> YearFromDay d = y.
Proof.
  intros H. pose proof (YearFromDay_spec d) as Hs.
  destruct (Z.lt_trichotomy (YearFromDay d) y) as [Hlt | [Heq | Hgt]];
    [|exact Heq|].
  - pose proof (DayFromYear_mono (YearFromDay d + 1) y ltac:(lia)). lia.
  - pose proof (DayFromYear_mono (y + 1) (YearFromDay d) ltac:(lia)). lia.
Qed.

Lemma Day_MakeDate (day : Z) : Day (MakeDate day 0) = day.
Proof.
  unfold Day, MakeDate, msPerDay. rewrite Z.add_0_r.
  apply Z.div_mul. discriminate.
Qed.

Lemma leapDay_cases (y : Z) :
  (leapDay y = 0 /\ DaysInYear y = 365) \/ (leapDay y = 1 /\ DaysInYear y = 366).
Proof.
  unfold leapDay. destruct (DaysInYear_cases y) as [-> | ->]; simpl; auto.
Qed.

Ltac ltb_cases :=
  repeat match goal with
         | |- context [?a <? ?b] => destruct (Z.ltb_spec a b); try lia
         end.

(** The month and the day of the month of a day of the year. *)
Lemma month_and_date_of_day (t y : Z) :
  YearFromTime t = y ->
  0 <= MonthFromTime t <= 11
  /\ monthStart (leapDay y) (MonthFromTime t)
     <= Day t - DayFromYear y
     < monthStart (leapDay y) (MonthFromTime t + 1)
  /\ DateFromTime t
     = Day t - DayFromYear y - monthStart (leapDay y) (MonthFromTime t) + 1.
Proof.
  intros Hy.
  pose proof (YearFromDay_spec (Day t)) as Hs.
  unfold YearFromTime in Hy. rewrite Hy in Hs.
  rewrite DayFromYear_step in Hs.
  assert (Hleap : InLeapYear t = leapDay y).
  { unfold InLeapYear, YearFromTime, leapDay. rewrite Hy. reflexivity. }
  assert (Hdwy : DayWithinYear t = Day t - DayFromYear y).
  { unfold DayWithinYear, YearFromTime. rewrite Hy. reflexivity. }
  unfold DateFromTime. rewrite Hleap, Hdwy.
  unfold MonthFromTime. rewrite Hleap, Hdwy.
  destruct (leapDay_cases y) as [[-> Hd] | [-> Hd]];
    ltb_cases; simpl monthStart; lia.
Qed.

(** The table of month starts, one row per month index [j] in 0..11, with
    the start of the next month. *)
Lemma monthStart_at (l j j' : Z) :
  0 <= j <= 11 -> j' = j + 1 ->
  (j = 0 /\ monthStart l j = 0 /\ monthStart l j' = 31)
  \/ (j = 1 /\ monthStart l j = 31 /\ monthStart l j' = 59 + l)
  \/ (j = 2 /\ monthStart l j = 59 + l /\ monthStart l j' = 90 + l)
  \/ (j = 3 /\ monthStart l j = 90 + l /\ monthStart l j' = 120 + l)
  \/ (j = 4 /\ monthStart l j = 120 + l /\ monthStart l j' = 151 + l)
  \/ (j = 5 /\ monthStart l j = 151 + l /\ monthStart l j' = 181 + l)
  \/ (j = 6 /\ monthStart l j = 181 + l /\ monthStart l j' = 212 + l)
  \/ (j = 7 /\ monthStart l j = 212 + l /\ monthStart l j' = 243 + l)
  \/ (j = 8 /\ monthStart l j = 243 + l /\ monthStart l j' = 273 + l)
  \/ (j = 9 /\ monthStart l j = 273 + l /\ monthStart l j' = 304 + l)
  \/ (j = 10 /\ monthStart l j = 304 + l /\ monthStart l j' = 334 + l)
  \/ (j = 11 /\ monthStart l j = 334 + l /\ monthStart l j' = 365 + l).
Proof.
  intros Hj ->.
  assert (Hc : j = 0 \/ j = 1 \/ j = 2 \/ j = 3 \/ j = 4 \/ j = 5 \/ j = 6
               \/ j = 7 \/ j = 8 \/ j = 9 \/ j = 10 \/ j = 11) by lia.
  repeat (destruct Hc as [-> | Hc]); try subst j; simpl; tauto.
Qed.





(** [setDate(getDate() + k)] moves the local time by [k] whole days; the
    time value is that local time read back in the zone. *)
Lemma shiftDate_local (tza : TimeZone) (t k : Z) :
  shiftDate tza t k = UTC tza (LocalTime tza t + k * msPerDay).
Proof.
  unfold shiftDate. f_equal.
  set (lt := LocalTime tza t).
  destruct (month_and_date_of_day lt (YearFromTime lt) eq_refl)
    as (Hmr & _ & Hdate).
  unfold MakeDay.
  replace (MonthFromTime lt / 12) with 0 by (symmetry; apply Z.div_small; lia).
  rewrite Z.mod_small by lia. rewrite Z.add_0_r.
  fold (leapDay (YearFromTime lt)). rewrite Hdate.
  unfold MakeDate, TimeWithinDay.
  pose proof (Z.div_mod lt msPerDay ltac:(discriminate)) as Hdm.
  unfold Day in *. lia.
Qed.

(** Where the offset at the new local time is the offset at the old
    instant, the time value moves by [k] whole days. *)
Lemma shiftDate_days (tza : TimeZone) (t k : Z) :
  tza (LocalTime tza t + k * msPerDay) false = tza t true ->
  shiftDate tza t k = t + k * msPerDay.
Proof.
  intros H. rewrite shiftDate_local. unfold UTC. rewrite H.
  unfold LocalTime. lia.
Qed.

Lemma shiftDate_fixed (offset t k : Z) :
  shiftDate (fixedOffset offset) t k = t + k * msPerDay.
Proof. apply shiftDate_days. reflexivity. Qed.

Local Close Scope Z_scope.

(* ================================================================== *)
(** ** Anchored patterns *)
(* ================================================================== *)

(** A pattern that begins with [^] matches at index 0 or nowhere. *)
Lemma scan_after_start (Input : jsstring) (icase : bool) (r : regex)
    (n i : nat) :
  scan Input icase (Seq AssertStart r) n (S i) = None.
Proof.
  revert i. induction n as [|n IH]; intros i; simpl; [reflexivity|].
  apply IH.
Qed.

Lemma test_anchored (r : regex) (icase g : bool) (s : jsstring) :
  test (mkRegExp (Seq AssertStart r) icase g) s
  = match matchAt s icase (Seq AssertStart r) 0 with
    | Some _ => true
    | None => false
    end.
Proof.
  unfold test, execFrom. cbn [source ignoreCase].
  replace (Nat.ltb (List.length s) 0) with false
    by (symmetry; apply Nat.ltb_ge; lia).
  rewrite Nat.sub_0_r.
  destruct (List.length s) as [|n]; cbn [scan].
  - destruct (matchAt s icase (Seq AssertStart r) 0); reflexivity.
  - destruct (matchAt s icase (Seq AssertStart r) 0); [reflexivity|].
    rewrite scan_after_start. reflexivity.
Qed.

(** Running the matcher on a string whose first characters are named:
    everything is unfolded but the tests on single characters. *)
Ltac run_matcher :=
  cbv beta iota zeta delta
    [matchAt compile charSetMatcher repeatMatcher backrefMatcher charAt
     wordCharAt atBoundary sameText canonicalize set_matches set_has item_has
     clear_captures set_capture no_captures endIndex captures groups
     List.nth_error List.length List.existsb List.app
     Nat.add Nat.sub Nat.eqb Nat.ltb Nat.leb Nat.pred option_map
     negb andb orb Bool.eqb fst snd].

Ltac split_atoms :=
  repeat match goal with
         | |- context [isDigit ?c] => destruct (isDigit c)
         | |- context [inRange ?a ?b ?c] => destruct (inRange a b c)
         | |- context [N.eqb ?a ?b] => destruct (N.eqb a b)
         end.

(** The date pattern, as a test on the ten characters. *)
Lemma test_REGEX_date (v : jsstring) :
  test REGEX_date v = isoDateShape v.
Proof.
  set (re := REGEX_date). vm_compute in re. subst re.
  rewrite test_anchored.
  do 10 (destruct v as [|? v];
         [run_matcher; split_atoms; reflexivity|]).
  destruct v as [|? v]; unfold isoDateShape; run_matcher; split_atoms;
    reflexivity.
Qed.

(** C4.  [validateDate] first tests the form: the date pattern matches
    exactly the strings of four digits, a hyphen, a month 01..12, a hyphen
    and a day 01..31, and a string of another form is rejected before any
    date is built.  It then accepts exactly when the year, month and day
    read back unchanged from the date built from them.  29 February is
    accepted in 2024 and rejected in 2025 by the second check; month 13 is
    rejected by the pattern. *)
Theorem validateDate_form_then_round_trip :
  (forall value, test REGEX_date value = isoDateShape value)
  /\ (forall value,
        validateDate value = accept
        <-> blank value = false
            /\ test REGEX_date value = true
            /\ isRealDate (datePart value 0) (datePart value 1)
                 (datePart value 2) = true)
  /\ (forall y m d,
        isRealDate (Some y) (Some m) (Some d) = true
        <-> getFullYear (Date_ymd y (m - 1) d) = y
            /\ getMonth (Date_ymd y (m - 1) d) = (m - 1)%Z
            /\ getDate (Date_ymd y (m - 1) d) = d)
  /\ validateDate (js "2024-02-29") = accept
  /\ test REGEX_date (js "2025-02-29") = true
  /\ validateDate (js "2025-02-29") = reject MSG_date_unreal
  /\ test REGEX_date (js "2025-13-01") = false
  /\ validateDate (js "2025-13-01") = reject MSG_date_invalid.
Proof.
  split; [exact test_REGEX_date|].
  split; [exact validateDate_accept_iff|].
  split; [exact isRealDate_round_trip|].
  repeat split; vm_compute; reflexivity.
Qed.

Lemma digit_bounds (c : N) :
  isDigit c = true <-> (48 <= c <= 57)%N.
Proof.
  unfold isDigit, inRange. rewrite andb_true_iff, !N.leb_le. tauto.
Qed.

Lemma range_bounds (lo hi c : N) :
  inRange lo hi c = true <-> (lo <= c <= hi)%N.
Proof. unfold inRange. rewrite andb_true_iff, !N.leb_le. tauto. Qed.

Lemma digit_not_space (c : N) : isDigit c = true -> isWhiteSpace c = false.
Proof.
  intros H. apply digit_bounds in H. unfold isWhiteSpace, inRange.
  repeat match goal with
         | |- context [N.eqb c ?k] =>
             replace (N.eqb c k) with false by (symmetry; apply N.eqb_neq; lia)
         end.
  replace (N.leb c 13) with false by (symmetry; apply N.leb_gt; lia).
  replace (N.leb 8192 c) with false by (symmetry; apply N.leb_gt; lia).
  rewrite !andb_false_r. reflexivity.
Qed.





(* ================================================================== *)
(** ** Repetition of a single-character set *)
(* ================================================================== *)

Lemma nth_error_skipn_cons {A : Type} (l : list A) (i : nat) (x : A)
    (rest : list A) :
  List.skipn i l = x :: rest ->
  List.nth_error l i = Some x /\ List.skipn (S i) l = rest.
Proof.
  revert l. induction i as [|i IH]; intros l H.
  - destruct l; simpl in H; [discriminate|]. injection H as -> ->. auto.
  - destruct l as [|y l]; simpl in H; [discriminate|]. apply (IH l H).
Qed.

Lemma nth_error_skipn_nil {A : Type} (l : list A) (i : nat) :
  List.skipn i l = [] -> List.nth_error l i = None.
Proof.
  revert l. induction i as [|i IH]; intros l H.
  - destruct l; [reflexivity | discriminate].
  - destruct l as [|y l]; [reflexivity|]. apply (IH l H).
Qed.

(** A greedy star over a set of characters succeeds exactly when the
    continuation succeeds after some run of characters of the set. *)
Lemma star_reach (Input : jsstring) (p : N -> bool) (c : Continuation)
    (suffix : jsstring) :
  forall (fuel i : nat) (caps : nat -> option (nat * nat)),
    List.skipn i Input = suffix ->
    List.length suffix < fuel ->
    succeeds (repeatMatcher fuel (charSetMatcher Input p false) 0 None true []
                (RegExp.mkState i caps) c)
    = reach p (fun k => succeeds (c (RegExp.mkState k caps))) suffix i.
Proof.
  induction suffix as [|ch rest IH]; intros fuel i caps Hs Hf;
    (destruct fuel as [|f]; [simpl in Hf; lia|]).
  - cbn [repeatMatcher Nat.eqb negb reach]. unfold charSetMatcher, charAt.
    cbn [endIndex]. rewrite (nth_error_skipn_nil _ _ Hs).
    rewrite orb_false_r. reflexivity.
  - destruct (nth_error_skipn_cons _ _ _ _ Hs) as [Hn Hs'].
    cbn [repeatMatcher Nat.eqb negb reach]. unfold charSetMatcher at 1, charAt.
    cbn [endIndex captures]. rewrite Hn.
    destruct (p ch) eqn:Hp; cbn [Bool.eqb andb].
    + replace (Nat.eqb (S i) i) with false
        by (symmetry; apply Nat.eqb_neq; lia).
      cbn [andb option_map Nat.pred].
      change (clear_captures caps []) with caps.
      specialize (IH f (S i) caps Hs' ltac:(simpl in Hf; lia)).
      destruct (repeatMatcher f _ 0 None true [] _ c) eqn:E.
      * cbn [succeeds] in *. rewrite <- IH. symmetry. apply orb_true_r.
      * cbn [succeeds] in IH. rewrite <- IH. rewrite orb_false_r.
        reflexivity.
    + rewrite orb_false_r. reflexivity.
Qed.

Lemma succeeds_or_else (a b : MatchResult) :
  succeeds (match a with Some z => Some z | None => b end)
  = succeeds a || succeeds b.
Proof. destruct a; reflexivity. Qed.

(** One optional iteration ([?]) with enough fuel. *)
Lemma repeat_optional (fuel : nat) (m : Matcher) (parens : list nat)
    (x : MatchState) (c : Continuation) :
  repeatMatcher (S (S fuel)) m 0 (Some 1) true parens x c
  = match m (RegExp.mkState (endIndex x)
               (clear_captures (captures x) parens))
            (fun y => if Nat.eqb (endIndex y) (endIndex x) then None
                      else c y) with
    | Some z => Some z
    | None => c x
    end.
Proof. reflexivity. Qed.

(** The tail of the description pattern, from index [i] of an input of
    length [len]: after a run of characters other than line terminators, a
    character that is not white space must end the input. *)
Lemma description_tail (Input : jsstring) (len : nat)
    (caps : nat -> option (nat * nat)) (suffix : jsstring) :
  forall i,
    1 <= i -> List.skipn i Input = suffix ->
    len = i + List.length suffix ->
    reach (fun a => negb (isLineTerminator a))
      (fun k =>
         succeeds
           (charSetMatcher Input (set_matches false [CNotSpace]) false
              (RegExp.mkState k caps)
              (fun y => if Nat.eqb (endIndex y) 1 then None
                        else if Nat.eqb (endIndex y) len then Some y
                             else None)))
      suffix i
    = endsWell suffix.
Proof.
  induction suffix as [|ch r IH]; intros i Hi Hs Hlen.
  - cbn [reach endsWell]. unfold charSetMatcher, charAt. cbn [endIndex].
    rewrite (nth_error_skipn_nil _ _ Hs). reflexivity.
  - destruct (nth_error_skipn_cons _ _ _ _ Hs) as [Hn Hs'].
    cbn [reach]. rewrite (IH (S i)); [|lia|exact Hs'|simpl in Hlen; lia].
    unfold charSetMatcher, charAt. cbn [endIndex captures]. rewrite Hn.
    unfold set_matches. cbn [set_has List.existsb item_has andb orb].
    rewrite !orb_false_r.
    replace (Nat.eqb (S i) 1) with false
      by (symmetry; apply Nat.eqb_neq; lia).
    destruct r as [|c2 r'].
    + replace (Nat.eqb (S i) len) with true
        by (symmetry; apply Nat.eqb_eq; simpl in Hlen; lia).
      cbn [endsWell]. rewrite andb_false_r, orb_false_r.
      destruct (isWhiteSpace ch); reflexivity.
    + replace (Nat.eqb (S i) len) with false
        by (symmetry; apply Nat.eqb_neq; simpl in Hlen; lia).
      change (endsWell (ch :: c2 :: r'))
        with (negb (isLineTerminator ch) && endsWell (c2 :: r')).
      destruct (isWhiteSpace ch); reflexivity.
Qed.

(** The description pattern, as a test on the characters: the first is
    not white space, and either it is the only one or the rest has no line
    terminator before its last character, which is not white space. *)
Lemma test_REGEX_description (v : jsstring) :
  test REGEX_description v = descriptionShape v.
Proof.
  set (re := REGEX_description). vm_compute in re. subst re.
  rewrite test_anchored.
  destruct v as [|c0 rest]; [reflexivity|].
  unfold matchAt. cbn [compile]. cbn [endIndex Nat.eqb].
  unfold charSetMatcher at 1. unfold charAt.
  cbn [endIndex List.nth_error captures].
  unfold set_matches at 1. cbn [set_has List.existsb item_has andb orb].
  rewrite !orb_false_r. unfold descriptionShape.
  destruct (isWhiteSpace c0); [reflexivity|]. cbn [negb Bool.eqb andb].
  cbn [groups List.app List.length Nat.add]. rewrite Nat.add_1_r.
  rewrite repeat_optional. cbn [endIndex captures].
  change (clear_captures no_captures []) with no_captures.
  match goal with
  | |- match ?r with Some _ => true | None => false end = _ =>
      change (succeeds r = match rest with [] => true | _ => endsWell rest end)
  end.
  rewrite succeeds_or_else.
  rewrite (star_reach (c0 :: rest) _ _ rest _ 1 no_captures eq_refl)
    by (simpl; lia).
  rewrite (description_tail (c0 :: rest) (S (List.length rest)) no_captures
             rest 1 (le_n 1) eq_refl eq_refl).
  destruct rest as [|c1 rest']; [reflexivity|].
  cbn [endIndex List.length Nat.eqb succeeds]. apply orb_false_r.
Qed.

Lemma lineTerminator_is_space (c : N) :
  isLineTerminator c = true -> isWhiteSpace c = true.
Proof.
  unfold isLineTerminator. rewrite !orb_true_iff, !N.eqb_eq.
  intros [[[-> | ->] | ->] | ->]; reflexivity.
Qed.

Lemma not_space_not_terminator (c : N) :
  isWhiteSpace c = false -> isLineTerminator c = false.
Proof.
  intros H. destruct (isLineTerminator c) eqn:E; [|reflexivity].
  apply lineTerminator_is_space in E. congruence.
Qed.

Lemma endsWell_spec (rest : jsstring) :
  rest <> [] ->
  endsWell rest
  = negb (isWhiteSpace (List.last rest 0%N))
    && List.forallb (fun c => negb (isLineTerminator c)) rest.
Proof.
  induction rest as [|c rest IH]; [congruence|]. intros _.
  destruct rest as [|c2 r].
  - cbn [endsWell List.last List.forallb]. rewrite andb_true_r.
    destruct (isWhiteSpace c) eqn:E; [reflexivity|].
    rewrite (not_space_not_terminator c E). reflexivity.
  - change (endsWell (c :: c2 :: r))
      with (negb (isLineTerminator c) && endsWell (c2 :: r)).
    rewrite IH by discriminate.
    change (List.last (c :: c2 :: r) 0%N) with (List.last (c2 :: r) 0%N).
    cbn [List.forallb].
    destruct (negb (isLineTerminator c)); destruct (negb (isWhiteSpace _));
      reflexivity.
Qed.

(** The description shape in words: the string is not empty, its first and
    last characters are not white space, and no character is a line
    terminator. *)
Lemma descriptionShape_spec (v : jsstring) :
  descriptionShape v = true
  <-> v <> []
      /\ isWhiteSpace (List.hd 0%N v) = false
      /\ isWhiteSpace (List.last v 0%N) = false
      /\ List.existsb isLineTerminator v = false.
Proof.
  assert (Hex : forall l, List.existsb isLineTerminator l
                          = negb (List.forallb
                                    (fun c => negb (isLineTerminator c)) l)).
  { induction l as [|c l IH]; [reflexivity|]. cbn [List.existsb List.forallb].
    rewrite IH. destruct (isLineTerminator c); reflexivity. }
  destruct v as [|c rest]; [split; [discriminate | intros [H _]; congruence]|].
  unfold descriptionShape. cbn [List.hd]. rewrite Hex, negb_false_iff.
  destruct rest as [|c2 r].
  - cbn [List.last List.forallb]. rewrite andb_true_r, negb_true_iff.
    split.
    + intros H. rewrite (not_space_not_terminator c H).
      split; [discriminate|]. auto.
    + tauto.
  - rewrite endsWell_spec by discriminate.
    change (List.last (c :: c2 :: r) 0%N) with (List.last (c2 :: r) 0%N).
    cbn [List.forallb]. rewrite !andb_true_iff, !negb_true_iff.
    split.
    + intros H. pose proof (not_space_not_terminator c (proj1 H)).
      split; [discriminate|]. tauto.
    + tauto.
Qed.

(* ================================================================== *)
(** ** The order of the numbers of the engine *)
(* ================================================================== *)

Lemma ltb_below (x y : Binary64.number) :
  Binary64.ltb x y = true
  <-> Binary64.isNaN x = false /\ Binary64.isNaN y = false
      /\ Binary64.below x y.
Proof.
  unfold Binary64.ltb, SpecFloat.SFltb, Binary64.below.
  destruct x as [[]|[]| |[] m e], y as [[]|[]| |[] m' e'];
    cbn [SpecFloat.SFcompare Binary64.isNaN Binary64.rankClass
         Binary64.rankExponent Binary64.rankMantissa];
    try (split; [discriminate | intros (? & ? & ?); first [discriminate | lia]]);
    try (split; [intros _; repeat split; lia | reflexivity]).
  - change (Pos.compare_cont Eq m m') with (Pos.compare m m').
    destruct (Z.compare_spec e e'), (Pos.compare_spec m m'); cbn [CompOpp];
      (split; [first [discriminate | intros _; repeat split; lia]
              | intros (_ & _ & Hb); first [reflexivity | lia]]).
  - change (Pos.compare_cont Eq m m') with (Pos.compare m m').
    destruct (Z.compare_spec e e'), (Pos.compare_spec m m');
      (split; [first [discriminate | intros _; repeat split; lia]
              | intros (_ & _ & Hb); first [reflexivity | lia]]).
Qed.

Lemma leb_below (x y : Binary64.number) :
  Binary64.leb x y = true
  <-> Binary64.isNaN x = false /\ Binary64.isNaN y = false
      /\ ~ Binary64.below y x.
Proof.
  unfold Binary64.leb, SpecFloat.SFleb, Binary64.below.
  destruct x as [[]|[]| |[] m e], y as [[]|[]| |[] m' e'];
    cbn [SpecFloat.SFcompare Binary64.isNaN Binary64.rankClass
         Binary64.rankExponent Binary64.rankMantissa];
    try (split; [discriminate | intros (? & ? & ?); first [discriminate | lia]]);
    try (split; [intros _; repeat split; lia | reflexivity]).
  - change (Pos.compare_cont Eq m m') with (Pos.compare m m').
    destruct (Z.compare_spec e e'), (Pos.compare_spec m m'); cbn [CompOpp];
      (split; [first [discriminate | intros _; repeat split; lia]
              | intros (_ & _ & Hb); first [reflexivity | lia]]).
  - change (Pos.compare_cont Eq m m') with (Pos.compare m m').
    destruct (Z.compare_spec e e'), (Pos.compare_spec m m');
      (split; [first [discriminate | intros _; repeat split; lia]
              | intros (_ & _ & Hb); first [reflexivity | lia]]).
Qed.

(** Decides a comparison from the comparisons at hand. *)
Ltac by_order :=
  repeat match goal with
  | H : Binary64.ltb _ _ = true |- _ =>
      apply ltb_below in H; destruct H as (? & ? & ?)
  | H : Binary64.leb _ _ = true |- _ =>
      apply leb_below in H; destruct H as (? & ? & ?)
  | H : Binary64.ltb _ _ = false |- _ =>
      apply not_true_iff_false in H; rewrite ltb_below in H
  | H : Binary64.leb _ _ = false |- _ =>
      apply not_true_iff_false in H; rewrite leb_below in H
  end;
  try match goal with
  | |- Binary64.ltb _ _ = false => apply not_true_iff_false
  | |- Binary64.leb _ _ = false => apply not_true_iff_false
  end;
  rewrite ?ltb_below, ?leb_below;
  unfold Binary64.below in *;
  repeat match goal with
  | H : context [Binary64.isNaN _] |- _ => revert H
  end;
  repeat match goal with
  | |- context [Binary64.isNaN ?x] => destruct (Binary64.isNaN x)
  end;
  intros; intuition (try discriminate; try lia).

(* ================================================================== *)
(** ** ui.js: the budget comparison *)
(* ================================================================== *)

Section BudgetFacts.
Import Binary64 Doubles.

Lemma rounded_not_negative (m e : Z) (l : SpecFloat.location) :
  ltb (SpecFloat.binary_round_aux prec emax false m e l) zero = false.
Proof.
  unfold SpecFloat.binary_round_aux.
  destruct (SpecFloat.shr_fexp prec emax m e l) as [mrs' e'].
  destruct (SpecFloat.shr_fexp prec emax _ e' SpecFloat.loc_Exact)
    as [mrs'' e''].
  destruct (SpecFloat.shr_m mrs''); [reflexivity| |reflexivity].
  destruct (e'' <=? emax - prec)%Z; reflexivity.
Qed.

(** The number nearest to a rational that is not negative is not below
    zero. *)
Lemma ofQ_not_negative (q : Q) :
  (0 <= q)%Q -> ltb (ofQ q) zero = false.
Proof.
  intros Hq. unfold ofQ. destruct q as [n d]. unfold Qle in Hq.
  cbn [Qnum Qden] in *. destruct n as [|n|n]; [reflexivity| |lia].
  unfold div, SpecFloat.SFdiv.
  destruct (SpecFloat.SFdiv_core_binary prec emax (Z.pos n) 0 (Z.pos d) 0)
    as [[mz ez] lz].
  apply rounded_not_negative.
Qed.



End BudgetFacts.




(* ================================================================== *)
(** ** state.js: the top category *)
(* ================================================================== *)

(** *** Own properties *)

Lemma getOwn_setOwn_same (o : JsObject) (k : jsstring) (v : propval) :
  getOwn (setOwn o k v) k = Some v.
Proof.
  induction o as [|[k' v'] o IH]; simpl.
  - rewrite jsstring_eqb_refl. reflexivity.
  - destruct (JsString.eqb k' k) eqn:E; simpl; rewrite E; auto.
Qed.

Lemma getOwn_setOwn_other (o : JsObject) (k k' : jsstring) (v : propval) :
  k <> k' -> getOwn (setOwn o k v) k' = getOwn o k'.
Proof.
  intros Hne. induction o as [|[k0 v0] o IH]; simpl.
  - apply jsstring_eqb_neq in Hne. rewrite Hne. reflexivity.
  - destruct (JsString.eqb k0 k) eqn:E; simpl.
    + apply jsstring_eqb_eq in E. subst k0.
      apply jsstring_eqb_neq in Hne. rewrite Hne. reflexivity.
    + rewrite IH. reflexivity.
Qed.




(** *** The totals per category *)

Lemma existsb_eqb_In (c : jsstring) (l : list jsstring) :
  List.existsb (JsString.eqb c) l = true <-> In c l.
Proof.
  rewrite List.existsb_exists. split.
  - intros (x & Hin & Heq). apply jsstring_eqb_eq in Heq. subst; exact Hin.
  - intros Hin. exists c. split; [exact Hin | apply jsstring_eqb_refl].
Qed.

Lemma categoryTotals_snoc (transactions : list Transaction)
    (txn : Transaction) :
  categoryTotals (transactions ++ [txn])
  = addToCategory (categoryTotals transactions) txn.
Proof. unfold categoryTotals. rewrite List.fold_left_app. reflexivity. Qed.


Lemma firstSeen_snoc (transactions : list Transaction) (txn : Transaction) :
  firstSeen (transactions ++ [txn])
  = if List.existsb (JsString.eqb (category txn)) (firstSeen transactions)
    then firstSeen transactions
    else (firstSeen transactions ++ [category txn])%list.
Proof. unfold firstSeen. rewrite List.fold_left_app. reflexivity. Qed.

Lemma inherited_not_proto (c : jsstring) :
  inherited c = false -> JsString.eqb c (js "__proto__") = false.
Proof.
  intros H. apply jsstring_eqb_neq. intros ->. vm_compute in H. discriminate.
Qed.

Lemma getOwn_Some_key (o : JsObject) (k : jsstring) (v : propval) :
  getOwn o k = Some v -> In k (List.map fst o).
Proof.
  induction o as [|[k' v'] o IH]; simpl; [discriminate|].
  destruct (JsString.eqb k' k) eqn:E.
  - apply jsstring_eqb_eq in E. auto.
  - auto.
Qed.


Lemma get_number_is_own (o : JsObject) (k : jsstring) (q : Q) :
  get o k = Some (PNum q) -> getOwn o k = Some (PNum q).
Proof.
  unfold get. destruct (getOwn o k); [auto|].
  destruct (inherited k); discriminate.
Qed.

Local Open Scope Q_scope.




Local Close Scope Q_scope.

Lemma firstSeen_In (transactions : list Transaction) (c : jsstring) :
  In c (firstSeen transactions)
  -> exists txn, In txn transactions /\ category txn = c.
Proof.
  induction transactions as [|txn transactions IH] using List.rev_ind.
  - intros [].
  - rewrite firstSeen_snoc.
    destruct (List.existsb _ _).
    + intros H. destruct (IH H) as (t & Ht & Hc).
      exists t. split; [apply List.in_or_app; left; exact Ht | exact Hc].
    + intros H. apply List.in_app_or in H. destruct H as [H|[H|[]]].
      * destruct (IH H) as (t & Ht & Hc).
        exists t. split; [apply List.in_or_app; left; exact Ht | exact Hc].
      * exists txn. split; [apply List.in_or_app; right; left; reflexivity|].
        exact H.
Qed.

(** Without array-index names the keys are listed in creation order. *)
Lemma Object_keys_plain (o : JsObject) :
  (forall k, In k (List.map fst o) -> arrayIndex k = None) ->
  Object_keys o = List.map fst o.
Proof.
  intros H. unfold Object_keys.
  assert (Hi : indexKeys o = [] /\ nameKeys o = List.map fst o).
  { induction o as [|[k v] o IH]; simpl; [auto|].
    rewrite (H k) by (left; reflexivity).
    destruct IH as [-> ->]; [|auto].
    intros k' Hk'. apply H. right; exact Hk'. }
  destruct Hi as [-> ->]. reflexivity.
Qed.



Local Open Scope Q_scope.

(** *** A collection of zero amounts *)

Lemma allZero_set (o : JsObject) (k : jsstring) (v : propval) :
  allZero o -> (forall q, v = PNum q -> q == 0) -> allZero (set o k v).
Proof.
  intros Ho Hv. unfold set. destruct (JsString.eqb k (js "__proto__"));
    [exact Ho|].
  intros k' q Hk'.
  destruct (JsString.eqb k k') eqn:E.
  - apply jsstring_eqb_eq in E. subst k'.
    rewrite getOwn_setOwn_same in Hk'. injection Hk' as ->. auto.
  - apply jsstring_eqb_neq in E. rewrite getOwn_setOwn_other in Hk' by exact E.
    exact (Ho _ _ Hk').
Qed.

Lemma addToCategory_zero (o : JsObject) (txn : Transaction) :
  amount txn == 0 -> allZero o -> allZero (addToCategory o txn).
Proof.
  intros Ha Ho. unfold addToCategory.
  set (o1 := if negb (truthyProp (get o (category txn)))
             then set o (category txn) (PNum 0) else o).
  assert (Ho1 : allZero o1).
  { unfold o1. destruct (negb _); [|exact Ho].
    apply allZero_set; [exact Ho|]. intros q [= <-]. reflexivity. }
  apply allZero_set; [exact Ho1|].
  intros q Hq. destruct (get o1 (category txn)) as [[q0|]|] eqn:Hget;
    simpl in Hq; try discriminate.
  injection Hq as <-. apply get_number_is_own in Hget.
  rewrite (Ho1 _ _ Hget), Ha. reflexivity.
Qed.

Lemma categoryTotals_zero (transactions : list Transaction) :
  List.Forall (fun txn => amount txn == 0) transactions ->
  allZero (categoryTotals transactions).
Proof.
  induction transactions as [|txn transactions IH] using List.rev_ind.
  - intros _ k q H. discriminate.
  - intros Hall. apply List.Forall_app in Hall. destruct Hall as [Hall Htxn].
    apply List.Forall_inv in Htxn. rewrite categoryTotals_snoc.
    apply addToCategory_zero; auto.
Qed.

Lemma findTop_zero (o : JsObject) (ks : list jsstring) (c : jsstring) :
  allZero o -> List.fold_left (pickTop o) ks (c, 0) = (c, 0).
Proof.
  intros Ho. induction ks as [|k ks IH]; simpl; [reflexivity|].
  replace (pickTop o (c, 0) k) with (c, 0); [exact IH|].
  unfold pickTop. destruct (get o k) as [[q|]|] eqn:Hget; try reflexivity.
  apply get_number_is_own in Hget. simpl snd.
  assert (Hlt : JsNumber.ltb 0 q = false).
  { apply ltb_ge. rewrite (Ho _ _ Hget). lra. }
  rewrite Hlt. reflexivity.
Qed.

Local Close Scope Q_scope.

(** *** The totals and the top category in binary64 *)

Section TopCategoryFacts.
Import Binary64 Doubles.

(** What the loop over the keys leaves in [(topCategory, topAmount)]. *)
Lemma findTop_fold_rounded (o : JsObject) (ks : list jsstring)
    (c0 : jsstring) (a0 : number) :
  isNaN a0 = false ->
  let r := List.fold_left (pickTop o) ks (c0, a0) in
  isNaN (snd r) = false
  /\ leb a0 (snd r) = true
  /\ (forall k v, In k ks -> get o k = Some (PNum v) ->
        ltb (snd r) v = false)
  /\ (r = (c0, a0)
      \/ exists before after,
           ks = (before ++ fst r :: after)%list
           /\ get o (fst r) = Some (PNum (snd r))
           /\ ltb a0 (snd r) = true
           /\ forall k v, In k before -> get o k = Some (PNum v) ->
                leb (snd r) v = false).
Proof.
  revert c0 a0. induction ks as [|k ks IH]; intros c0 a0 Ha0; simpl.
  - split; [exact Ha0|]. split; [by_order|]. split; [intros ? ? []|].
    left; reflexivity.
  - assert (Hstep : pickTop o (c0, a0) k
                    = match get o k with
                      | Some (PNum v) =>
                          if ltb a0 v then (k, v) else (c0, a0)
                      | _ => (c0, a0)
                      end) by reflexivity.
    rewrite Hstep. clear Hstep.
    destruct (get o k) as [[v|]|] eqn:Hget.
    + destruct (ltb a0 v) eqn:Hlt.
      * assert (Hv : isNaN v = false) by (apply ltb_below in Hlt; tauto).
        destruct (IH k v Hv) as (Hnan & Hle & Hall & Hcase).
        split; [exact Hnan|]. split; [by_order|]. split.
        { intros k' v' [<-|Hin] Hk'.
          - rewrite Hget in Hk'. injection Hk' as <-. by_order.
          - eauto. }
        right. destruct Hcase as [Heq | (b & a & Hks & Hg & Hq & Hb)].
        { exists [], ks. rewrite Heq. simpl.
          split; [reflexivity|]. split; [exact Hget|].
          split; [exact Hlt|]. intros ? ? []. }
        exists (k :: b), a. split; [rewrite Hks at 1; reflexivity|].
        split; [exact Hg|]. split; [by_order|].
        intros k' v' [<-|Hin] Hk'.
        { rewrite Hget in Hk'. injection Hk' as <-. by_order. }
        eauto.
      * destruct (IH c0 a0 Ha0) as (Hnan & Hle & Hall & Hcase).
        split; [exact Hnan|]. split; [exact Hle|]. split.
        { intros k' v' [<-|Hin] Hk'.
          - rewrite Hget in Hk'. injection Hk' as <-. by_order.
          - eauto. }
        destruct Hcase as [Heq | (b & a & Hks & Hg & Hq & Hb)];
          [left; exact Heq|].
        right. exists (k :: b), a.
        split; [rewrite Hks at 1; reflexivity|].
        split; [exact Hg|]. split; [exact Hq|].
        intros k' v' [<-|Hin] Hk'.
        { rewrite Hget in Hk'. injection Hk' as <-. by_order. }
        eauto.
    + destruct (IH c0 a0 Ha0) as (Hnan & Hle & Hall & Hcase).
      split; [exact Hnan|]. split; [exact Hle|]. split.
      { intros k' v' [<-|Hin] Hk'; [congruence | eauto]. }
      destruct Hcase as [Heq | (b & a & Hks & Hg & Hq & Hb)];
        [left; exact Heq|].
      right. exists (k :: b), a.
      split; [rewrite Hks at 1; reflexivity|].
      split; [exact Hg|]. split; [exact Hq|].
      intros k' v' [<-|Hin] Hk'; [congruence | eauto].
    + destruct (IH c0 a0 Ha0) as (Hnan & Hle & Hall & Hcase).
      split; [exact Hnan|]. split; [exact Hle|]. split.
      { intros k' v' [<-|Hin] Hk'; [congruence | eauto]. }
      destruct Hcase as [Heq | (b & a & Hks & Hg & Hq & Hb)];
        [left; exact Heq|].
      right. exists (k :: b), a.
      split; [rewrite Hks at 1; reflexivity|].
      split; [exact Hg|]. split; [exact Hq|].
      intros k' v' [<-|Hin] Hk'; [congruence | eauto].
Qed.

(** *** Own properties after a write *)

Lemma totals_getOwn_setOwn_same (o : JsObject) (k : jsstring) (v : propval) :
  getOwn (setOwn o k v) k = Some v.
Proof.
  induction o as [|[k' v'] o IH]; simpl.
  - rewrite jsstring_eqb_refl. reflexivity.
  - destruct (JsString.eqb k' k) eqn:E; simpl; rewrite E; auto.
Qed.

Lemma totals_getOwn_setOwn_other (o : JsObject) (k k' : jsstring)
    (v : propval) :
  k <> k' -> getOwn (setOwn o k v) k' = getOwn o k'.
Proof.
  intros Hne. induction o as [|[k0 v0] o IH]; simpl.
  - apply jsstring_eqb_neq in Hne. rewrite Hne. reflexivity.
  - destruct (JsString.eqb k0 k) eqn:E; simpl.
    + apply jsstring_eqb_eq in E. subst k0.
      apply jsstring_eqb_neq in Hne. rewrite Hne. reflexivity.
    + rewrite IH. reflexivity.
Qed.

Lemma totals_getOwn_None_not_key (o : JsObject) (k : jsstring) :
  getOwn o k = None <-> ~ In k (List.map fst o).
Proof.
  induction o as [|[k' v'] o IH]; simpl; [tauto|].
  destruct (JsString.eqb k' k) eqn:E.
  - apply jsstring_eqb_eq in E. split; [discriminate | intros H; tauto].
  - apply jsstring_eqb_neq in E. rewrite IH. tauto.
Qed.

Lemma totals_setOwn_new (o : JsObject) (k : jsstring) (v : propval) :
  getOwn o k = None -> setOwn o k v = (o ++ [(k, v)])%list.
Proof.
  induction o as [|[k' v'] o IH]; simpl; [reflexivity|].
  destruct (JsString.eqb k' k); [discriminate|].
  intros H. rewrite IH by exact H. reflexivity.
Qed.

Lemma totals_setOwn_old (o : JsObject) (k : jsstring) (v w : propval) :
  getOwn o k = Some w -> List.map fst (setOwn o k v) = List.map fst o.
Proof.
  induction o as [|[k' v'] o IH]; simpl; [discriminate|].
  destruct (JsString.eqb k' k); simpl; [reflexivity|].
  intros H. rewrite IH by exact H. reflexivity.
Qed.

Lemma totals_getOwn_Some_key (o : JsObject) (k : jsstring) (v : propval) :
  getOwn o k = Some v -> In k (List.map fst o).
Proof.
  induction o as [|[k' v'] o IH]; simpl; [discriminate|].
  destruct (JsString.eqb k' k) eqn:E.
  - apply jsstring_eqb_eq in E. auto.
  - auto.
Qed.

Lemma totals_getOwn_key (o : JsObject) (k : jsstring) :
  In k (List.map fst o) -> exists v, getOwn o k = Some v.
Proof.
  intros Hin. destruct (getOwn o k) eqn:E; [eauto|].
  apply totals_getOwn_None_not_key in E. contradiction.
Qed.

Lemma totals_get_plain (o : JsObject) (c : jsstring) :
  inherited c = false -> get o c = getOwn o c.
Proof. intros H. unfold get. rewrite H. destruct (getOwn o c); reflexivity. Qed.

Lemma totals_get_own (o : JsObject) (k : jsstring) (v : propval) :
  getOwn o k = Some v -> get o k = Some v.
Proof. intros H. unfold get. rewrite H. reflexivity. Qed.

(** Without array-index names the keys are listed in creation order. *)
Lemma totals_keys_plain (o : JsObject) :
  (forall k, In k (List.map fst o) -> arrayIndex k = None) ->
  Object_keys o = List.map fst o.
Proof.
  intros H. unfold Object_keys.
  assert (Hi : indexKeys o = [] /\ nameKeys o = List.map fst o).
  { induction o as [|[k v] o IH]; simpl; [auto|].
    rewrite (H k) by (left; reflexivity).
    destruct IH as [-> ->]; [|auto].
    intros k' Hk'. apply H. right; exact Hk'. }
  destruct Hi as [-> ->]. reflexivity.
Qed.

(** *** The totals per category *)

Lemma categoryTotals_rounded_snoc (transactions : list Transaction)
    (txn : Transaction) :
  categoryTotals (transactions ++ [txn])
  = addToCategory (categoryTotals transactions) txn.
Proof. unfold categoryTotals. rewrite List.fold_left_app. reflexivity. Qed.

Lemma categoryTotal_snoc (transactions : list Transaction)
    (txn : Transaction) (c : jsstring) :
  categoryTotal (transactions ++ [txn]) c
  = if JsString.eqb (category txn) c
    then add (if truthy (categoryTotal transactions c)
              then categoryTotal transactions c else zero)
           (ofQ (amount txn))
    else categoryTotal transactions c.
Proof. unfold categoryTotal. rewrite List.fold_left_app. reflexivity. Qed.

(** One turn of the loop on a plain category of an object that holds
    numbers only. *)
Lemma addToCategory_rounded (o : JsObject) (txn : Transaction) :
  plainCategory (category txn) ->
  (forall k v, getOwn o k = Some v -> exists x, v = PNum x) ->
  getOwn (addToCategory o txn) (category txn)
  = Some (PNum (add match getOwn o (category txn) with
                    | Some (PNum x) => if truthy x then x else zero
                    | _ => zero
                    end
                  (ofQ (amount txn))))
  /\ (forall c, category txn <> c ->
        getOwn (addToCategory o txn) c = getOwn o c)
  /\ List.map fst (addToCategory o txn)
     = match getOwn o (category txn) with
       | Some _ => List.map fst o
       | None => (List.map fst o ++ [category txn])%list
       end.
Proof.
  intros [_ Hinh] Hnum. unfold addToCategory, set.
  rewrite (inherited_not_proto _ Hinh), !(totals_get_plain _ _ Hinh).
  set (cat := category txn). set (a := ofQ (amount txn)).
  destruct (getOwn o cat) as [v|] eqn:Hown.
  - destruct (Hnum _ _ Hown) as [x ->]. cbn [truthyProp].
    destruct (truthy x) eqn:Hz; cbn [negb]; cbv iota.
    + rewrite Hown. cbn [addNumber]. split; [|split].
      * apply totals_getOwn_setOwn_same.
      * intros c Hc. apply totals_getOwn_setOwn_other. exact Hc.
      * apply (totals_setOwn_old _ cat _ (PNum x)). exact Hown.
    + split; [|split].
      * rewrite !totals_getOwn_setOwn_same. reflexivity.
      * intros c Hc. rewrite !totals_getOwn_setOwn_other by exact Hc.
        reflexivity.
      * rewrite (totals_setOwn_old _ cat _ (PNum zero))
          by apply totals_getOwn_setOwn_same.
        apply (totals_setOwn_old _ cat _ (PNum x)). exact Hown.
  - cbn [truthyProp negb]. cbv iota. split; [|split].
    + rewrite !totals_getOwn_setOwn_same. reflexivity.
    + intros c Hc. rewrite !totals_getOwn_setOwn_other by exact Hc.
      reflexivity.
    + rewrite (totals_setOwn_old _ cat _ (PNum zero))
        by apply totals_getOwn_setOwn_same.
      rewrite (totals_setOwn_new o cat _ Hown), List.map_app. reflexivity.
Qed.

(** The totals object of a collection with plain categories: its keys are
    the categories in first-seen order, and each holds the total of its
    category. *)
Lemma categoryTotals_rounded (transactions : list Transaction) :
  List.Forall (fun txn => plainCategory (category txn)) transactions ->
  List.map fst (categoryTotals transactions) = firstSeen transactions
  /\ (forall k v, getOwn (categoryTotals transactions) k = Some v ->
        v = PNum (categoryTotal transactions k))
  /\ (forall c, ~ In c (firstSeen transactions) ->
        categoryTotal transactions c = zero).
Proof.
  induction transactions as [|txn transactions IH] using List.rev_ind.
  - intros _. split; [reflexivity|]. split; [discriminate | reflexivity].
  - intros Hall. apply List.Forall_app in Hall. destruct Hall as [Hall Htxn].
    apply List.Forall_inv in Htxn.
    destruct (IH Hall) as (Hkeys & Hvals & Hzero). clear IH.
    rewrite categoryTotals_rounded_snoc, firstSeen_snoc.
    set (o := categoryTotals transactions) in *.
    set (cat := category txn) in *.
    assert (Hnum : forall k v, getOwn o k = Some v -> exists x, v = PNum x).
    { intros k v Hk. rewrite (Hvals k v Hk). eauto. }
    destruct (addToCategory_rounded o txn Htxn Hnum) as (Hq & Hother & Hk').
    fold cat in Hq, Hother, Hk'.
    assert (Hseen : List.existsb (JsString.eqb cat) (firstSeen transactions)
                    = match getOwn o cat with Some _ => true | None => false end).
    { destruct (getOwn o cat) eqn:Hown.
      - apply existsb_eqb_In. rewrite <- Hkeys.
        apply (totals_getOwn_Some_key o cat p). exact Hown.
      - apply not_true_iff_false. rewrite existsb_eqb_In, <- Hkeys.
        apply totals_getOwn_None_not_key. exact Hown. }
    rewrite Hseen. split; [|split].
    + rewrite Hk'. destruct (getOwn o cat); rewrite Hkeys; reflexivity.
    + intros k v Hk. rewrite categoryTotal_snoc. fold cat.
      destruct (JsString.eqb cat k) eqn:Heq.
      * apply jsstring_eqb_eq in Heq. subst k.
        rewrite Hq in Hk. injection Hk as <-. do 2 f_equal.
        destruct (getOwn o cat) as [v0|] eqn:Hown.
        { rewrite (Hvals _ _ Hown). reflexivity. }
        rewrite Hzero; [reflexivity|].
        rewrite <- Hkeys. apply totals_getOwn_None_not_key. exact Hown.
      * apply jsstring_eqb_neq in Heq. rewrite Hother in Hk by exact Heq.
        exact (Hvals k v Hk).
    + intros c Hc. rewrite categoryTotal_snoc. fold cat.
      destruct (JsString.eqb cat c) eqn:Heq.
      * apply jsstring_eqb_eq in Heq. subst c. exfalso. apply Hc.
        destruct (getOwn o cat); [|apply List.in_or_app; right; left;
                                    reflexivity].
        apply existsb_eqb_In. rewrite Hseen. reflexivity.
      * apply Hzero. intros Hin. apply Hc.
        destruct (getOwn o cat); [exact Hin|].
        apply List.in_or_app. left; exact Hin.
Qed.

(** The top category of a collection with plain categories. *)
Lemma topCategory_rounded (transactions : list Transaction) :
  List.Forall (fun txn => plainCategory (category txn)) transactions ->
  Object_keys (categoryTotals transactions) = firstSeen transactions
  /\ (forall c, In c (firstSeen transactions) ->
        get (categoryTotals transactions) c
        = Some (PNum (categoryTotal transactions c)))
  /\ ((forall c, In c (firstSeen transactions) ->
         ltb zero (categoryTotal transactions c) = false) ->
      topCategory transactions = js "None")
  /\ ((exists c, In c (firstSeen transactions)
                 /\ ltb zero (categoryTotal transactions c) = true) ->
      exists before after,
        firstSeen transactions
        = (before ++ topCategory transactions :: after)%list
        /\ ltb zero (categoryTotal transactions (topCategory transactions))
           = true
        /\ (forall c, In c (firstSeen transactions) ->
              ltb (categoryTotal transactions (topCategory transactions))
                (categoryTotal transactions c) = false)
        /\ (forall c, In c before ->
              leb (categoryTotal transactions (topCategory transactions))
                (categoryTotal transactions c) = false)).
Proof.
  intros Hplain. rename transactions into txs.
  destruct (categoryTotals_rounded txs Hplain) as (Hkeys & Hvals & _).
  unfold topCategory, findTop.
  set (o := categoryTotals txs) in *.
  assert (Hks : Object_keys o = firstSeen txs).
  { rewrite <- Hkeys. apply totals_keys_plain. intros k Hk.
    rewrite Hkeys in Hk. destruct (firstSeen_In txs k Hk) as (t & Ht & <-).
    rewrite List.Forall_forall in Hplain. apply (Hplain t Ht). }
  assert (Hsum : forall c, In c (firstSeen txs) ->
            get o c = Some (PNum (categoryTotal txs c))).
  { intros c Hc. rewrite <- Hkeys in Hc.
    destruct (totals_getOwn_key o c Hc) as [v Hv].
    rewrite (totals_get_own o c v Hv), (Hvals c v Hv). reflexivity. }
  split; [exact Hks|]. split; [exact Hsum|].
  rewrite Hks.
  pose proof (findTop_fold_rounded o (firstSeen txs) (js "None") zero
                eq_refl) as Hfold.
  cbv zeta in Hfold.
  set (r := List.fold_left (pickTop o) (firstSeen txs) (js "None", zero)) in *.
  destruct Hfold as (Hnan & Hpos & Hmax & Hcase).
  split.
  - intros Hle. destruct Hcase as [-> | (b & a & Hcats & Hg & Hq & _)];
      [reflexivity|].
    exfalso.
    assert (Hin : In (fst r) (firstSeen txs)).
    { rewrite Hcats. apply List.in_or_app. right; left; reflexivity. }
    rewrite (Hsum _ Hin) in Hg. injection Hg as Hg.
    specialize (Hle _ Hin). rewrite Hg in Hle. congruence.
  - intros (c & Hc & Hcpos).
    destruct Hcase as [Heq | (b & a & Hcats & Hg & Hq & Hb)].
    { exfalso. specialize (Hmax c _ Hc (Hsum c Hc)).
      rewrite Heq in Hmax. cbn [snd] in Hmax. congruence. }
    assert (Hin : In (fst r) (firstSeen txs)).
    { rewrite Hcats. apply List.in_or_app. right; left; reflexivity. }
    rewrite (Hsum _ Hin) in Hg. injection Hg as Hg.
    exists b, a. split; [exact Hcats|]. rewrite Hg.
    split; [exact Hq|]. split.
    + intros c' Hc'. exact (Hmax c' _ Hc' (Hsum c' Hc')).
    + intros c' Hc'.
      assert (Hc'' : In c' (firstSeen txs)).
      { rewrite Hcats. apply List.in_or_app. left; exact Hc'. }
      exact (Hb c' _ Hc' (Hsum c' Hc'')).
Qed.

End TopCategoryFacts.

(** C3 (as the code has it).  For a collection whose category names are
    plain, the totals object lists the categories in the order in which
    they are first met, each with its total as the loop adds it in
    binary64.  When some total is greater than 0, [topCategory] is a
    category whose total no other total exceeds, and no category met
    before it has a total as great; when no total is greater than 0, in
    particular for the empty collection, it is "None" (found with amount
    0).  For Food 30, Food 20, Books 10 the totals are Food 50 and Books 10
    and the top category is Food. *)
Theorem topCategory_first_largest_positive :
  (forall transactions,
     List.Forall (fun txn => plainCategory (category txn)) transactions ->
     Doubles.Object_keys (Doubles.categoryTotals transactions)
     = firstSeen transactions
     /\ (forall c, In c (firstSeen transactions) ->
           Doubles.get (Doubles.categoryTotals transactions) c
           = Some (Doubles.PNum (categoryTotal transactions c)))
     /\ ((forall c, In c (firstSeen transactions) ->
            Binary64.ltb Binary64.zero (categoryTotal transactions c)
            = false) ->
         Doubles.topCategory transactions = js "None")
     /\ ((exists c, In c (firstSeen transactions)
                    /\ Binary64.ltb Binary64.zero
                         (categoryTotal transactions c) = true) ->
         exists before after,
           firstSeen transactions
           = (before ++ Doubles.topCategory transactions :: after)%list
           /\ Binary64.ltb Binary64.zero
                (categoryTotal transactions
                   (Doubles.topCategory transactions)) = true
           /\ (forall c, In c (firstSeen transactions) ->
                 Binary64.ltb
                   (categoryTotal transactions
                      (Doubles.topCategory transactions))
                   (categoryTotal transactions c) = false)
           /\ (forall c, In c before ->
                 Binary64.leb
                   (categoryTotal transactions
                      (Doubles.topCategory transactions))
                   (categoryTotal transactions c) = false)))
  /\ Doubles.topCategory [] = js "None"
  /\ Doubles.findTop (Doubles.categoryTotals []) = (js "None", Binary64.zero)
  /\ Doubles.categoryTotals foodAndBooks
     = [(js "Food", Doubles.PNum (Binary64.ofQ 50));
        (js "Books", Doubles.PNum (Binary64.ofQ 10))]
  /\ Doubles.topCategory foodAndBooks = js "Food".
Proof.
  split; [exact topCategory_rounded|].
  split; [vm_compute; reflexivity|]. split; [vm_compute; reflexivity|].
  split; vm_compute; reflexivity.
Qed.

(** The general statement at work on the example: the categories are
    plain, Food has a total greater than 0, so the top category heads a
    suffix of the first-seen order and no total exceeds its own. *)
Lemma topCategory_first_largest_witness :
  List.Forall (fun txn => plainCategory (category txn)) foodAndBooks
  /\ (exists c, In c (firstSeen foodAndBooks)
                /\ Binary64.ltb Binary64.zero (categoryTotal foodAndBooks c)
                   = true)
  /\ exists before after,
       firstSeen foodAndBooks
       = (before ++ Doubles.topCategory foodAndBooks :: after)%list
       /\ Binary64.ltb Binary64.zero
            (categoryTotal foodAndBooks (Doubles.topCategory foodAndBooks))
          = true
       /\ (forall c, In c (firstSeen foodAndBooks) ->
             Binary64.ltb
               (categoryTotal foodAndBooks
                  (Doubles.topCategory foodAndBooks))
               (categoryTotal foodAndBooks c) = false)
       /\ (forall c, In c before ->
             Binary64.leb
               (categoryTotal foodAndBooks
                  (Doubles.topCategory foodAndBooks))
               (categoryTotal foodAndBooks c) = false).
Proof.
  assert (Hplain : List.Forall (fun txn => plainCategory (category txn))
                     foodAndBooks).
  { repeat constructor. }
  assert (Hpos : exists c, In c (firstSeen foodAndBooks)
                           /\ Binary64.ltb Binary64.zero
                                (categoryTotal foodAndBooks c) = true).
  { exists (js "Food"). split; [left; reflexivity | vm_compute; reflexivity]. }
  split; [exact Hplain|]. split; [exact Hpos|].
  exact (proj2 (proj2 (proj2
           (proj1 topCategory_first_largest_positive foodAndBooks Hplain)))
           Hpos).
Defined.

(** C3 as stated fails.  The collection with the single transaction
    Food 0 is not empty and its only category, of sum 0, is Food; the top
    category is "None".  And the largest total is the largest as the
    engine adds it: of ten amounts of 0.1 under A and one amount of 1
    under B, the numbers held under A add up to more than 1, but their
    total as the loop rounds it is below 1, and the top category is B.
    And the names matter: of two categories of equal total the one first
    met loses to a later one named as an array index, which [Object.keys]
    lists first; a category named as a member of [Object.prototype] holds
    no number and is never the top category. *)
Lemma topCategory_zero_total_is_none :
  [Host.txn "Food" 0 "2025-01-15"] <> []
  /\ firstSeen [Host.txn "Food" 0 "2025-01-15"] = [js "Food"]
  /\ (categorySum [Host.txn "Food" 0 "2025-01-15"] (js "Food") == 0)%Q
  /\ topCategory
       (calculateStats 0 (fixedOffset 0)
          (mkAppState [Host.txn "Food" 0 "2025-01-15"] 0))
     = js "None"
  /\ topCategory
       (calculateStats 0 (fixedOffset 0)
          (mkAppState [Host.txn "Food" 0 "2025-01-15"] 0))
     <> js "Food"
  /\ categoryTotal [Host.txn "Food" 0 "2025-01-15"] (js "Food")
     = Binary64.zero
  /\ Doubles.topCategory [Host.txn "Food" 0 "2025-01-15"] = js "None"
  /\ firstSeen tenTenths = [js "A"; js "B"]
  /\ (exists a b,
        exactCategorySum tenTenths (js "A") = Some a
        /\ exactCategorySum tenTenths (js "B") = Some b
        /\ (b < a)%Q)
  /\ Binary64.ltb (categoryTotal tenTenths (js "A"))
       (categoryTotal tenTenths (js "B")) = true
  /\ Doubles.topCategory tenTenths = js "B"
  /\ firstSeen indexNamed = [js "b"; js "1"]
  /\ categoryTotal indexNamed (js "b") = categoryTotal indexNamed (js "1")
  /\ Doubles.topCategory indexNamed = js "1"
  /\ Doubles.categoryTotals inheritedNamed
     = [(js "constructor", Doubles.PJunk)]
  /\ Doubles.topCategory inheritedNamed = js "None".
Proof.
  split; [discriminate|]. split; [reflexivity|]. split; [reflexivity|].
  split; [reflexivity|]. split; [vm_compute; discriminate|].
  split; [vm_compute; reflexivity|]. split; [vm_compute; reflexivity|].
  split; [vm_compute; reflexivity|].
  split.
  { do 2 eexists. split; [vm_compute; reflexivity|].
    split; [vm_compute; reflexivity|]. vm_compute. reflexivity. }
  split; [vm_compute; reflexivity|]. split; [vm_compute; reflexivity|].
  split; [vm_compute; reflexivity|]. split; [vm_compute; reflexivity|].
  split; [vm_compute; reflexivity|]. split; vm_compute; reflexivity.
Qed.

Local Open Scope Q_scope.

(** C9.  When the collection is not empty and every amount is 0, the top
    category is "None": every total is 0, the search starts from 0 and only
    a strictly greater total replaces it. *)
Theorem topCategory_none_when_all_zero (now : Z) (tza : TimeZone)
    (state : AppState) :
  transactions state <> [] ->
  List.Forall (fun txn => amount txn == 0) (transactions state) ->
  topCategory (calculateStats now tza state) = js "None"
  /\ snd (findTop (categoryTotals (transactions state))) = 0.
Proof.
  intros _ Hzero. unfold calculateStats. simpl topCategory.
  unfold findTop.
  rewrite (findTop_zero _ _ _ (categoryTotals_zero _ Hzero)).
  split; reflexivity.
Qed.

Lemma topCategory_none_when_all_zero_witness :
  [Host.txn "Food" 0 "2025-01-15"; Host.txn "Books" 0 "2025-01-14"] <> []
  /\ List.Forall (fun txn => amount txn == 0)
       [Host.txn "Food" 0 "2025-01-15"; Host.txn "Books" 0 "2025-01-14"]
  /\ topCategory
       (calculateStats 0 (fixedOffset 0)
          (mkAppState
             [Host.txn "Food" 0 "2025-01-15"; Host.txn "Books" 0 "2025-01-14"]
             100))
     = js "None".
Proof.
  assert (Hne : [Host.txn "Food" 0 "2025-01-15";
                 Host.txn "Books" 0 "2025-01-14"] <> []) by discriminate.
  assert (Hzero : List.Forall (fun txn => amount txn == 0)
            [Host.txn "Food" 0 "2025-01-15"; Host.txn "Books" 0 "2025-01-14"]).
  { repeat constructor. }
  split; [exact Hne|]. split; [exact Hzero|].
  exact (proj1 (topCategory_none_when_all_zero 0%Z (fixedOffset 0)
                  (mkAppState
                     [Host.txn "Food" 0 "2025-01-15";
                      Host.txn "Books" 0 "2025-01-14"] 100) Hne Hzero)).
Defined.

Local Close Scope Q_scope.

(* ================================================================== *)
(** ** search.js: sorting *)
(* ================================================================== *)

Section ArraySortFacts.
Context {A : Type}.
Variable comparefn : A -> A -> option Q.

(** The elements the comparison function is consistent on. *)
Variable ok : A -> Prop.
Hypothesis swap_once :
  forall x y, ok x -> ok y -> ~ keeps comparefn x y -> keeps comparefn y x.

Lemma insertSorted_in_front (x : A) (l : list A) :
  inOrder comparefn (x :: l) -> insertSorted comparefn x l = x :: l.
Proof.
  destruct l as [|y l]; [reflexivity|].
  intros [Hxy _]. simpl. unfold keeps in Hxy. rewrite Hxy. reflexivity.
Qed.

Lemma arraySort_in_order (l : list A) :
  inOrder comparefn l -> arraySort comparefn l = l.
Proof.
  induction l as [|x l IH]; [reflexivity|].
  intros H. simpl arraySort. rewrite IH.
  - apply insertSorted_in_front. exact H.
  - destruct l; [exact I | exact (proj2 H)].
Qed.

Lemma insertSorted_ok (x : A) (l : list A) :
  ok x -> List.Forall ok l -> List.Forall ok (insertSorted comparefn x l).
Proof.
  intros Hx Hl. induction Hl as [|y l Hy Hl IH]; simpl.
  - repeat constructor. exact Hx.
  - destruct (JsNumber.ltb 0 _); repeat constructor; auto.
Qed.

Lemma arraySort_ok (l : list A) :
  List.Forall ok l -> List.Forall ok (arraySort comparefn l).
Proof.
  induction 1 as [|x l Hx Hl IH]; simpl; [constructor|].
  apply insertSorted_ok; assumption.
Qed.

Lemma insertSorted_inOrder (x : A) (l : list A) :
  ok x -> List.Forall ok l -> inOrder comparefn l ->
  inOrder comparefn (insertSorted comparefn x l).
Proof.
  intros Hx Hl. induction Hl as [|y l Hy Hl IH]; intros Hs; [exact I|].
  simpl insertSorted.
  destruct (JsNumber.ltb 0 (sortCompare comparefn x y)) eqn:E.
  - assert (Hyx : keeps comparefn y x).
    { apply swap_once; [exact Hx | exact Hy|]. unfold keeps. rewrite E.
      discriminate. }
    assert (Htail : inOrder comparefn l) by (destruct l; [exact I | exact (proj2 Hs)]).
    specialize (IH Htail).
    destruct l as [|z l]; [simpl; auto|].
    simpl insertSorted in *.
    destruct (JsNumber.ltb 0 (sortCompare comparefn x z)).
    + split; [exact (proj1 Hs) | exact IH].
    + split; [exact Hyx | exact IH].
  - split; [exact E | exact Hs].
Qed.

Lemma arraySort_inOrder (l : list A) :
  List.Forall ok l -> inOrder comparefn (arraySort comparefn l).
Proof.
  induction 1 as [|x l Hx Hl IH]; simpl; [exact I|].
  apply insertSorted_inOrder; [exact Hx | apply arraySort_ok; exact Hl|].
  exact IH.
Qed.

(** Sorting a sorted array leaves it as it is. *)
Lemma arraySort_idempotent (l : list A) :
  List.Forall ok l ->
  arraySort comparefn (arraySort comparefn l) = arraySort comparefn l.
Proof. intros H. apply arraySort_in_order, arraySort_inOrder, H. Qed.

Lemma insertSorted_perm (x : A) (l : list A) :
  Permutation (insertSorted comparefn x l) (x :: l).
Proof.
  induction l as [|y l IH]; simpl; [reflexivity|].
  destruct (JsNumber.ltb 0 _); [|reflexivity].
  rewrite IH. apply perm_swap.
Qed.

(** The sorted array holds the same elements. *)
Lemma arraySort_perm (l : list A) : Permutation (arraySort comparefn l) l.
Proof.
  induction l as [|x l IH]; simpl; [reflexivity|].
  rewrite insertSorted_perm, IH. reflexivity.
Qed.

End ArraySortFacts.

(** The comparison by date never asks for both orders of a pair: when it
    wants [x] behind [y] both dates are numbers and the difference the
    other way round is negative.  A date that reads as NaN makes the
    result NaN, which counts as 0. *)
Lemma dateDesc_swap_once (x y : Transaction) :
  ~ keeps dateDesc x y -> keeps dateDesc y x.
Proof.
  unfold keeps, sortCompare, dateDesc, dateDifference.
  destruct (Date_parse (date y)) as [ty|], (Date_parse (date x)) as [tx|];
    try (intros H; exfalso; apply H; reflexivity).
  intros H. apply not_false_iff_true, ltb_lt in H. apply ltb_ge.
  change 0%Q with (inject_Z 0) in *.
  rewrite <- Zle_Qle. rewrite <- Zlt_Qlt in H. lia.
Qed.

Lemma Forall_True {A : Type} (l : list A) : List.Forall (fun _ => True) l.
Proof. induction l; constructor; auto. Qed.

Section SortTransactionsFacts.
Variable localeCompare : jsstring -> jsstring -> Q.

Lemma comparator_date_desc :
  comparator localeCompare (js "date-desc") = Some dateDesc.
Proof. reflexivity. Qed.

(** The returned reference is new, and every array of the store is as it
    was: [sortTransactions] writes to the array it has just allocated
    only. *)
Lemma sortTransactions_frame (h : Store) (transactions : nat)
    (sortBy : jsstring) (r : nat) (s : list Transaction) :
  h !! r = Some s ->
  snd (sortTransactions localeCompare h transactions sortBy) <> r
  /\ fst (sortTransactions localeCompare h transactions sortBy) !! r
     = Some s.
Proof.
  intros Hr. unfold sortTransactions, Store in *. simpl fst. simpl snd.
  assert (Hne : fresh (dom h) <> r).
  { intros Heq. apply (is_fresh (dom h)). rewrite Heq.
    apply elem_of_dom. eauto. }
  split; [exact Hne|].
  destruct (comparator localeCompare sortBy).
  - rewrite lookup_alter_ne by exact Hne.
    rewrite lookup_insert_ne by exact Hne. exact Hr.
  - rewrite lookup_insert_ne by exact Hne. exact Hr.
Qed.

(** The array returned for the key [date-desc]. *)
Lemma sortTransactions_date_desc (h : Store) (transactions : nat)
    (s : list Transaction) :
  h !! transactions = Some s ->
  fst (sortTransactions localeCompare h transactions (js "date-desc"))
    !! snd (sortTransactions localeCompare h transactions (js "date-desc"))
  = Some (arraySort dateDesc s).
Proof.
  intros Hs. unfold sortTransactions, Store in *.
  rewrite comparator_date_desc.
  simpl fst. simpl snd. rewrite lookup_alter_eq, lookup_insert_eq, Hs.
  reflexivity.
Qed.

End SortTransactionsFacts.

(** C6.  For every sequence, sorting by [date-desc] the array returned by
    a first sort by [date-desc] returns an array in the same order.  Each
    call returns a new array and leaves the array it is given, and every
    other array, as it was; the array returned holds the elements of the
    argument, and no two neighbours in it are a pair the comparison
    function wants in the other order. *)
Theorem sortTransactions_date_desc_idempotent
    (localeCompare : jsstring -> jsstring -> Q) (h : Store)
    (transactions : nat) (s : list Transaction) :
  h !! transactions = Some s ->
  let first := sortTransactions localeCompare h transactions (js "date-desc") in
  let second :=
    sortTransactions localeCompare (fst first) (snd first) (js "date-desc") in
  fst first !! snd first = Some (arraySort dateDesc s)
  /\ fst second !! snd second = fst first !! snd first
  /\ snd first <> transactions
  /\ fst first !! transactions = Some s
  /\ snd second <> snd first
  /\ fst second !! snd first = fst first !! snd first
  /\ fst second !! transactions = Some s
  /\ Permutation (arraySort dateDesc s) s
  /\ inOrder dateDesc (arraySort dateDesc s).
Proof.
  intros Hs first second.
  pose proof (sortTransactions_date_desc localeCompare h transactions s Hs)
    as Hfirst. fold first in Hfirst.
  pose proof (sortTransactions_frame localeCompare h transactions
                (js "date-desc") transactions s Hs) as [Hne1 Hkeep1].
  fold first in Hne1, Hkeep1.
  pose proof (sortTransactions_date_desc localeCompare (fst first)
                (snd first) _ Hfirst) as Hsecond. fold second in Hsecond.
  pose proof (sortTransactions_frame localeCompare (fst first) (snd first)
                (js "date-desc") (snd first) _ Hfirst) as [Hne2 Hkeep2].
  fold second in Hne2, Hkeep2.
  pose proof (sortTransactions_frame localeCompare (fst first) (snd first)
                (js "date-desc") transactions s Hkeep1) as [_ Hkeep3].
  fold second in Hkeep3.
  rewrite (arraySort_idempotent dateDesc (fun _ => True)
             (fun x y _ _ => dateDesc_swap_once x y) s (Forall_True s))
    in Hsecond.
  repeat split; try assumption.
  - rewrite Hsecond, Hfirst. reflexivity.
  - rewrite Hkeep2, Hfirst. reflexivity.
  - apply arraySort_perm.
  - apply (arraySort_inOrder dateDesc (fun _ => True)
             (fun x y _ _ => dateDesc_swap_once x y) s (Forall_True s)).
Qed.

(** The sample array, with a date that names no day and a day beyond its
    month added, is in the store; sorted twice by [date-desc] it is in the
    order of the first sort, and the sample is where it was. *)
Lemma sortTransactions_date_desc_witness :
  oddDatesStore !! 0 = Some oddDates
  /\ fst (sortTransactions Host.localeCompare
            (fst (sortTransactions Host.localeCompare oddDatesStore 0
                    (js "date-desc")))
            (snd (sortTransactions Host.localeCompare oddDatesStore 0
                    (js "date-desc")))
            (js "date-desc"))
     !! snd (sortTransactions Host.localeCompare
               (fst (sortTransactions Host.localeCompare oddDatesStore 0
                       (js "date-desc")))
               (snd (sortTransactions Host.localeCompare oddDatesStore 0
                       (js "date-desc")))
               (js "date-desc"))
     = fst (sortTransactions Host.localeCompare oddDatesStore 0
              (js "date-desc"))
       !! snd (sortTransactions Host.localeCompare oddDatesStore 0
                 (js "date-desc"))
  /\ fst (sortTransactions Host.localeCompare oddDatesStore 0
            (js "date-desc"))
       !! 0 = Some oddDates.
Proof.
  assert (Hs : oddDatesStore !! 0 = Some oddDates) by reflexivity.
  split; [exact Hs|].
  pose proof (sortTransactions_date_desc_idempotent Host.localeCompare
                oddDatesStore 0 oddDates Hs) as H.
  cbv zeta in H. destruct H as (_ & H2 & _ & H4 & _).
  split; [exact H2 | exact H4].
Defined.

(* ================================================================== *)
(** ** state.js: the total of the week *)
(* ================================================================== *)

(** C2 at its failing inputs, with the clock in the UTC zone on
    15 January 2025.  The seven dates ending today are 9 to 15 January.
    At noon, a transaction of 10 dated 20 January, five days ahead, is
    counted in [weekTotal] while no day of [dailyTotals] receives it.  A
    transaction of 5 dated 8 January is counted at midnight and not at
    noon of the same day. *)
Theorem weekTotal_not_the_seven_dates :
  isoDate midnight15 = js "2025-01-15"
  /\ isoDate noon15 = js "2025-01-15"
  /\ lastSevenDates noon15 (fixedOffset 0)
     = List.map js ["2025-01-09"; "2025-01-10"; "2025-01-11"; "2025-01-12";
                    "2025-01-13"; "2025-01-14"; "2025-01-15"]%string
  /\ lastSevenDates midnight15 (fixedOffset 0)
     = lastSevenDates noon15 (fixedOffset 0)
  /\ weekTotal
       (calculateStats noon15 (fixedOffset 0)
          (mkAppState [Host.txn "Food" 10 "2025-01-20"] 0)) = 10%Q
  /\ weekTotalByDate noon15 (fixedOffset 0) [Host.txn "Food" 10 "2025-01-20"]
     = 0%Q
  /\ dailyTotals
       (calculateStats noon15 (fixedOffset 0)
          (mkAppState [Host.txn "Food" 10 "2025-01-20"] 0))
     = List.map (fun d => (d, PNum 0)) (lastSevenDates noon15 (fixedOffset 0))
  /\ weekTotal
       (calculateStats midnight15 (fixedOffset 0)
          (mkAppState [Host.txn "Food" 5 "2025-01-08"] 0)) = 5%Q
  /\ weekTotal
       (calculateStats noon15 (fixedOffset 0)
          (mkAppState [Host.txn "Food" 5 "2025-01-08"] 0)) = 0%Q
  /\ weekTotalByDate midnight15 (fixedOffset 0)
       [Host.txn "Food" 5 "2025-01-08"] = 0%Q.
Proof. repeat split; vm_compute; reflexivity. Qed.

(* ================================================================== *)
(** ** Further properties of the validators and the engine *)
(* ================================================================== *)




Lemma collect_filter (keep : Transaction -> bool)
    (transactions : list Transaction) :
  collect keep transactions = List.filter keep transactions.
Proof.
  induction transactions as [|txn rest IH]; simpl; [reflexivity|].
  rewrite IH. reflexivity.
Qed.

Lemma filter_swap {A : Type} (p q : A -> bool) (l : list A) :
  List.filter p (List.filter q l) = List.filter q (List.filter p l).
Proof.
  induction l as [|x l IH]; simpl; [reflexivity|].
  destruct (p x) eqn:Hp; destruct (q x) eqn:Hq; simpl;
    rewrite ?Hp, ?Hq, IH; reflexivity.
Qed.

(** X3.  The category filter.  An empty selection returns the sequence as it
    is; any other selection keeps, in order, exactly the transactions whose
    category equals it, so a category that no transaction has gives the
    empty sequence. *)
Theorem filterByCategory_keeps_equal_category :
  (forall transactions, filterByCategory transactions [] = transactions)
  /\ (forall transactions c cs,
        filterByCategory transactions (c :: cs)
        = List.filter (fun txn => JsString.eqb (category txn) (c :: cs))
            transactions)
  /\ (forall transactions c cs txn,
        In txn (filterByCategory transactions (c :: cs))
        <-> In txn transactions /\ category txn = c :: cs)
  /\ (forall transactions c cs,
        (forall txn, In txn transactions -> category txn <> c :: cs) ->
        filterByCategory transactions (c :: cs) = []).
Proof.
  split; [reflexivity|].
  assert (Hf : forall transactions c cs,
    filterByCategory transactions (c :: cs)
    = List.filter (fun txn => JsString.eqb (category txn) (c :: cs))
        transactions).
  { intros. unfold filterByCategory. simpl. apply collect_filter. }
  split; [exact Hf|]. split.
  - intros transactions c cs txn. rewrite Hf, List.filter_In, jsstring_eqb_eq.
    reflexivity.
  - intros transactions c cs Hnone. rewrite Hf.
    induction transactions as [|txn rest IH]; [reflexivity|]. simpl.
    assert (Hneq : JsString.eqb (category txn) (c :: cs) = false).
    { apply jsstring_eqb_neq. apply Hnone. left; reflexivity. }
    rewrite Hneq. apply IH. intros t Ht. apply Hnone. right; exact Ht.
Qed.

(** X4.  The two filters are independent: filtering by category and then by the
    search matcher gives the same sequence as the other order. *)
Theorem filters_commute (Number_toString : Q -> jsstring)
    (transactions : list Transaction) (selected : jsstring)
    (searchRegex : option RegExp) :
  searchTransactions Number_toString
    (filterByCategory transactions selected) searchRegex
  = filterByCategory
      (searchTransactions Number_toString transactions searchRegex) selected.
Proof.
  unfold searchTransactions, filterByCategory.
  destruct searchRegex as [re|]; destruct (negb (truthy selected));
    try reflexivity.
  rewrite !collect_filter. apply filter_swap.
Qed.

(** X5.  A sort key that names no branch: the copy is returned in the order of
    the argument. *)
Theorem sortTransactions_unknown_key
    (localeCompare : jsstring -> jsstring -> Q) (h : Store)
    (transactions : nat) (s : list Transaction) (sortBy : jsstring) :
  h !! transactions = Some s ->
  comparator localeCompare sortBy = None ->
  fst (sortTransactions localeCompare h transactions sortBy)
    !! snd (sortTransactions localeCompare h transactions sortBy) = Some s
  /\ snd (sortTransactions localeCompare h transactions sortBy)
     <> transactions.
Proof.
  intros Hs Hc.
  split; [|exact (proj1 (sortTransactions_frame localeCompare h transactions
                           sortBy transactions s Hs))].
  unfold sortTransactions, Store in *. rewrite Hc. simpl fst. simpl snd.
  rewrite lookup_insert_eq, Hs. reflexivity.
Qed.

Lemma sortTransactions_unknown_key_witness :
  sampleStore !! 0 = Some sampleArray
  /\ comparator Host.localeCompare (js "category") = None
  /\ fst (sortTransactions Host.localeCompare sampleStore 0 (js "category"))
       !! snd (sortTransactions Host.localeCompare sampleStore 0
                 (js "category")) = Some sampleArray.
Proof.
  assert (Hs : sampleStore !! 0 = Some sampleArray) by reflexivity.
  assert (Hc : comparator Host.localeCompare (js "category") = None)
    by reflexivity.
  split; [exact Hs|]. split; [exact Hc|].
  pose proof (sortTransactions_unknown_key Host.localeCompare sampleStore 0
                sampleArray (js "category") Hs Hc) as [H _].
  exact H.
Defined.

Lemma seeded_zero (keyOf : Z -> jsstring) (l : list Z) (o : JsObject) :
  (forall k v, getOwn o k = Some v -> v = PNum 0) ->
  forall k v,
    getOwn (List.fold_left
              (fun dailyTotals i => set dailyTotals (keyOf i) (PNum 0)) l o) k
    = Some v -> v = PNum 0.
Proof.
  revert o. induction l as [|i l IH]; intros o Ho; [exact Ho|].
  cbn [List.fold_left]. apply IH. intros k' v'. unfold Model.set.
  destruct (JsString.eqb (keyOf i) (js "__proto__")); [apply Ho|].
  destruct (JsString.eqb (keyOf i) k') eqn:E.
  - apply jsstring_eqb_eq in E. subst k'. rewrite getOwn_setOwn_same.
    intros [= <-]. reflexivity.
  - apply jsstring_eqb_neq in E. rewrite getOwn_setOwn_other by exact E.
    apply Ho.
Qed.

Lemma seedDays_zero (now : Z) (tza : TimeZone) (k : jsstring) (v : propval) :
  getOwn (seedDays now tza) k = Some v -> v = PNum 0.
Proof.
  apply (seeded_zero (fun i => isoDate (shiftDate tza now (- i)))
           [6; 5; 4; 3; 2; 1; 0]%Z []).
  intros ? ? Hx. discriminate.
Qed.

(** X6.  The statistics of the empty collection: no transaction, no expense,
    top category "None", nothing in the week, and the seeded days, each 0
    (seven of them, shown for noon of 15 January 2025). *)
Theorem calculateStats_empty (now : Z) (tza : TimeZone) (cap : Q) :
  total (calculateStats now tza (mkAppState [] cap)) = 0
  /\ totalExpenses (calculateStats now tza (mkAppState [] cap)) = 0%Q
  /\ topCategory (calculateStats now tza (mkAppState [] cap)) = js "None"
  /\ weekTotal (calculateStats now tza (mkAppState [] cap)) = 0%Q
  /\ dailyTotals (calculateStats now tza (mkAppState [] cap))
     = seedDays now tza
  /\ (forall k v, getOwn (seedDays now tza) k = Some v -> v = PNum 0)
  /\ List.map fst (seedDays noon15 (fixedOffset 0))
     = lastSevenDates noon15 (fixedOffset 0)
  /\ List.length (seedDays noon15 (fixedOffset 0)) = 7.
Proof.
  split; [reflexivity|]. split; [reflexivity|]. split; [reflexivity|].
  split; [reflexivity|]. split; [reflexivity|].
  split; [intros k v; apply seedDays_zero|].
  split; vm_compute; reflexivity.
Qed.

(** X8.  [validateDescription], its first two checks spelled out.  The
    description is rejected as required exactly when it is blank; as
    starting or ending with a space exactly when it is not blank and its
    first or its last character is white space, or some character is a
    line terminator; a description that passes both is rejected exactly
    when the duplicate-word pattern matches it. *)
Theorem validateDescription_checks (value : jsstring) :
  (validateDescription value = reject MSG_description_required
   <-> blank value = true)
  /\ (validateDescription value = reject MSG_description_invalid
      <-> blank value = false
          /\ (isWhiteSpace (List.hd 0%N value) = true
              \/ isWhiteSpace (List.last value 0%N) = true
              \/ List.existsb isLineTerminator value = true))
  /\ (validateDescription value = reject MSG_description_duplicate
      <-> blank value = false /\ descriptionShape value = true
          /\ test REGEX_duplicateWord value = true)
  /\ (validateDescription value = accept
      <-> blank value = false /\ descriptionShape value = true
          /\ test REGEX_duplicateWord value = false).
Proof.
  unfold validateDescription. rewrite test_REGEX_description.
  destruct (blank value) eqn:Hb.
  { repeat split; try discriminate; try tauto;
      intros H; (discriminate H || (destruct H as [H _]; discriminate H)). }
  assert (Hne : value <> []) by (intros ->; discriminate Hb).
  destruct (descriptionShape value) eqn:Hs; cbn [negb].
  - pose proof (proj1 (descriptionShape_spec value) Hs) as (_ & H1 & H2 & H3).
    destruct (test REGEX_duplicateWord value) eqn:Hd.
    + repeat split; try discriminate; try tauto.
      * intros (_ & [H | [H | H]]); congruence.
      * intros (_ & _ & H); discriminate H.
    + repeat split; try discriminate; try tauto.
      * intros (_ & [H | [H | H]]); congruence.
      * intros (_ & _ & H); discriminate H.
  - assert (Hbad : isWhiteSpace (List.hd 0%N value) = true
                   \/ isWhiteSpace (List.last value 0%N) = true
                   \/ List.existsb isLineTerminator value = true).
    { destruct (isWhiteSpace (List.hd 0%N value)) eqn:E1; [auto|].
      destruct (isWhiteSpace (List.last value 0%N)) eqn:E2; [auto|].
      destruct (List.existsb isLineTerminator value) eqn:E3; [auto|].
      exfalso. apply not_true_iff_false in Hs. apply Hs.
      apply descriptionShape_spec. auto. }
    repeat split; try discriminate; try tauto;
      intros (_ & H & _); discriminate H.
Qed.

(** X7.  The examples of the pattern catalogue of the README, field by field:
    each validator accepts the examples listed as valid and rejects the
    ones listed as invalid. *)
Theorem validators_agree_with_catalogue :
  List.map (fun s => valid (validateDescription (js s)))
    ["Lunch at cafeteria"; "Coffee with friends"; " Leading space";
     "Trailing space "; "   "]%string
  = [true; true; false; false; false]
  /\ List.map (fun s => valid (validateAmount (js s)))
       ["10"; "10.5"; "10.50"; "999.99"; "0"; "10."; ".50"; "10.505"; "abc";
        "01"]%string
     = [true; true; true; true; true; false; false; false; false; false]
  /\ List.map (fun s => valid (validateDate (js s)))
       ["2025-09-29"; "2024-02-29"; "2025-13-01"; "2025-02-29";
        "25-09-29"]%string
     = [true; true; false; false; false]
  /\ List.map (fun s => valid (validateCategory (js s)))
       ["Food"; "Fast Food"; "Auto-Transport"; "Food123"; "Food-";
        "Food & Drinks"]%string
     = [true; true; true; false; false; false]
  /\ List.map (fun s => test REGEX_duplicateWord (js s))
       ["the the book"; "coffee coffee"; "buy buy now"; "the theme";
        "book looking"; "normal text"]%string
     = [true; true; true; false; false; false].
Proof. repeat split; vm_compute; reflexivity. Qed.

(** The five patterns of [REGEX_PATTERNS], read from their source text by
    the pattern reader, are the patterns used above. *)
Lemma patterns_read_from_source :
  PatternParser.parsePattern (js "^\S(?:.*\S)?$")
  = PatternParser.POk (source REGEX_description)
  /\ PatternParser.parsePattern (js "^(0|[1-9]\d*)(\.\d{1,2})?$")
     = PatternParser.POk (source REGEX_amount)
  /\ PatternParser.parsePattern
       (js "^\d{4}-(0[1-9]|1[0-2])-(0[1-9]|[12]\d|3[01])$")
     = PatternParser.POk (source REGEX_date)
  /\ PatternParser.parsePattern (js "^[A-Za-z]+(?:[ -][A-Za-z]+)*$")
     = PatternParser.POk (source REGEX_category)
  /\ PatternParser.parsePattern (js "\b(\w+)\s+\1\b")
     = PatternParser.POk (source REGEX_duplicateWord).
Proof. repeat split; vm_compute; reflexivity. Qed.

(* ================================================================== *)
(** * Properties of the rest of the data path *)
(* ================================================================== *)

(** ** Sorting by amount *)

Lemma inOrder_sorted {A : Type} (comparefn : A -> A -> option Q)
    (l : list A) :
  inOrder comparefn l -> Sorted (keeps comparefn) l.
Proof.
  induction l as [|x l IH]; intros H; [constructor|].
  destruct l as [|y l].
  - repeat constructor.
  - destruct H as [Hxy Hl]. constructor; [apply IH, Hl|].
    constructor. exact Hxy.
Qed.

Lemma insertSorted_class {A : Type} (comparefn : A -> A -> option Q)
    (p : A -> bool) (x : A) (l : list A) :
  (forall y, p x = true -> p y = true -> keeps comparefn x y) ->
  List.filter p (insertSorted comparefn x l) = List.filter p (x :: l).
Proof.
  intros Hclass. induction l as [|y l IH]; [reflexivity|].
  cbn [insertSorted].
  destruct (JsNumber.ltb 0 (sortCompare comparefn x y)) eqn:E; [|reflexivity].
  cbn [List.filter] in *. rewrite IH.
  destruct (p x) eqn:Hx; [|reflexivity].
  destruct (p y) eqn:Hy; [|reflexivity].
  specialize (Hclass y eq_refl Hy). unfold keeps in Hclass. congruence.
Qed.

Lemma arraySort_class {A : Type} (comparefn : A -> A -> option Q)
    (p : A -> bool) (l : list A) :
  (forall x y, p x = true -> p y = true -> keeps comparefn x y) ->
  List.filter p (arraySort comparefn l) = List.filter p l.
Proof.
  intros Hclass. induction l as [|x l IH]; [reflexivity|].
  cbn [arraySort]. rewrite insertSorted_class by (apply Hclass).
  cbn [List.filter]. rewrite IH. reflexivity.
Qed.

Lemma keeps_amountAsc (x y : Transaction) :
  keeps amountAsc x y <-> (amount x <= amount y)%Q.
Proof.
  unfold keeps, sortCompare, amountAsc. rewrite ltb_ge. split; intros H; lra.
Qed.

Lemma keeps_amountDesc (x y : Transaction) :
  keeps amountDesc x y <-> (amount y <= amount x)%Q.
Proof.
  unfold keeps, sortCompare, amountDesc. rewrite ltb_ge. split; intros H; lra.
Qed.

Lemma sortTransactions_sorted (localeCompare : jsstring -> jsstring -> Q)
    (h : Store) (transactions : nat) (s : list Transaction)
    (sortBy : jsstring) (comparefn : Transaction -> Transaction -> option Q) :
  h !! transactions = Some s ->
  comparator localeCompare sortBy = Some comparefn ->
  fst (sortTransactions localeCompare h transactions sortBy)
    !! snd (sortTransactions localeCompare h transactions sortBy)
  = Some (arraySort comparefn s).
Proof.
  intros Hs Hc. unfold sortTransactions, Store in *. rewrite Hc.
  simpl fst. simpl snd. rewrite lookup_alter_eq, lookup_insert_eq, Hs.
  reflexivity.
Qed.

Lemma sorted_amounts (R : Transaction -> Transaction -> Prop)
    (comparefn : Transaction -> Transaction -> option Q) (l : list Transaction) :
  (forall x y, keeps comparefn x y <-> R x y) ->
  Transitive R ->
  (forall x y, ~ keeps comparefn x y -> keeps comparefn y x) ->
  StronglySorted R (arraySort comparefn l).
Proof.
  intros HR Htrans Hswap.
  apply Sorted_StronglySorted; [exact Htrans|].
  assert (Hs : Sorted (keeps comparefn) (arraySort comparefn l)).
  { apply inOrder_sorted.
    apply (arraySort_inOrder comparefn (fun _ => True)).
    - intros x y _ _. apply Hswap.
    - apply List.Forall_forall. intros; exact I. }
  induction Hs as [|x l' Hs IH Hd]; constructor; [exact IH|].
  destruct Hd; constructor. apply HR. assumption.
Qed.

(** X9. [sortTransactions] with the key [amount-asc] ([amount-desc]) returns
    a new array that holds the records of the given array in ascending
    (descending) order of amount, records of the same amount in the order
    they had; the given array is left as it was. *)
Theorem sortTransactions_by_amount
    (localeCompare : jsstring -> jsstring -> Q) (h : Store)
    (transactions : nat) (s : list Transaction) :
  h !! transactions = Some s ->
  let up := sortTransactions localeCompare h transactions (js "amount-asc") in
  let down := sortTransactions localeCompare h transactions (js "amount-desc") in
  fst up !! snd up = Some (arraySort amountAsc s)
  /\ fst down !! snd down = Some (arraySort amountDesc s)
  /\ Permutation (arraySort amountAsc s) s
  /\ Permutation (arraySort amountDesc s) s
  /\ StronglySorted (fun a b => (amount a <= amount b)%Q)
       (arraySort amountAsc s)
  /\ StronglySorted (fun a b => (amount b <= amount a)%Q)
       (arraySort amountDesc s)
  /\ (forall q, List.filter (sameAmount q) (arraySort amountAsc s)
                = List.filter (sameAmount q) s)
  /\ (forall q, List.filter (sameAmount q) (arraySort amountDesc s)
                = List.filter (sameAmount q) s)
  /\ snd up <> transactions /\ fst up !! transactions = Some s
  /\ snd down <> transactions /\ fst down !! transactions = Some s.
Proof.
  intros Hs up down.
  split; [apply sortTransactions_sorted; [exact Hs | reflexivity]|].
  split; [apply sortTransactions_sorted; [exact Hs | reflexivity]|].
  split; [apply arraySort_perm|]. split; [apply arraySort_perm|].
  split.
  { apply sorted_amounts.
    - apply keeps_amountAsc.
    - intros x y z Hxy Hyz. lra.
    - intros x y. rewrite !keeps_amountAsc. lra. }
  split.
  { apply sorted_amounts.
    - apply keeps_amountDesc.
    - intros x y z Hxy Hyz. lra.
    - intros x y. rewrite !keeps_amountDesc. lra. }
  split.
  { intros q. apply arraySort_class. intros x y Hx Hy.
    apply keeps_amountAsc. unfold sameAmount in *.
    apply Qeq_bool_iff in Hx, Hy. lra. }
  split.
  { intros q. apply arraySort_class. intros x y Hx Hy.
    apply keeps_amountDesc. unfold sameAmount in *.
    apply Qeq_bool_iff in Hx, Hy. lra. }
  pose proof (sortTransactions_frame localeCompare h transactions
                (js "amount-asc") transactions s Hs) as [H1 H2].
  pose proof (sortTransactions_frame localeCompare h transactions
                (js "amount-desc") transactions s Hs) as [H3 H4].
  auto.
Qed.

(** The sample array is in the store; sorted by ascending amount, the array
    returned holds the amounts 10, 20 and 30. *)
Lemma sortTransactions_by_amount_witness :
  sampleStore !! 0 = Some sampleArray
  /\ List.map amount (arraySort amountAsc sampleArray) = [10; 20; 30]%Q
  /\ fst (sortTransactions Host.localeCompare sampleStore 0 (js "amount-asc"))
     !! snd (sortTransactions Host.localeCompare sampleStore 0
               (js "amount-asc"))
     = Some (arraySort amountAsc sampleArray).
Proof.
  assert (Hs : sampleStore !! 0 = Some sampleArray) by reflexivity.
  split; [exact Hs|]. split; [vm_compute; reflexivity|].
  pose proof (sortTransactions_by_amount Host.localeCompare sampleStore 0
                sampleArray Hs) as H.
  cbv zeta in H. destruct H as [H _]. exact H.
Defined.

(** ** Highlighting adds mark tags only *)

Section MatcherProgress.
Variable Input : jsstring.
Variable icase : bool.

Lemma charSetMatcher_progresses (p : N -> bool) (invert : bool) :
  progresses Input (charSetMatcher Input p invert).
Proof.
  intros x c z. unfold charSetMatcher, charAt.
  destruct (List.nth_error Input (endIndex x)) as [ch|] eqn:E; [|discriminate].
  destruct (Bool.eqb invert (p ch)); [discriminate|]. intros H.
  eexists. split; [|split; [|exact H]]; cbn [endIndex]; [lia|].
  intros _. assert (Hlt : endIndex x < List.length Input) by (apply List.nth_error_Some; congruence). lia.
Qed.

Lemma repeat_step_progresses (m : Matcher) (greedy : bool) (min : nat)
    (x xr : MatchState) (c d : Continuation) (z : MatchState) :
  (forall z0, m xr d = Some z0 ->
     exists y, endIndex x <= endIndex y
               /\ (endIndex x <= List.length Input ->
                   endIndex y <= List.length Input)
               /\ c y = Some z0) ->
  (if negb (Nat.eqb min 0) then m xr d
   else if negb greedy then
     match c x with Some z1 => Some z1 | None => m xr d end
   else match m xr d with Some z1 => Some z1 | None => c x end) = Some z ->
  exists y, endIndex x <= endIndex y
            /\ (endIndex x <= List.length Input ->
                endIndex y <= List.length Input)
            /\ c y = Some z.
Proof.
  intros Hiter.
  assert (Hstop : forall z0, c x = Some z0 ->
                  exists y, endIndex x <= endIndex y
                            /\ (endIndex x <= List.length Input ->
                                endIndex y <= List.length Input)
                            /\ c y = Some z0).
  { intros z0 H. exists x. auto. }
  destruct (negb (Nat.eqb min 0)); [apply Hiter|].
  destruct (negb greedy).
  - destruct (c x) eqn:E; [intros [= <-]; apply Hstop; reflexivity
                          | apply Hiter].
  - destruct (m xr d) eqn:E; [intros [= <-]; apply Hiter; reflexivity
                             | apply Hstop].
Qed.

Lemma repeatMatcher_progresses (m : Matcher) :
  progresses Input m ->
  forall fuel min max greedy parens,
    progresses Input (repeatMatcher fuel m min max greedy parens).
Proof.
  intros Hm. induction fuel as [|fuel IH]; intros min max greedy parens x c z;
    [discriminate|].
  assert (Hiter : forall max' z0,
    m (RegExp.mkState (endIndex x) (clear_captures (captures x) parens))
      (fun y =>
         if Nat.eqb min 0 && Nat.eqb (endIndex y) (endIndex x) then None
         else repeatMatcher fuel m (Nat.pred min) max' greedy parens y c)
    = Some z0 ->
    exists y, endIndex x <= endIndex y
              /\ (endIndex x <= List.length Input ->
                  endIndex y <= List.length Input)
              /\ c y = Some z0).
  { intros max' z0 H. apply Hm in H. destruct H as (y1 & Hle1 & Hin1 & Hd).
    cbn [endIndex] in Hle1, Hin1.
    destruct (Nat.eqb min 0 && Nat.eqb (endIndex y1) (endIndex x));
      [discriminate|].
    apply IH in Hd. destruct Hd as (y & Hle & Hin & Hc).
    exists y. split; [lia|]. split; [|exact Hc]. auto. }
  destruct max as [[|k]|]; cbn [repeatMatcher].
  - intros H. exists x. auto.
  - apply repeat_step_progresses. apply Hiter.
  - apply repeat_step_progresses. apply Hiter.
Qed.

Lemma compile_progresses (r : regex) : progresses Input (compile Input icase r).
Proof.
  induction r as [| ch | | invert items | r1 IH1 r2 IH2 | r1 IH1 r2 IH2
                 | r IH min max greedy | n r IH | n | | | | ];
    cbn [compile].
  - intros x c z H. exists x. auto.
  - apply charSetMatcher_progresses.
  - apply charSetMatcher_progresses.
  - apply charSetMatcher_progresses.
  - intros x c z H. apply IH1 in H. destruct H as (y1 & Hle1 & Hin1 & H).
    apply IH2 in H. destruct H as (y & Hle & Hin & H).
    exists y. split; [lia|]. split; [|exact H]. auto.
  - intros x c z H.
    destruct (compile Input icase r1 x c) eqn:E.
    + injection H as <-. apply IH1. exact E.
    + apply IH2. exact H.
  - apply repeatMatcher_progresses. exact IH.
  - intros x c z H. apply IH in H. destruct H as (y & Hle & Hin & H).
    eexists. split; [|split; [|exact H]]; cbn [endIndex]; auto.
  - intros x c z. unfold backrefMatcher.
    destruct (captures x n) as [[s e]|]; [|intros H; exists x; auto].
    destruct (Nat.ltb (List.length Input) (endIndex x + (e - s))) eqn:E;
      [discriminate|].
    destruct (sameText Input icase (e - s) s (endIndex x)); [|discriminate].
    intros H. eexists. split; [|split; [|exact H]]; cbn [endIndex]; [lia|].
    intros _. apply Nat.ltb_ge in E. exact E.
  - intros x c z. destruct (Nat.eqb (endIndex x) 0); [|discriminate].
    intros H. exists x. auto.
  - intros x c z.
    destruct (Nat.eqb (endIndex x) (List.length Input)); [|discriminate].
    intros H. exists x. auto.
  - intros x c z. destruct (atBoundary Input (endIndex x)); [|discriminate].
    intros H. exists x. auto.
  - intros x c z. destruct (atBoundary Input (endIndex x)); [discriminate|].
    intros H. exists x. auto.
Qed.

Lemma scan_bounds (r : regex) (n i p : nat) (y : MatchState) :
  scan Input icase r n i = Some (p, y) ->
  i <= p <= i + n
  /\ (p <= List.length Input -> p <= endIndex y <= List.length Input).
Proof.
  revert i. induction n as [|n IH]; intros i; cbn [scan];
    destruct (matchAt Input icase r i) as [y0|] eqn:E.
  - intros [= <- <-]. split; [lia|]. intros Hp.
    apply compile_progresses in E. destruct E as (y' & Hle & Hin & [= <-]).
    cbn [endIndex] in *. split; auto.
  - discriminate.
  - intros [= <- <-]. split; [lia|]. intros Hp.
    apply compile_progresses in E. destruct E as (y' & Hle & Hin & [= <-]).
    cbn [endIndex] in *. split; auto.
  - intros H. apply IH in H. destruct H as [H1 H2]. split; [lia | exact H2].
Qed.

Lemma execFrom_bounds (r : regex) (i p : nat) (y : MatchState) :
  execFrom Input icase r i = Some (p, y) ->
  i <= p /\ p <= endIndex y <= List.length Input.
Proof.
  unfold execFrom.
  destruct (Nat.ltb (List.length Input) i) eqn:E; [discriminate|].
  apply Nat.ltb_ge in E. intros H. apply scan_bounds in H.
  destruct H as [H1 H2]. split; [lia|]. apply H2. lia.
Qed.

End MatcherProgress.

Lemma noAngle_app (a b : jsstring) :
  noAngle (a ++ b) = noAngle a && noAngle b.
Proof. apply List.forallb_app. Qed.

Lemma escapeChar_cases (c : N) :
  escapeChar c
  = if N.eqb c 38 then js "&amp;"
    else if N.eqb c 60 then js "&lt;"
    else if N.eqb c 62 then js "&gt;"
    else if N.eqb c 160 then js "&nbsp;"
    else [c].
Proof. reflexivity. Qed.

Lemma escapeHtml_noAngle (text : jsstring) : noAngle (escapeHtml text) = true.
Proof.
  induction text as [|c text IH]; [reflexivity|].
  unfold escapeHtml in *. cbn [List.flat_map]. rewrite noAngle_app, IH.
  rewrite andb_true_r, escapeChar_cases.
  destruct (N.eqb c 38) eqn:E1; [reflexivity|].
  destruct (N.eqb c 60) eqn:E2; [reflexivity|].
  destruct (N.eqb c 62) eqn:E3; [reflexivity|].
  destruct (N.eqb c 160) eqn:E4; [reflexivity|].
  cbn [noAngle List.forallb]. rewrite E2, E3. reflexivity.
Qed.

Lemma noAngle_firstn (n : nat) (s : jsstring) :
  noAngle s = true -> noAngle (List.firstn n s) = true.
Proof.
  revert n. induction s as [|c s IH]; intros [|n]; try reflexivity.
  cbn [List.firstn noAngle List.forallb]. rewrite !andb_true_iff.
  intros [H1 H2]. split; [exact H1 | apply IH, H2].
Qed.

Lemma noAngle_skipn (n : nat) (s : jsstring) :
  noAngle s = true -> noAngle (List.skipn n s) = true.
Proof.
  revert n. induction s as [|c s IH]; intros [|n]; try reflexivity.
  - auto.
  - cbn [List.skipn]. cbn [noAngle List.forallb]. rewrite !andb_true_iff.
    intros [H1 H2]. apply IH, H2.
Qed.

Lemma unmark_plain (a rest : jsstring) :
  noAngle a = true -> unmark (a ++ rest) = (a ++ unmark rest)%list.
Proof.
  induction a as [|c a IH]; [reflexivity|].
  cbn [noAngle List.forallb]. rewrite !andb_true_iff, !negb_true_iff.
  intros [[H1 H2] Ha]. unfold unmark in *.
  cbn [List.app unmarkFrom]. cbn [js list_ascii_of_string List.map startsWith].
  change (N_of_ascii "<") with 60%N.
  rewrite N.eqb_sym, H1. cbn [andb]. f_equal. apply IH. exact Ha.
Qed.

Lemma unmark_mark (m rest : jsstring) :
  noAngle m = true -> unmark (mark m ++ rest) = (m ++ unmark rest)%list.
Proof.
  intros Hm. unfold mark.
  change (unmark ((js "<mark>" ++ m ++ js "</mark>") ++ rest))
    with (unmark ((m ++ js "</mark>") ++ rest)).
  rewrite <- List.app_assoc. rewrite unmark_plain by exact Hm. reflexivity.
Qed.

Lemma firstn_substring (s : jsstring) (i j : nat) :
  i <= j -> (List.firstn i s ++ substring s i j)%list = List.firstn j s.
Proof.
  intros Hij. unfold substring. revert i j Hij.
  induction s as [|c s IH]; intros i j Hij.
  - rewrite List.skipn_nil, !List.firstn_nil. reflexivity.
  - destruct i as [|i].
    + cbn [List.firstn List.skipn List.app]. rewrite Nat.sub_0_r. reflexivity.
    + destruct j as [|j]; [lia|].
      cbn [List.firstn List.skipn List.app Nat.sub]. f_equal. apply IH. lia.
Qed.

Lemma replaceLoop_unmark (re : RegExp) (s : jsstring) :
  noAngle s = true ->
  forall fuel lastIndex nextSource acc,
    nextSource <= List.length s ->
    (forall rest,
       unmark (acc ++ rest) = (List.firstn nextSource s ++ unmark rest)%list) ->
    unmark (replaceLoop fuel re s mark lastIndex nextSource acc) = s.
Proof.
  intros Hs.
  assert (Hend : forall nextSource acc,
    (forall rest,
       unmark (acc ++ rest) = (List.firstn nextSource s ++ unmark rest)%list) ->
    unmark (acc ++ List.skipn nextSource s) = s).
  { intros nextSource acc Hacc. rewrite Hacc.
    rewrite <- (List.app_nil_r (List.skipn nextSource s)).
    rewrite unmark_plain by (apply noAngle_skipn, Hs).
    cbn. rewrite List.app_nil_r. apply List.firstn_skipn. }
  induction fuel as [|fuel IH]; intros lastIndex nextSource acc Hns Hacc;
    cbn [replaceLoop]; [apply Hend, Hacc|].
  destruct (execFrom s (ignoreCase re) (source re) lastIndex)
    as [[position y]|] eqn:E; [|apply Hend, Hacc].
  apply execFrom_bounds in E. destruct E as [Hp [Hpe Hel]].
  destruct (Nat.leb nextSource position) eqn:Hle.
  - apply Nat.leb_le in Hle. apply IH; [exact Hel|].
    intros rest. rewrite <- !List.app_assoc. rewrite Hacc.
    unfold substring at 1.
    rewrite unmark_plain by (apply noAngle_firstn, noAngle_skipn, Hs).
    rewrite unmark_mark
      by (unfold substring; apply noAngle_firstn, noAngle_skipn, Hs).
    rewrite !List.app_assoc. f_equal.
    fold (substring s nextSource position).
    rewrite firstn_substring by exact Hle.
    apply firstn_substring. exact Hpe.
  - apply IH; assumption.
Qed.

(** X10. Taking the [mark] tags out of [highlight text regex] gives
    [escapeHtml text] back, whatever the regular expression; escaped text
    holds neither [<] nor [>], and text without them has no tag to take out.
    So the output of [highlight] is the escaped text with [mark] tags put in
    and nothing else. *)
Theorem highlight_adds_only_mark_tags :
  (forall text regex, unmark (highlight text regex) = escapeHtml text)
  /\ (forall text, noAngle (escapeHtml text) = true)
  /\ (forall text, noAngle text = true -> unmark text = text).
Proof.
  split; [|split; [exact escapeHtml_noAngle|]].
  - intros text regex.
    assert (Hplain : forall t, unmark (escapeHtml t) = escapeHtml t).
    { intros t. rewrite <- (List.app_nil_r (escapeHtml t)) at 1.
      rewrite unmark_plain by apply escapeHtml_noAngle.
      cbn. apply List.app_nil_r. }
    unfold highlight. destruct regex as [re|].
    + destruct text as [|c text]; [reflexivity|]. cbn [truthy negb].
      cbn [makeGlobalRegex]. unfold replaceAll.
      apply replaceLoop_unmark.
      * apply escapeHtml_noAngle.
      * lia.
      * intros rest. reflexivity.
    + destruct text; apply Hplain.
  - intros text H. rewrite <- (List.app_nil_r text) at 1.
    rewrite unmark_plain by exact H. cbn. apply List.app_nil_r.
Qed.

(** ** The amount pattern *)

Lemma charset_repeat (Input : jsstring) (p : N -> bool) (c : Continuation)
    (suffix : jsstring) :
  forall (fuel i min : nat) (max : option nat)
         (caps : nat -> option (nat * nat)),
    List.skipn i Input = suffix ->
    List.length suffix < fuel ->
    succeeds (repeatMatcher fuel (charSetMatcher Input p false) min max true
                [] (RegExp.mkState i caps) c)
    = reachN p (fun k => succeeds (c (RegExp.mkState k caps))) suffix i min max.
Proof.
  induction suffix as [|ch rest IH]; intros fuel i min max caps Hs Hf;
    (destruct fuel as [|f]; [simpl in Hf; lia|]).
  - cbn [repeatMatcher reach]. unfold charSetMatcher, charAt.
    cbn [endIndex]. rewrite (nth_error_skipn_nil _ _ Hs).
    destruct max as [[|k]|]; cbn [reachN]; try reflexivity;
      destruct (Nat.eqb min 0); reflexivity.
  - destruct (nth_error_skipn_cons _ _ _ _ Hs) as [Hn Hs'].
    assert (Hstep : forall max',
      succeeds
        (charSetMatcher Input p false
           (RegExp.mkState i (clear_captures caps []))
           (fun y =>
              if Nat.eqb min 0 && Nat.eqb (endIndex y) i then None
              else repeatMatcher f (charSetMatcher Input p false)
                     (Nat.pred min) max' true [] y c))
      = p ch && reachN p (fun k => succeeds (c (RegExp.mkState k caps))) rest
                  (S i) (Nat.pred min) max').
    { intros max'. unfold charSetMatcher at 1, charAt.
      cbn [endIndex captures]. rewrite Hn.
      destruct (p ch); cbn [Bool.eqb andb]; [|reflexivity].
      replace (Nat.eqb (S i) i) with false
        by (symmetry; apply Nat.eqb_neq; lia).
      rewrite andb_false_r.
      change (clear_captures caps []) with caps.
      apply IH; [exact Hs' | simpl in Hf; lia]. }
    destruct max as [[|k]|]; cbn [repeatMatcher reachN endIndex captures];
      try reflexivity.
    + destruct (Nat.eqb min 0) eqn:Emin; cbn [negb].
      * rewrite succeeds_or_else. rewrite Hstep. reflexivity.
      * apply Hstep.
    + destruct (Nat.eqb min 0) eqn:Emin; cbn [negb].
      * rewrite succeeds_or_else. rewrite Hstep. reflexivity.
      * apply Hstep.
Qed.

Lemma set_matches_digit (c : N) : set_matches false [CDigit] c = isDigit c.
Proof.
  unfold set_matches. cbn [set_has List.existsb item_has andb orb].
  rewrite !orb_false_r. reflexivity.
Qed.

Ltac index_tests :=
  repeat match goal with
         | |- context [Nat.eqb ?a ?b] =>
             first [ replace (Nat.eqb a b) with true
                       by (symmetry; apply Nat.eqb_eq; simpl in *; lia)
                   | replace (Nat.eqb a b) with false
                       by (symmetry; apply Nat.eqb_neq; simpl in *; lia) ]
         end.

Lemma amount_tail (Input : jsstring) (caps : nat -> option (nat * nat))
    (suffix : jsstring) (i : nat) :
  List.skipn i Input = suffix ->
  List.length Input = i + List.length suffix ->
  Input <> [] ->
  succeeds (compile Input false amountTail (RegExp.mkState i caps) Some)
  = fractionShape suffix.
Proof.
  intros Hs Hlen Hne.
  unfold amountTail. cbn [compile groups List.app].
  destruct Input as [|c0 In'] eqn:EI; [congruence|]. rewrite <- EI in *.
  assert (Hl : List.length Input = S (List.length In')) by (rewrite EI; reflexivity).
  rewrite Hl. cbn [Nat.add]. rewrite Nat.add_1_r.
  rewrite repeat_optional. cbn [endIndex captures].
  rewrite succeeds_or_else. rewrite <- Hl. clear EI Hl c0 In' Hne.
  destruct suffix as [|ch rest].
  - unfold charSetMatcher, charAt. cbn [endIndex].
    rewrite (nth_error_skipn_nil _ _ Hs). cbn [succeeds orb fractionShape].
    index_tests. reflexivity.
  - destruct (nth_error_skipn_cons _ _ _ _ Hs) as [Hn Hs'].
    unfold charSetMatcher at 1. unfold charAt. cbn [endIndex captures].
    rewrite Hn. unfold canonicalize. cbn [andb].
    replace (Nat.eqb i (List.length Input)) with false
      by (symmetry; apply Nat.eqb_neq; simpl in Hlen; lia).
    cbn [succeeds]. rewrite orb_false_r.
    destruct (N.eqb ch 46) eqn:Ech; cbn [Bool.eqb].
    + rewrite (charset_repeat Input _ _ rest _ (S i) 1 (Some 2) _ Hs')
        by (simpl in Hlen; lia).
      cbn [fractionShape]. rewrite Ech. cbn [andb].
      destruct rest as [|d1 [|d2 [|d3 rest]]];
        cbn [reachN Nat.eqb Nat.pred option_map]; rewrite ?set_matches_digit;
        index_tests; cbn [succeeds orb andb];
        rewrite ?andb_true_r, ?andb_false_r, ?orb_false_r; reflexivity.
    + destruct rest as [|d1 [|d2 [|d3 rest]]]; cbn [fractionShape];
        rewrite ?Ech; reflexivity.
Qed.

Lemma reach_ext (p : N -> bool) (c c' : nat -> bool) (suffix : jsstring) :
  forall i,
    (forall k, i <= k <= i + List.length suffix -> c k = c' k) ->
    reach p c suffix i = reach p c' suffix i.
Proof.
  induction suffix as [|ch rest IH]; intros i H; cbn [reach].
  - rewrite H by (simpl; lia). reflexivity.
  - rewrite H by (simpl; lia). rewrite (IH (S i)); [reflexivity|].
    intros k Hk. apply H. simpl. lia.
Qed.

Lemma reach_digitsThenFraction (Input suffix : jsstring) :
  forall i,
    List.skipn i Input = suffix ->
    reach isDigit (fun k => fractionShape (List.skipn k Input)) suffix i
    = digitsThenFraction suffix.
Proof.
  induction suffix as [|ch rest IH]; intros i Hs.
  - cbn [reach digitsThenFraction]. rewrite Hs. reflexivity.
  - destruct (nth_error_skipn_cons _ _ _ _ Hs) as [Hn Hs'].
    cbn [reach]. rewrite Hs. rewrite (IH (S i) Hs'). reflexivity.
Qed.

Lemma test_REGEX_amount (v : jsstring) :
  test REGEX_amount v = amountShape v.
Proof.
  change REGEX_amount
    with (mkRegExp
            (Seq AssertStart
               (Seq (Group 1
                       (Alt (Char 48)
                            (Seq (Class false [CRange 49 57])
                                 (Quant (Class false [CDigit]) 0 None true))))
                    amountTail)) false false).
  rewrite test_anchored.
  destruct v as [|c0 rest]; [reflexivity|].
  pose proof (fun caps suffix i H1 H2 =>
                amount_tail (c0 :: rest) caps suffix i H1 H2
                  ltac:(discriminate)) as Htail.
  remember amountTail as tl eqn:Etl. clear Etl.
  unfold matchAt. cbn [compile]. cbn [endIndex Nat.eqb].
  match goal with
  | |- match ?r with Some _ => true | None => false end = _ =>
      change (succeeds r = amountShape (c0 :: rest))
  end.
  rewrite succeeds_or_else. unfold amountShape. f_equal.
  - unfold charSetMatcher, charAt. cbn [endIndex List.nth_error captures].
    unfold canonicalize. cbn [andb].
    destruct (N.eqb c0 48); cbn [Bool.eqb andb]; [|reflexivity].
    apply Htail; reflexivity.
  - unfold charSetMatcher at 1. unfold charAt.
    cbn [endIndex List.nth_error captures].
    unfold set_matches at 1. cbn [set_has List.existsb item_has andb orb].
    rewrite !orb_false_r. cbn [groups List.length Nat.add].
    destruct (inRange 49 57 c0); cbn [Bool.eqb andb]; [|reflexivity].
    rewrite (star_reach (c0 :: rest) _ _ rest _ 1 _ eq_refl) by (simpl; lia).
    rewrite <- (reach_digitsThenFraction (c0 :: rest) rest 1 eq_refl).
    transitivity (reach (set_matches false [CDigit])
                    (fun k => fractionShape (List.skipn k (c0 :: rest)))
                    rest 1).
    + apply reach_ext. intros k Hk. cbn [endIndex captures].
      apply (Htail _ (List.skipn k (c0 :: rest)) k eq_refl).
      rewrite List.length_skipn. simpl in *. lia.
    + clear. generalize 1. generalize (c0 :: rest).
      induction rest as [|ch r IH]; intros Inp i; cbn [reach].
      * reflexivity.
      * rewrite set_matches_digit, IH. reflexivity.
Qed.

Section AmountFacts.
Lemma trimStart_keeps_last (l : jsstring) (c : N) :
  isWhiteSpace c = false -> trimStart (l ++ [c]) <> [].
Proof.
  intros Hc. induction l as [|x l IH]; cbn [List.app trimStart].
  - rewrite Hc. discriminate.
  - destruct (isWhiteSpace x); [exact IH | discriminate].
Qed.

Lemma not_blank (c : N) (rest : jsstring) :
  isWhiteSpace c = false -> blank (c :: rest) = false.
Proof.
  intros Hc. unfold blank. cbn [truthy negb orb].
  apply jsstring_eqb_neq. unfold trim. cbn [trimStart]. rewrite Hc.
  unfold trimEnd. intros H.
  apply (f_equal (@List.rev N)) in H. rewrite List.rev_involutive in H.
  cbn [List.rev] in H. revert H. apply trimStart_keeps_last. exact Hc.
Qed.

Lemma digitsValue_digits (s : jsstring) :
  List.forallb isDigit s = true ->
  forall acc, (0 <= acc)%Z ->
    exists n, digitsValue acc s = Some n /\ (0 <= n)%Z.
Proof.
  induction s as [|c s IH]; intros Hs acc Hacc; cbn [digitsValue].
  - eauto.
  - cbn [List.forallb] in Hs. apply andb_true_iff in Hs. destruct Hs as [Hc Hs].
    rewrite Hc. apply IH; [exact Hs|]. apply digit_bounds in Hc. lia.
Qed.

Lemma split_digits (s : jsstring) :
  List.forallb isDigit s = true -> split 46 s = [s].
Proof.
  induction s as [|c s IH]; intros Hs; [reflexivity|].
  cbn [List.forallb] in Hs. apply andb_true_iff in Hs. destruct Hs as [Hc Hs].
  cbn [split]. apply digit_bounds in Hc.
  replace (N.eqb c 46) with false by (symmetry; apply N.eqb_neq; lia).
  rewrite IH by exact Hs. reflexivity.
Qed.

Lemma split_digits_point (s f : jsstring) :
  List.forallb isDigit s = true -> List.forallb isDigit f = true ->
  split 46 (s ++ 46%N :: f) = [s; f].
Proof.
  intros Hs Hf. induction s as [|c s IH].
  - cbn [List.app split]. rewrite N.eqb_refl. rewrite split_digits by exact Hf.
    reflexivity.
  - cbn [List.forallb] in Hs. apply andb_true_iff in Hs. destruct Hs as [Hc Hs].
    cbn [List.app split]. apply digit_bounds in Hc.
    replace (N.eqb c 46) with false by (symmetry; apply N.eqb_neq; lia).
    rewrite IH by exact Hs. reflexivity.
Qed.

(** An amount of the shape, taken apart: digits, then nothing or a point
    and one or two digits. *)
Lemma digitsThenFraction_parts (s : jsstring) :
  digitsThenFraction s = true ->
  exists ds fs,
    s = (ds ++ fs)%list /\ List.forallb isDigit ds = true
    /\ fractionShape fs = true.
Proof.
  induction s as [|c s IH]; cbn [digitsThenFraction].
  - intros _. exists [], []. auto.
  - rewrite orb_true_iff. intros [H | H].
    + exists [], (c :: s). auto.
    + apply andb_true_iff in H. destruct H as [Hc Hs].
      destruct (IH Hs) as (ds & fs & -> & Hds & Hfs).
      exists (c :: ds), fs. cbn [List.forallb]. rewrite Hc, Hds. auto.
Qed.

Lemma amountShape_parts (v : jsstring) :
  amountShape v = true ->
  exists c ds fs,
    v = (c :: ds ++ fs)%list /\ isDigit c = true
    /\ List.forallb isDigit ds = true /\ fractionShape fs = true.
Proof.
  destruct v as [|c rest]; [discriminate|]. unfold amountShape.
  rewrite orb_true_iff, !andb_true_iff. intros [[Hc Hf] | [Hc Hd]].
  - exists c, [], rest. apply N.eqb_eq in Hc. subst c. auto.
  - destruct (digitsThenFraction_parts rest Hd) as (ds & fs & -> & Hds & Hfs).
    exists c, ds, fs. split; [reflexivity|]. split; [|auto].
    apply range_bounds in Hc. apply digit_bounds. lia.
Qed.

Local Open Scope Q_scope.

(** The value [parseFloat] reads from a string of the amount shape: a
    whole number of hundredths, not negative. *)
Lemma parseFloat_amountShape (v : jsstring) :
  amountShape v = true ->
  exists (q : Q) (n : Z),
    parseFloat v = Some q /\ (0 <= n)%Z /\ q == n # 100.
Proof.
  intros H. destruct (amountShape_parts v H) as (c & ds & fs & -> & Hc & Hds & Hfs).
  assert (Hint : List.forallb isDigit (c :: ds) = true).
  { cbn [List.forallb]. rewrite Hc, Hds. reflexivity. }
  destruct (digitsValue_digits (c :: ds) Hint 0%Z ltac:(lia)) as (i & Hi & Hi0).
  unfold parseFloat.
  change (code ".") with 46%N.
  destruct fs as [|p [|d1 [|d2 [|d3 fs]]]]; try discriminate.
  - rewrite List.app_nil_r.
    rewrite split_digits by exact Hint. change (Number (Some (c :: ds))) with (digitsValue 0 (c :: ds)). rewrite Hi.
    exists (inject_Z i), (100 * i)%Z. split; [reflexivity|]. split; [lia|].
    unfold inject_Z, Qeq. simpl. lia.
  - cbn [fractionShape] in Hfs. apply andb_true_iff in Hfs.
    destruct Hfs as [Hp Hd1]. apply N.eqb_eq in Hp. subst p.
    change (c :: ds ++ [46%N; d1])%list with ((c :: ds) ++ 46%N :: [d1])%list.
    rewrite split_digits_point
      by (try exact Hint; cbn [List.forallb]; rewrite Hd1; reflexivity).
    change (Number (Some (c :: ds))) with (digitsValue 0 (c :: ds)). rewrite Hi. cbn [digitsValue List.length]. rewrite Hd1.
    apply digit_bounds in Hd1.
    eexists. exists (100 * i + 10 * (Z.of_N d1 - 48))%Z.
    split; [reflexivity|]. split; [lia|].
    change (10 ^ Z.of_nat 1)%Z with 10%Z.
    rewrite (Qmake_Qdiv _ 100). rewrite !inject_Z_plus, !inject_Z_mult.
    replace (10 * 0 + (Z.of_N d1 - 48))%Z with (Z.of_N d1 - 48)%Z by lia.
    field.
  - cbn [fractionShape] in Hfs. rewrite !andb_true_iff in Hfs.
    destruct Hfs as [[Hp Hd1] Hd2]. apply N.eqb_eq in Hp. subst p.
    change (c :: ds ++ [46%N; d1; d2])%list
      with ((c :: ds) ++ 46%N :: [d1; d2])%list.
    rewrite split_digits_point
      by (try exact Hint; cbn [List.forallb]; rewrite Hd1, Hd2; reflexivity).
    change (Number (Some (c :: ds))) with (digitsValue 0 (c :: ds)). rewrite Hi. cbn [digitsValue List.length].
    rewrite Hd1, Hd2. apply digit_bounds in Hd1, Hd2.
    eexists.
    exists (100 * i + (10 * (Z.of_N d1 - 48) + (Z.of_N d2 - 48)))%Z.
    split; [reflexivity|]. split; [lia|].
    change (10 ^ Z.of_nat 2)%Z with 100%Z.
    rewrite (Qmake_Qdiv _ 100). rewrite !inject_Z_plus, !inject_Z_mult.
    replace (10 * (10 * 0 + (Z.of_N d1 - 48)) + (Z.of_N d2 - 48))%Z
      with (10 * (Z.of_N d1 - 48) + (Z.of_N d2 - 48))%Z by lia.
    rewrite !inject_Z_plus, !inject_Z_mult. field.
Qed.

Lemma hundredths_not_negative (q : Q) (n : Z) :
  (0 <= n)%Z -> q == n # 100 -> 0 <= q.
Proof.
  intros Hn Hq. rewrite Hq. unfold Qle. simpl. lia.
Qed.

(** X11. [validateAmount] accepts exactly the texts made of [0] or a run of
    digits not beginning with 0, followed by nothing or by a point and one
    or two digits.  The decimal an accepted text denotes is not negative,
    and the binary64 number nearest to it, which [parseFloat] returns, is
    not below zero; so the check for a negative amount never gives its
    message. *)
Theorem validateAmount_accepts_exactly :
  (forall v, test REGEX_amount v = amountShape v)
  /\ (forall v, validateAmount v = accept <-> amountShape v = true)
  /\ (forall v, validateAmount v = accept ->
        exists q : Q,
          parseFloat v = Some q /\ 0 <= q
          /\ Binary64.ltb (Binary64.ofQ q) Binary64.zero = false)
  /\ (forall v, validateAmount v <> reject MSG_amount_negative).
Proof.
  assert (Hiff : forall v, validateAmount v = accept <-> amountShape v = true).
  { intros v. unfold validateAmount. rewrite test_REGEX_amount.
    destruct (amountShape v) eqn:Hs.
    - destruct (amountShape_parts v Hs) as (c & ds & fs & -> & Hc & _).
      rewrite not_blank by (apply digit_not_space, Hc). cbn [negb].
      destruct (parseFloat_amountShape _ Hs) as (q & n & Hq & Hn & Hqn).
      rewrite Hq.
      replace (JsNumber.ltb q 0) with false
        by (symmetry; apply ltb_ge; apply (hundredths_not_negative q n Hn Hqn)).
      tauto.
    - cbn [negb]. destruct (blank v); split; discriminate. }
  split; [exact test_REGEX_amount|]. split; [exact Hiff|]. split.
  - intros v Hv.
    destruct (parseFloat_amountShape v (proj1 (Hiff v) Hv))
      as (q & n & Hq & Hn & Hqn).
    pose proof (hundredths_not_negative q n Hn Hqn) as Hq0.
    exists q. split; [exact Hq|]. split; [exact Hq0|].
    apply ofQ_not_negative. exact Hq0.
  - intros v. unfold validateAmount. rewrite test_REGEX_amount.
    destruct (blank v); [discriminate|].
    destruct (amountShape v) eqn:Hs; cbn [negb]; [|discriminate].
    destruct (parseFloat_amountShape _ Hs) as (q & n & Hq & Hn & Hqn).
    rewrite Hq.
    replace (JsNumber.ltb q 0) with false
      by (symmetry; apply ltb_ge; apply (hundredths_not_negative q n Hn Hqn)).
    discriminate.
Qed.

End AmountFacts.

(** ** The category pattern *)

Lemma set_matches_letter (c : N) :
  set_matches false [CRange 65 90; CRange 97 122] c = isLetter c.
Proof.
  unfold set_matches. cbn [set_has List.existsb item_has andb orb].
  rewrite !orb_false_r. reflexivity.
Qed.

Lemma set_matches_separator (c : N) :
  set_matches false [CChar 32; CChar 45] c = isSeparator c.
Proof.
  unfold set_matches. cbn [set_has List.existsb item_has andb orb].
  rewrite !orb_false_r. reflexivity.
Qed.

Lemma reachN_star (p : N -> bool) (c : nat -> bool) (suffix : jsstring)
    (i : nat) :
  reachN p c suffix i 0 None = reach p c suffix i.
Proof.
  revert i. induction suffix as [|ch rest IH]; intros i;
    cbn [reachN reach Nat.eqb Nat.pred option_map].
  - apply orb_comm.
  - rewrite IH. apply orb_comm.
Qed.

Lemma reach_words (Input suffix : jsstring) :
  forall i,
    List.skipn i Input = suffix ->
    reach (set_matches false [CRange 65 90; CRange 97 122])
      (fun k => afterWord (List.skipn k Input)) suffix i
    = wordsFrom true suffix.
Proof.
  induction suffix as [|ch rest IH]; intros i Hs.
  - cbn [reach wordsFrom]. rewrite Hs. reflexivity.
  - destruct (nth_error_skipn_cons _ _ _ _ Hs) as [Hn Hs'].
    cbn [reach wordsFrom]. rewrite Hs, (IH (S i) Hs'), set_matches_letter.
    cbn [afterWord andb]. apply orb_comm.
Qed.

Lemma category_tail (Input : jsstring) :
  forall (fuel k : nat) (suffix : jsstring) (caps : nat -> option (nat * nat)),
    List.skipn k Input = suffix ->
    List.length Input = k + List.length suffix ->
    List.length suffix < fuel ->
    succeeds
      (repeatMatcher fuel (compile Input false categoryBody) 0 None true []
         (RegExp.mkState k caps)
         (fun y => if Nat.eqb (endIndex y) (List.length Input) then Some y
                   else None))
    = afterWord suffix.
Proof.
  induction fuel as [|f IH]; intros k suffix caps Hs Hlen Hf; [lia|].
  cbn [repeatMatcher Nat.eqb negb]. rewrite succeeds_or_else.
  cbn [endIndex captures].
  change (clear_captures caps []) with caps.
  destruct suffix as [|c s'].
  - unfold categoryBody. cbn [compile]. unfold charSetMatcher at 1, charAt.
    cbn [endIndex]. rewrite (nth_error_skipn_nil _ _ Hs).
    index_tests. reflexivity.
  - destruct (nth_error_skipn_cons _ _ _ _ Hs) as [Hn Hs'].
    replace (Nat.eqb k (List.length Input)) with false
      by (symmetry; apply Nat.eqb_neq; simpl in Hlen; lia).
    cbn [succeeds]. rewrite orb_false_r.
    unfold categoryBody. cbn [compile groups].
    unfold charSetMatcher at 1. unfold charAt. cbn [endIndex captures].
    rewrite Hn, set_matches_separator. cbn [afterWord].
    destruct (isSeparator c); cbn [Bool.eqb andb]; [|reflexivity].
    rewrite (charset_repeat Input _ _ s' _ (S k) 1 None _ Hs')
      by (simpl in Hlen; lia).
    destruct s' as [|l s'']; [reflexivity|].
    destruct (nth_error_skipn_cons _ _ _ _ Hs') as [Hn' Hs''].
    cbn [reachN Nat.eqb Nat.pred option_map wordsFrom andb].
    rewrite orb_false_r, set_matches_letter. f_equal.
    rewrite reachN_star.
    rewrite <- (reach_words Input s'' (S (S k)) Hs'').
    apply reach_ext. intros j Hj. cbn [endIndex captures].
    replace (Nat.eqb j k) with false by (symmetry; apply Nat.eqb_neq; lia).
    cbn [andb].
    apply IH; [reflexivity | |].
    + rewrite List.length_skipn. simpl in *. lia.
    + rewrite List.length_skipn. simpl in *. lia.
Qed.

Lemma test_REGEX_category (v : jsstring) :
  test REGEX_category v = categoryShape v.
Proof.
  change REGEX_category
    with (mkRegExp
            (Seq AssertStart
               (Seq (Quant (Class false [CRange 65 90; CRange 97 122]) 1 None
                       true)
                    (Seq (Quant categoryBody 0 None true) AssertEnd)))
            false false).
  rewrite test_anchored.
  pose proof (category_tail v) as Htail.
  assert (Hg : groups categoryBody = []) by reflexivity.
  remember categoryBody as body eqn:Ebody. clear Ebody.
  unfold matchAt. cbn [compile]. cbn [endIndex Nat.eqb groups].
  match goal with
  | |- match ?r with Some _ => true | None => false end = _ =>
      change (succeeds r = categoryShape v)
  end.
  rewrite (charset_repeat v _ _ v _ 0 1 None _ eq_refl) by lia.
  destruct v as [|c rest]; [reflexivity|].
  cbn [reachN Nat.eqb Nat.pred option_map].
  unfold categoryShape. cbn [wordsFrom andb]. rewrite orb_false_r.
  rewrite set_matches_letter. f_equal. rewrite reachN_star.
  rewrite <- (reach_words (c :: rest) rest 1 eq_refl).
  apply reach_ext. intros j Hj. cbn [endIndex captures]. rewrite Hg.
  apply Htail; [reflexivity | |].
  - rewrite List.length_skipn. simpl in *. lia.
  - rewrite List.length_skipn. simpl in *. lia.
Qed.

Lemma wordsFrom_letters_and_separators (s : jsstring) :
  forall afterLetter,
    wordsFrom afterLetter s = true ->
    List.forallb (fun c => isLetter c || isSeparator c) s = true.
Proof.
  induction s as [|c s IH]; intros b; [reflexivity|].
  cbn [wordsFrom List.forallb].
  rewrite orb_true_iff, !andb_true_iff. intros [[Hc Hs] | [[_ Hc] Hs]].
  - rewrite Hc. cbn [orb]. split; [reflexivity | exact (IH _ Hs)].
  - rewrite Hc, orb_true_r. split; [reflexivity | exact (IH _ Hs)].
Qed.

Lemma wordsFrom_ends_with_letter (s : jsstring) :
  forall afterLetter,
    wordsFrom afterLetter s = true -> s <> [] ->
    isLetter (List.last s 0%N) = true.
Proof.
  induction s as [|c s IH]; intros b H Hne; [congruence|].
  cbn [wordsFrom] in H. rewrite orb_true_iff, !andb_true_iff in H.
  destruct s as [|c2 s'].
  - cbn [List.last]. destruct H as [[Hc _] | [_ Hs]]; [exact Hc | discriminate].
  - change (List.last (c :: c2 :: s') 0%N) with (List.last (c2 :: s') 0%N).
    destruct H as [[_ Hs] | [_ Hs]]; apply (IH _ Hs); discriminate.
Qed.

Lemma letter_not_space (c : N) : isLetter c = true -> isWhiteSpace c = false.
Proof.
  unfold isLetter, isUpper, isLower. rewrite orb_true_iff, !range_bounds.
  intros H. unfold isWhiteSpace, inRange.
  repeat match goal with
         | |- context [N.eqb c ?k] =>
             replace (N.eqb c k) with false by (symmetry; apply N.eqb_neq; lia)
         end.
  replace (N.leb c 13) with false by (symmetry; apply N.leb_gt; lia).
  replace (N.leb 8192 c) with false by (symmetry; apply N.leb_gt; lia).
  rewrite !andb_false_r. reflexivity.
Qed.

Lemma letter_not_digit (c : N) : isLetter c = true -> isDigit c = false.
Proof.
  unfold isLetter, isUpper, isLower. rewrite orb_true_iff, !range_bounds.
  intros H. unfold isDigit, inRange.
  replace (N.leb c 57) with false by (symmetry; apply N.leb_gt; lia).
  apply andb_false_r.
Qed.

(** X12. [validateCategory] accepts exactly the texts made of words of the
    letters A to Z and a to z with a single space or hyphen between
    neighbouring words.  An accepted text is not empty, begins and ends with
    a letter and is not an array index; [constructor], the name of a member
    of [Object.prototype], is accepted. *)
Theorem validateCategory_accepts_exactly :
  (forall v, test REGEX_category v = categoryShape v)
  /\ (forall v, validateCategory v = accept <-> categoryShape v = true)
  /\ (forall v, validateCategory v = accept ->
        v <> []
        /\ isLetter (List.hd 0%N v) = true
        /\ isLetter (List.last v 0%N) = true
        /\ List.forallb (fun c => isLetter c || isSeparator c) v = true
        /\ arrayIndex v = None)
  /\ validateCategory (js "constructor") = accept
  /\ inherited (js "constructor") = true.
Proof.
  assert (Hiff : forall v, validateCategory v = accept <-> categoryShape v = true).
  { intros v. unfold validateCategory. rewrite test_REGEX_category.
    destruct v as [|c rest]; [split; discriminate|].
    unfold categoryShape. cbn [wordsFrom andb]. rewrite orb_false_r.
    destruct (isLetter c) eqn:Hc; cbn [andb].
    - rewrite not_blank by (apply letter_not_space, Hc).
      destruct (wordsFrom true rest); cbn [negb]; split;
        try discriminate; reflexivity.
    - cbn [negb]. destruct (blank (c :: rest)); split; discriminate. }
  split; [exact test_REGEX_category|]. split; [exact Hiff|].
  split; [|split; vm_compute; reflexivity].
  intros v Hv. apply Hiff in Hv. unfold categoryShape in Hv.
  destruct v as [|c rest]; [discriminate|].
  split; [discriminate|].
  assert (Hc : isLetter c = true).
  { cbn [wordsFrom andb] in Hv. rewrite orb_false_r in Hv.
    apply andb_true_iff in Hv. tauto. }
  split; [exact Hc|].
  split; [apply (wordsFrom_ends_with_letter _ _ Hv); discriminate|].
  split; [apply (wordsFrom_letters_and_separators _ _ Hv)|].
  unfold arrayIndex.
  destruct (N.eqb c 48 && negb (JsString.eqb rest [])); [reflexivity|].
  cbn [digitsValue]. rewrite (letter_not_digit c Hc). reflexivity.
Qed.

(** ** The daily totals *)




Lemma eqb_sym (a b : jsstring) : JsString.eqb a b = JsString.eqb b a.
Proof.
  destruct (JsString.eqb a b) eqn:E.
  - apply jsstring_eqb_eq in E. subst. symmetry. apply jsstring_eqb_refl.
  - apply jsstring_eqb_neq in E. symmetry. apply jsstring_eqb_neq. congruence.
Qed.








(** ** Adding, changing and deleting records *)

Section RecordFacts.
Import Tracker.

Lemma getFrom_findIndex (wanted : jsstring) (l : list Transaction) :
  getFrom wanted l
  = match findIndex wanted l with
    | Some i => l !! i
    | None => None
    end.
Proof.
  induction l as [|t rest IH]; [reflexivity|]. cbn [getFrom findIndex].
  destruct (JsString.eqb (id t) wanted); [reflexivity|].
  rewrite IH. destruct (findIndex wanted rest); reflexivity.
Qed.

(** The first record with the identifier splits the sequence. *)
Lemma findIndex_split (wanted : jsstring) (l : list Transaction) (i : nat) :
  findIndex wanted l = Some i ->
  exists before t after,
    l = (before ++ t :: after)%list /\ List.length before = i
    /\ id t = wanted
    /\ List.Forall (fun x => id x <> wanted) before.
Proof.
  revert i. induction l as [|t rest IH]; intros i; [discriminate|].
  cbn [findIndex]. destruct (JsString.eqb (id t) wanted) eqn:E.
  - intros [= <-]. apply jsstring_eqb_eq in E.
    exists [], t, rest. auto.
  - destruct (findIndex wanted rest) as [j|]; [|discriminate].
    intros [= <-]. destruct (IH j eq_refl) as (b & x & a & -> & Hlen & Hx & Hb).
    exists (t :: b), x, a. cbn [List.app List.length].
    split; [reflexivity|]. split; [lia|]. split; [exact Hx|].
    constructor; [apply jsstring_eqb_neq, E | exact Hb].
Qed.

Lemma findIndex_none (wanted : jsstring) (l : list Transaction) :
  findIndex wanted l = None <-> List.Forall (fun x => id x <> wanted) l.
Proof.
  induction l as [|t rest IH]; cbn [findIndex].
  - split; [constructor | reflexivity].
  - destruct (JsString.eqb (id t) wanted) eqn:E.
    + apply jsstring_eqb_eq in E. split; [discriminate|].
      intros H. inversion H; subst. congruence.
    + apply jsstring_eqb_neq in E.
      destruct (findIndex wanted rest) as [j|].
      * split; [discriminate|]. intros H. inversion H; subst.
        apply IH in H3. discriminate.
      * split; [|reflexivity]. intros _. constructor; [exact E|].
        apply IH. reflexivity.
Qed.

Lemma getFrom_app_skip (wanted : jsstring) (before rest : list Transaction) :
  List.Forall (fun x => id x <> wanted) before ->
  getFrom wanted (before ++ rest) = getFrom wanted rest.
Proof.
  induction 1 as [|x b Hx Hb IH]; [reflexivity|].
  cbn [List.app getFrom]. apply jsstring_eqb_neq in Hx. rewrite Hx. exact IH.
Qed.

Lemma getFrom_other_app (other : jsstring) (before after : list Transaction)
    (t : Transaction) :
  id t <> other ->
  getFrom other (before ++ t :: after) = getFrom other (before ++ after).
Proof.
  intros Ht. induction before as [|x b IH]; cbn [List.app getFrom].
  - apply jsstring_eqb_neq in Ht. rewrite Ht. reflexivity.
  - rewrite IH. reflexivity.
Qed.

Lemma getFrom_other_replace (other : jsstring)
    (before after : list Transaction) (t u : Transaction) :
  id t <> other -> id u <> other ->
  getFrom other (before ++ t :: after) = getFrom other (before ++ u :: after).
Proof.
  intros Ht Hu. rewrite !getFrom_other_app by assumption. reflexivity.
Qed.

Lemma getFrom_none_absent (wanted : jsstring) (l : list Transaction) :
  ~ In wanted (List.map id l) -> getFrom wanted l = None.
Proof.
  induction l as [|t rest IH]; [reflexivity|]. cbn [List.map getFrom].
  intros H. destruct (JsString.eqb (id t) wanted) eqn:E.
  - apply jsstring_eqb_eq in E. exfalso. apply H. left. exact E.
  - apply IH. intros Hin. apply H. right. exact Hin.
Qed.


Section Crud.
Variable JSON_stringify : json -> jsstring.
Variable quotaExceeded : Storage.LocalStorage -> jsstring -> jsstring -> bool.

Lemma saveTransactions_stored (w : World) (l : list Transaction) :
  stored JSON_stringify quotaExceeded w l (saveTransactions JSON_stringify quotaExceeded w l).
Proof.
  unfold stored, saveTransactions, Storage.saveTransactions, Storage.saveItem,
    Storage.setItem.
  destruct (quotaExceeded _ _ _); reflexivity.
Qed.

(** X14. [addTransaction] puts the new record at the front of the
    transactions: its identifier is the generated one, its description the
    trimmed text, its amount what [parseFloat] reads, both time stamps the
    current time.  [getTransaction] with the new identifier then returns it,
    every other identifier is found as before, and the store holds the text
    of the new sequence unless the write fails. *)
Theorem addTransaction_then_getTransaction
    (Number_toString : Q -> jsstring) (generatedId now : jsstring)
    (formData : Form.FormData) (w w' : World) (t : Transaction) :
  addTransaction JSON_stringify quotaExceeded Number_toString generatedId now
    formData w = Some (w', t) ->
  transactions w' = t :: transactions w
  /\ id t = generatedId
  /\ description t = trim (Form.description formData)
  /\ parseFloat (amountArgument Number_toString (Form.amount formData))
     = Some (amount t)
  /\ category t = Form.category formData
  /\ date t = Form.date formData
  /\ createdAt t = now /\ updatedAt t = now
  /\ getTransaction generatedId w' = Some t
  /\ (forall other, other <> generatedId ->
        getTransaction other w' = getTransaction other w)
  /\ stored JSON_stringify quotaExceeded w (transactions w') (localStorage w')
  /\ arrays w' = arrays w /\ categories w' = categories w
  /\ budgetCap w' = budgetCap w /\ editingId w' = editingId w.
Proof.
  unfold addTransaction.
  destruct (parseFloat _) as [number|] eqn:Hp; [|discriminate].
  intros [= <- <-]. cbn.
  rewrite jsstring_eqb_refl.
  repeat split; try reflexivity.
  - intros other Hne. unfold getTransaction. cbn.
    replace (JsString.eqb generatedId other) with false
      by (symmetry; apply jsstring_eqb_neq; congruence).
    reflexivity.
  - apply saveTransactions_stored.
Qed.


Lemma NoDup_ids_split (before after : list Transaction) (t : Transaction) :
  List.NoDup (List.map id (before ++ t :: after)) ->
  List.NoDup (List.map id (before ++ after))
  /\ ~ In (id t) (List.map id (before ++ after)).
Proof.
  rewrite !List.map_app. cbn [List.map]. intros H.
  split; [exact (List.NoDup_remove_1 _ _ _ H)
         | exact (List.NoDup_remove_2 _ _ _ H)].
Qed.

Lemma delete_middle (before after : list Transaction) (t : Transaction) :
  delete (List.length before) (before ++ t :: after) = (before ++ after)%list.
Proof.
  induction before as [|x b IH]; [reflexivity|].
  cbn [List.app List.length]. cbn. f_equal. exact IH.
Qed.

Lemma insert_middle (before after : list Transaction) (t u : Transaction) :
  <[List.length before := u]> (before ++ t :: after)
  = (before ++ u :: after)%list.
Proof.
  induction before as [|x b IH]; [reflexivity|].
  cbn [List.app List.length]. cbn. f_equal. exact IH.
Qed.

Lemma lookup_middle (before after : list Transaction) (t : Transaction) :
  (before ++ t :: after) !! List.length before = Some t.
Proof.
  induction before as [|x b IH]; [reflexivity|]. exact IH.
Qed.

Lemma lookup_middle_eq (l before after : list Transaction) (t : Transaction) :
  l = (before ++ t :: after)%list -> l !! List.length before = Some t.
Proof. intros ->. apply lookup_middle. Qed.

(** X15. [deleteTransaction] returns false and changes nothing when no
    record has the identifier; otherwise it takes out the first record with
    that identifier, keeps the others in order and saves the sequence.
    Other identifiers are found as before; when the identifiers are distinct
    the deleted one is no longer found. *)
Theorem deleteTransaction_removes_first (wanted : jsstring) (w : World) :
  let after := deleteTransaction JSON_stringify quotaExceeded wanted w in
  (getTransaction wanted w = None -> after = (w, false))
  /\ (forall t, getTransaction wanted w = Some t ->
        snd after = true
        /\ id t = wanted
        /\ exists before behind,
             transactions w = (before ++ t :: behind)%list
             /\ List.Forall (fun x => id x <> wanted) before
             /\ transactions (fst after) = (before ++ behind)%list
             /\ stored JSON_stringify quotaExceeded w (before ++ behind)%list (localStorage (fst after)))
  /\ (forall other, other <> wanted ->
        getTransaction other (fst after) = getTransaction other w)
  /\ (List.NoDup (List.map id (transactions w)) ->
        getTransaction wanted (fst after) = None
        /\ List.NoDup (List.map id (transactions (fst after))))
  /\ arrays (fst after) = arrays w
  /\ categories (fst after) = categories w
  /\ budgetCap (fst after) = budgetCap w
  /\ editingId (fst after) = editingId w.
Proof.
  unfold getTransaction, deleteTransaction. rewrite getFrom_findIndex.
  destruct (findIndex wanted (transactions w)) as [i|] eqn:Hi.
  - destruct (findIndex_split _ _ _ Hi) as (b & x & a & Hl & Hlen & Hx & Hb).
    subst i. cbn [fst snd transactions arrays categories budgetCap editingId
                  localStorage].
    rewrite Hl, lookup_middle, delete_middle.
    split; [discriminate|]. split.
    { intros t [= <-]. split; [reflexivity|]. split; [exact Hx|].
      exists b, a. split; [reflexivity|]. split; [exact Hb|].
      split; [reflexivity|]. apply saveTransactions_stored. }
    split.
    { intros other Hne. symmetry. apply getFrom_other_app. congruence. }
    split; [|auto].
    intros Hnd. apply NoDup_ids_split in Hnd. destruct Hnd as [Hnd Hnot].
    split; [|exact Hnd]. apply getFrom_none_absent. rewrite <- Hx. exact Hnot.
  - cbn [fst snd]. split; [reflexivity|]. split; [discriminate|].
    split; [reflexivity|]. split; [|auto].
    intros Hnd. split; [|exact Hnd].
    rewrite getFrom_findIndex, Hi. reflexivity.
Qed.

Lemma getFrom_split (wanted : jsstring) (l : list Transaction)
    (t : Transaction) :
  getFrom wanted l = Some t ->
  exists before behind,
    l = (before ++ t :: behind)%list
    /\ List.Forall (fun x => id x <> wanted) before
    /\ id t = wanted
    /\ findIndex wanted l = Some (List.length before).
Proof.
  rewrite getFrom_findIndex.
  destruct (findIndex wanted l) as [i|] eqn:Hi; [|discriminate].
  destruct (findIndex_split _ _ _ Hi) as (b & x & a & Hl & Hlen & Hx & Hb).
  subst i. rewrite (lookup_middle_eq _ b a x Hl). intros [= <-].
  exists b, a. auto.
Qed.

Lemma updateTransaction_absent (Number_toString : Q -> jsstring)
    (wanted now : jsstring) (formData : Form.FormData) (w : World) :
  getTransaction wanted w = None ->
  updateTransaction JSON_stringify quotaExceeded Number_toString wanted now
    formData w = Some (w, None).
Proof.
  unfold getTransaction, updateTransaction. rewrite getFrom_findIndex.
  destruct (findIndex wanted (transactions w)) as [i|] eqn:Hi; [|reflexivity].
  destruct (findIndex_split _ _ _ Hi) as (b & x & a & Hl & Hlen & Hx & Hb).
  subst i. rewrite (lookup_middle_eq _ b a x Hl). discriminate.
Qed.


Lemma updateTransaction_found (Number_toString : Q -> jsstring)
    (wanted now : jsstring) (formData : Form.FormData) (w : World)
    (original : Transaction) (number : Q) :
  getTransaction wanted w = Some original ->
  parseFloat (amountArgument Number_toString (Form.amount formData))
  = Some number ->
  exists before behind,
    transactions w = (before ++ original :: behind)%list
    /\ List.Forall (fun x => id x <> wanted) before
    /\ id original = wanted
    /\ updateTransaction JSON_stringify quotaExceeded Number_toString wanted
         now formData w
       = Some (mkWorld
                 (saveTransactions JSON_stringify quotaExceeded w
                    (before ++ updatedRecord original formData number now
                       :: behind)%list)
                 (arrays w)
                 (before ++ updatedRecord original formData number now
                    :: behind)%list
                 (categories w) (budgetCap w) (editingId w),
               Some (updatedRecord original formData number now)).
Proof.
  intros Hget Hp. unfold getTransaction in Hget.
  destruct (getFrom_split _ _ _ Hget) as (b & a & Hl & Hb & Hx & Hi).
  exists b, a. split; [exact Hl|]. split; [exact Hb|]. split; [exact Hx|].
  unfold updateTransaction. rewrite Hi, (lookup_middle_eq _ b a original Hl), Hp.
  fold (updatedRecord original formData number now).
  rewrite Hl at 1 2. rewrite !insert_middle. reflexivity.
Qed.

(** X16. [updateTransaction] returns [null] and changes nothing when no
    record has the identifier; otherwise it replaces the first such record,
    in its place, by one with the same identifier and creation time, the
    values of the form and the current time as update time, and saves the
    sequence.  [getTransaction] then returns the new record and finds every
    other identifier as before. *)
Theorem updateTransaction_keeps_identity
    (Number_toString : Q -> jsstring) (wanted now : jsstring)
    (formData : Form.FormData) (w : World) :
  (getTransaction wanted w = None ->
   updateTransaction JSON_stringify quotaExceeded Number_toString wanted now
     formData w = Some (w, None))
  /\ (forall original number,
        getTransaction wanted w = Some original ->
        parseFloat (amountArgument Number_toString (Form.amount formData))
        = Some number ->
        exists w' updated before behind,
          updateTransaction JSON_stringify quotaExceeded Number_toString
            wanted now formData w = Some (w', Some updated)
          /\ transactions w = (before ++ original :: behind)%list
          /\ List.Forall (fun x => id x <> wanted) before
          /\ transactions w' = (before ++ updated :: behind)%list
          /\ updated
             = mkTransaction (id original) (trim (Form.description formData))
                 number (Form.category formData) (Form.date formData)
                 (createdAt original) now
          /\ getTransaction wanted w' = Some updated
          /\ (forall other, other <> wanted ->
                getTransaction other w' = getTransaction other w)
          /\ stored JSON_stringify quotaExceeded w (transactions w') (localStorage w')
          /\ arrays w' = arrays w /\ categories w' = categories w
          /\ budgetCap w' = budgetCap w /\ editingId w' = editingId w).
Proof.
  split; [apply updateTransaction_absent|].
  intros original number Hget Hp.
  destruct (updateTransaction_found Number_toString wanted now formData w
              original number Hget Hp) as (b & a & Hl & Hb & Hx & Hup).
  eexists _, _, b, a. split; [exact Hup|].
  cbn [transactions localStorage arrays categories budgetCap editingId].
  split; [exact Hl|]. split; [exact Hb|]. split; [reflexivity|].
  split; [reflexivity|]. split.
  { unfold getTransaction. cbn [transactions].
    rewrite getFrom_app_skip by exact Hb. cbn [getFrom updatedRecord id].
    rewrite Hx, jsstring_eqb_refl. reflexivity. }
  split.
  { intros other Hne. unfold getTransaction. cbn [transactions]. rewrite Hl.
    apply getFrom_other_replace; cbn [updatedRecord id]; congruence. }
  split; [apply saveTransactions_stored|]. auto.
Qed.

End Crud.

End RecordFacts.

(** A lunch of 12.50 added to the state of a page with nothing saved: the
    record is found under its identifier, alone in the list, with the
    description trimmed. *)
Lemma addTransaction_then_getTransaction_witness :
  exists w' t,
    Tracker.addTransaction HostJson.JSON_stringify HostJson.noQuota
      Host.Number_toString (js "txn_abc") (js "2025-01-20T10:00:00.000Z")
      lunchForm freshWorld = Some (w', t)
    /\ Tracker.getTransaction (js "txn_abc") w' = Some t
    /\ Tracker.transactions w' = [t]
    /\ description t = js "Lunch".
Proof.
  destruct (Tracker.addTransaction HostJson.JSON_stringify HostJson.noQuota
              Host.Number_toString (js "txn_abc")
              (js "2025-01-20T10:00:00.000Z") lunchForm freshWorld)
    as [[w' t]|] eqn:Hrun; [|vm_compute in Hrun; discriminate].
  exists w', t. split; [reflexivity|].
  destruct (addTransaction_then_getTransaction HostJson.JSON_stringify
              HostJson.noQuota Host.Number_toString _ _ _ _ _ _ Hrun)
    as (Hl & _ & Hd & _ & _ & _ & _ & _ & Hget & _).
  split; [exact Hget|]. split; [exact Hl | exact Hd].
Defined.

(** ** Categories and clearing *)

Section CategoryFacts.
Import Tracker.




Lemma existsb_eqb_mem (x : jsstring) (l : list jsstring) :
  List.existsb (JsString.eqb x) l = true <-> In x l.
Proof.
  rewrite List.existsb_exists. split.
  - intros (y & Hy & E). apply jsstring_eqb_eq in E. subst. exact Hy.
  - intros H. exists x. split; [exact H | apply jsstring_eqb_refl].
Qed.

Lemma indexOf_removeFirst (x : jsstring) (l : list jsstring) :
  match indexOf x l with
  | Some i => delete i l = removeFirst x l /\ In x l
  | None => ~ In x l /\ removeFirst x l = l
  end.
Proof.
  induction l as [|y rest IH]; cbn [indexOf removeFirst].
  - split; [intros [] | reflexivity].
  - destruct (JsString.eqb y x) eqn:E.
    + apply jsstring_eqb_eq in E. subst. split; [reflexivity | left; reflexivity].
    + apply jsstring_eqb_neq in E. destruct (indexOf x rest) as [i|]; cbn.
      * destruct IH as [IH1 IH2]. split; [f_equal; exact IH1 | right; exact IH2].
      * destruct IH as [IH1 IH2]. split; [|f_equal; exact IH2].
        intros [H | H]; [congruence | contradiction].
Qed.

Lemma removeFirst_appended (x : jsstring) (l : list jsstring) :
  ~ In x l -> removeFirst x (l ++ [x]) = l.
Proof.
  induction l as [|y rest IH]; intros H; cbn [List.app removeFirst].
  - rewrite jsstring_eqb_refl. reflexivity.
  - replace (JsString.eqb y x) with false
      by (symmetry; apply jsstring_eqb_neq; intros ->; apply H; left; reflexivity).
    f_equal. apply IH. intros Hin. apply H. right. exact Hin.
Qed.

Section Categories.
Variable JSON_stringify : json -> jsstring.
Variable quotaExceeded : Storage.LocalStorage -> jsstring -> jsstring -> bool.

Lemma categoryList_updated (w : World) (store : Storage.LocalStorage)
    (l : list jsstring) :
  categoryList
    (mkWorld store (<[categories w := l]> (arrays w)) (transactions w)
       (categories w) (budgetCap w) (editingId w)) = l.
Proof.
  unfold categoryList. cbn [arrays categories].
  rewrite lookup_insert_eq. reflexivity.
Qed.

Lemma removeCategory_spec (other : jsstring) (w : World) :
  let removed := removeCategory JSON_stringify quotaExceeded other w in
  (snd removed = false <-> ~ In other (categoryList w))
  /\ (snd removed = false -> fst removed = w)
  /\ (snd removed = true ->
      categoryList (fst removed) = removeFirst other (categoryList w))
  /\ categories (fst removed) = categories w
  /\ transactions (fst removed) = transactions w.
Proof.
  cbn zeta. unfold removeCategory.
  pose proof (indexOf_removeFirst other (categoryList w)) as H.
  destruct (indexOf other (categoryList w)) as [i|]; cbn [fst snd].
  - destruct H as [H1 H2]. rewrite categoryList_updated.
    split; [split; [discriminate | contradiction]|].
    split; [discriminate|]. split; [intros _; exact H1|]. auto.
  - destruct H as [H1 H2]. split; [tauto|]. split; [reflexivity|].
    split; [discriminate|]. auto.
Qed.

(** X17. [addCategory] refuses a name that is empty once trimmed or that is
    in the list already, and changes nothing then; otherwise it appends the
    trimmed name, which keeps a list without repetition so, and
    [removeCategory] of that name gives the list back.  [removeCategory]
    returns false exactly for a name that is not in the list, and otherwise
    takes out its first occurrence. *)
Theorem addCategory_then_removeCategory (name : jsstring) (w : World) :
  let added := addCategory JSON_stringify quotaExceeded name w in
  (snd added = false <-> trim name = [] \/ In (trim name) (categoryList w))
  /\ (snd added = false -> fst added = w)
  /\ (snd added = true ->
      categoryList (fst added) = (categoryList w ++ [trim name])%list
      /\ categories (fst added) = categories w
      /\ transactions (fst added) = transactions w
      /\ (List.NoDup (categoryList w) -> List.NoDup (categoryList (fst added)))
      /\ snd (removeCategory JSON_stringify quotaExceeded (trim name)
                (fst added)) = true
      /\ categoryList
           (fst (removeCategory JSON_stringify quotaExceeded (trim name)
                   (fst added)))
         = categoryList w)
  /\ (forall other,
        let removed := removeCategory JSON_stringify quotaExceeded other w in
        (snd removed = false <-> ~ In other (categoryList w))
        /\ (snd removed = false -> fst removed = w)
        /\ (snd removed = true ->
            categoryList (fst removed) = removeFirst other (categoryList w))).
Proof.
  cbn zeta.
  assert (Hremove : forall other,
    (snd (removeCategory JSON_stringify quotaExceeded other w) = false
     <-> ~ In other (categoryList w))
    /\ (snd (removeCategory JSON_stringify quotaExceeded other w) = false ->
        fst (removeCategory JSON_stringify quotaExceeded other w) = w)
    /\ (snd (removeCategory JSON_stringify quotaExceeded other w) = true ->
        categoryList (fst (removeCategory JSON_stringify quotaExceeded other w))
        = removeFirst other (categoryList w))).
  { intros other.
    destruct (removeCategory_spec other w) as (H1 & H2 & H3 & _). auto. }
  unfold addCategory.
  destruct (trim name) as [|c rest] eqn:Ht; cbn [truthy negb fst snd].
  { split; [split; auto|]. split; [reflexivity|].
    split; [discriminate | exact Hremove]. }
  destruct (List.existsb (JsString.eqb (c :: rest)) (categoryList w)) eqn:Hin;
    cbn [fst snd].
  { apply existsb_eqb_mem in Hin. split; [split; auto|].
    split; [reflexivity|]. split; [discriminate | exact Hremove]. }
  assert (Hnot : ~ In (c :: rest) (categoryList w)).
  { intros H. apply existsb_eqb_mem in H. congruence. }
  split.
  { split; [discriminate|]. intros [H | H]; [discriminate | contradiction]. }
  split; [discriminate|]. split; [|exact Hremove].
  intros _.
  set (w' := mkWorld _ _ _ _ _ _).
  assert (Hl : categoryList w' = (categoryList w ++ [c :: rest])%list)
    by apply categoryList_updated.
  split; [exact Hl|]. split; [reflexivity|]. split; [reflexivity|].
  split.
  { intros Hnd. rewrite Hl.
    apply List.NoDup_app;
      [exact Hnd | repeat constructor; intros []
      | intros x Hx [<- | []]; contradiction]. }
  destruct (removeCategory_spec (c :: rest) w') as (H1 & H2 & H3 & _).
  cbn zeta in *.
  destruct (snd (removeCategory JSON_stringify quotaExceeded (c :: rest) w'))
    eqn:E.
  - split; [reflexivity|]. rewrite H3 by reflexivity. rewrite Hl.
    apply removeFirst_appended. exact Hnot.
  - exfalso. apply (proj1 H1 eq_refl). rewrite Hl.
    apply List.in_or_app. right. left. reflexivity.
Qed.

End Categories.


Lemma cleared_lookup (store : Storage.LocalStorage) (k : jsstring) :
  fst (Storage.clearAllData store) !! k
  = if List.existsb (JsString.eqb k) storageKeys then None else store !! k.
Proof.
  unfold Storage.clearAllData, Storage.removeItem, storageKeys,
    Storage.LocalStorage in *.
  cbn [fst List.existsb].
  destruct (JsString.eqb k Storage.KEY_BUDGET_CAP) eqn:E4.
  { apply jsstring_eqb_eq in E4. subst k. rewrite lookup_delete_eq.
    rewrite !orb_true_r. reflexivity. }
  apply jsstring_eqb_neq in E4. rewrite lookup_delete_ne by congruence.
  destruct (JsString.eqb k Storage.KEY_CATEGORIES) eqn:E3.
  { apply jsstring_eqb_eq in E3. subst k. rewrite lookup_delete_eq.
    rewrite !orb_true_r. reflexivity. }
  apply jsstring_eqb_neq in E3. rewrite lookup_delete_ne by congruence.
  destruct (JsString.eqb k Storage.KEY_SETTINGS) eqn:E2.
  { apply jsstring_eqb_eq in E2. subst k. rewrite lookup_delete_eq.
    rewrite !orb_true_r. reflexivity. }
  apply jsstring_eqb_neq in E2. rewrite lookup_delete_ne by congruence.
  destruct (JsString.eqb k Storage.KEY_TRANSACTIONS) eqn:E1.
  { apply jsstring_eqb_eq in E1. subst k. rewrite lookup_delete_eq.
    reflexivity. }
  apply jsstring_eqb_neq in E1. rewrite lookup_delete_ne by congruence.
  reflexivity.
Qed.

Section Clearing.
Variable JSON_parse : jsstring -> option json.

Lemma loadCategoriesRef_nothing_saved (w : World) :
  localStorage w !! Storage.KEY_CATEGORIES = None ->
  loadCategoriesRef JSON_parse w = Some (arrays w, defaultCategories).
Proof.
  intros H. unfold loadCategoriesRef, Storage.loadCategories,
    Storage.parsedItem, Storage.getItem. rewrite H. reflexivity.
Qed.

Lemma loadCategoriesRef_keeps_default (w : World) (l : list jsstring)
    (arrays' : gmap nat (list jsstring)) (r : nat) :
  arrays w !! defaultCategories = Some l ->
  loadCategoriesRef JSON_parse w = Some (arrays', r) ->
  arrays' !! defaultCategories = Some l.
Proof.
  intros Hl. unfold loadCategoriesRef.
  destruct (Storage.loadCategories JSON_parse (localStorage w)) as [v|].
  - destruct (stringsOf v) as [l'|]; [|discriminate].
    intros [= <- <-]. rewrite lookup_insert_ne; [exact Hl|].
    intros Heq. apply (is_fresh (dom (arrays w))). rewrite Heq.
    apply elem_of_dom. eauto.
  - intros [= <- <-]. exact Hl.
Qed.


Lemma clearAllData_spec (w w1 : World) :
  clearAllData JSON_parse w = Some w1 ->
  loadCategoriesRef JSON_parse w = Some (arrays w1, categories w1)
  /\ (forall k, localStorage w1 !! k
                = if List.existsb (JsString.eqb k) storageKeys
                  then None else localStorage w !! k).
Proof.
  unfold clearAllData.
  destruct (loadCategoriesRef JSON_parse w) as [[arrays' r]|]; [|discriminate].
  intros [= <-]. cbn [arrays categories localStorage].
  split; [reflexivity | apply cleared_lookup].
Qed.


End Clearing.

(** X19. With no categories saved, [initializeState] makes the categories of
    the state the array [DEFAULT_CATEGORIES] itself, so [addCategory] and
    [removeCategory] change that array; [clearAllData] run twice ends on
    that array as it then is.  Starting with nothing saved, adding [Pets]
    and clearing all data twice leaves seven categories, [Pets] among the
    defaults. *)
Theorem default_categories_are_one_array
    (JSON_parse : jsstring -> option json) (JSON_stringify : json -> jsstring)
    (quotaExceeded : Storage.LocalStorage -> jsstring -> jsstring -> bool) :
  (forall w w1,
     localStorage w !! Storage.KEY_CATEGORIES = None ->
     initializeState JSON_parse w = Some w1 ->
     categories w1 = defaultCategories /\ arrays w1 = arrays w)
  /\ (forall w name,
        categories w = defaultCategories ->
        snd (addCategory JSON_stringify quotaExceeded name w) = true ->
        arrays (fst (addCategory JSON_stringify quotaExceeded name w))
          !! defaultCategories
        = Some (categoryList w ++ [trim name])%list)
  /\ (forall w other,
        categories w = defaultCategories ->
        snd (removeCategory JSON_stringify quotaExceeded other w) = true ->
        arrays (fst (removeCategory JSON_stringify quotaExceeded other w))
          !! defaultCategories
        = Some (removeFirst other (categoryList w)))
  /\ (forall w l w1 w2,
        arrays w !! defaultCategories = Some l ->
        clearAllData JSON_parse w = Some w1 ->
        clearAllData JSON_parse w1 = Some w2 ->
        categories w2 = defaultCategories /\ categoryList w2 = l)
  /\ List.length Storage.DEFAULT_CATEGORIES = 6
  /\ clearedTwice = Some (Storage.DEFAULT_CATEGORIES ++ [js "Pets"])%list.
Proof.
  split.
  { intros w w1 Hnone. unfold initializeState.
    rewrite (loadCategoriesRef_nothing_saved JSON_parse w Hnone).
    destruct (transactionsOf _); [|discriminate].
    destruct (Storage.loadBudgetCap _); [|discriminate].
    intros [= <-]. split; reflexivity. }
  split.
  { intros w name Hc. unfold addCategory.
    destruct (negb (truthy (trim name))); [discriminate|].
    destruct (List.existsb _ _); [discriminate|].
    intros _. cbn [fst arrays]. rewrite Hc. rewrite lookup_insert_eq.
    reflexivity. }
  split.
  { intros w other Hc. unfold removeCategory.
    pose proof (indexOf_removeFirst other (categoryList w)) as H.
    destruct (indexOf other (categoryList w)) as [i|]; [|discriminate].
    intros _. cbn [fst arrays]. rewrite Hc, lookup_insert_eq.
    destruct H as [-> _]. reflexivity. }
  split.
  { intros w l w1 w2 Hl H1 H2.
    destruct (clearAllData_spec JSON_parse w w1 H1) as (Hload & Hstore).
    pose proof (loadCategoriesRef_keeps_default JSON_parse w l _ _ Hl Hload)
      as Hl1.
    destruct (clearAllData_spec JSON_parse w1 w2 H2) as (Hload2 & _).
    rewrite loadCategoriesRef_nothing_saved in Hload2
      by (rewrite Hstore; reflexivity).
    injection Hload2 as Ha Hc.
    split; [symmetry; exact Hc|].
    unfold categoryList. rewrite <- Hc, <- Ha, Hl1. reflexivity. }
  split; vm_compute; reflexivity.
Qed.

End CategoryFacts.

(** ** Checking an imported file *)

Section ImportCheckFacts.
Import Tracker.





Section ImportFacts.
Variable Number_toString : Q -> jsstring.
Variable nullReadMessage : jsstring.

Lemma read_record (t : Transaction) :
  read (toJson t) "id" = Some (JString (id t))
  /\ read (toJson t) "description" = Some (JString (description t))
  /\ read (toJson t) "amount" = Some (JNumber (amount t))
  /\ read (toJson t) "category" = Some (JString (category t))
  /\ read (toJson t) "date" = Some (JString (date t))
  /\ read (toJson t) "createdAt" = Some (JString (createdAt t))
  /\ read (toJson t) "updatedAt" = Some (JString (updatedAt t)).
Proof. repeat split; reflexivity. Qed.

Lemma checkTransaction_record (t : Transaction) :
  ImportCheck.checkTransaction Number_toString (toJson t)
  = if importable t then ImportCheck.Passes
    else ImportCheck.Fails (firstProblem t).
Proof.
  destruct (read_record t) as (H1 & H2 & H3 & H4 & H5 & H6 & H7).
  unfold ImportCheck.checkTransaction, importable, firstProblem.
  change (match toJson t with
          | JNull => ImportCheck.ThrowsTypeError
          | _ => ?x
          end) with x.
  rewrite H1, H2, H3, H4, H5, H6, H7.
  cbn [truthyValue isString isNumber ImportCheck.toText].
  rewrite test_REGEX_date.
  destruct (truthy (id t)); cbn [negb orb andb]; [|reflexivity].
  destruct (truthy (description t)); cbn [negb orb andb]; [|reflexivity].
  destruct (JsNumber.ltb (amount t) 0); cbn [negb orb andb]; [reflexivity|].
  destruct (truthy (category t)); cbn [negb orb andb]; [|reflexivity].
  destruct (isoDateShape (date t)) eqn:Hs; cbn [negb orb andb];
    [|rewrite orb_true_r; reflexivity].
  replace (truthy (date t)) with true
    by (destruct (date t); [discriminate Hs | reflexivity]).
  cbn [negb orb].
  destruct (truthy (createdAt t)); cbn [negb orb andb]; [|reflexivity].
  destruct (truthy (updatedAt t)); reflexivity.
Qed.

Lemma checkFrom_records (l : list Transaction) :
  forall i,
    (List.forallb importable l = true ->
     ImportCheck.checkFrom Number_toString nullReadMessage i
       (List.map toJson l)
     = mkValidation true ImportCheck.MSG_good)
    /\ (forall good bad rest,
          l = (good ++ bad :: rest)%list ->
          List.forallb importable good = true ->
          importable bad = false ->
          ImportCheck.checkFrom Number_toString nullReadMessage i
            (List.map toJson l)
          = reject (js "Transaction "
                      ++ decimal (Z.of_nat (i + List.length good + 1))
                      ++ js (firstProblem bad))%list).
Proof.
  induction l as [|t l IH]; intros i.
  - split; [reflexivity|]. intros [|? ?] ? ? H; discriminate.
  - cbn [List.map ImportCheck.checkFrom List.forallb].
    rewrite checkTransaction_record. split.
    + intros H. apply andb_true_iff in H. destruct H as [Ht Hl].
      rewrite Ht. apply (IH (S i)). exact Hl.
    + intros [|g good] bad rest Hl Hgood Hbad.
      * cbn [List.app] in Hl. injection Hl as -> ->. rewrite Hbad.
        cbn [List.length]. rewrite Nat.add_0_r. reflexivity.
      * cbn [List.app] in Hl. injection Hl as -> ->.
        cbn [List.forallb] in Hgood. apply andb_true_iff in Hgood.
        destruct Hgood as [Hg Hgood]. rewrite Hg.
        rewrite (proj2 (IH (S i)) good bad rest eq_refl Hgood Hbad).
        cbn [List.length]. do 4 f_equal. lia.
Qed.

Lemma forallb_split {A : Type} (p : A -> bool) (l : list A) :
  List.forallb p l = false ->
  exists good bad rest,
    l = (good ++ bad :: rest)%list /\ List.forallb p good = true
    /\ p bad = false.
Proof.
  induction l as [|x l IH]; [discriminate|]. cbn [List.forallb].
  destruct (p x) eqn:Hx; cbn [andb].
  - intros H. destruct (IH H) as (g & b & r & -> & Hg & Hb).
    exists (x :: g), b, r. cbn [List.forallb]. rewrite Hx. auto.
  - intros _. exists [], x, l. auto.
Qed.

(** X20. [validateImportData] passes a file of records exactly when every
    record has non-empty identifier, description, category and time stamps,
    an amount that is not negative and a date of the form of the date
    pattern; otherwise the message names the position of the first record
    that fails and the first check it fails.  A value that is not an object,
    or has no array under [transactions], is refused with the messages for
    that, and a [null] in the list gives the text of the TypeError.  The
    check is weaker than the validators of the form: a record dated 30
    February with a description beginning with a space and the category
    [123] passes. *)
Theorem validateImportData_checks :
  (forall l others,
     valid (ImportCheck.validateImportData Number_toString nullReadMessage
              (fileOf l others)) = true
     <-> List.forallb importable l = true)
  /\ (forall l others good bad rest,
        l = (good ++ bad :: rest)%list ->
        List.forallb importable good = true ->
        importable bad = false ->
        ImportCheck.validateImportData Number_toString nullReadMessage
          (fileOf l others)
        = reject (js "Transaction "
                    ++ decimal (Z.of_nat (List.length good + 1))
                    ++ js (firstProblem bad))%list)
  /\ (forall data,
        isObjectType (Some data) = false \/ data = JNull ->
        ImportCheck.validateImportData Number_toString nullReadMessage data
        = reject ImportCheck.MSG_not_json)
  /\ (forall data,
        isObjectType (Some data) = true -> data <> JNull ->
        isArray (read data "transactions") = false ->
        ImportCheck.validateImportData Number_toString nullReadMessage data
        = reject ImportCheck.MSG_no_list)
  /\ (forall before behind others,
        List.Forall
          (fun item =>
             ImportCheck.checkTransaction Number_toString item
             = ImportCheck.Passes) before ->
        ImportCheck.validateImportData Number_toString nullReadMessage
          (JObject ((js "transactions", JArray (before ++ JNull :: behind))
                      :: others))
        = reject (js "Validation error: " ++ nullReadMessage)%list)
  /\ importable thirtiethOfFebruary = true
  /\ validateDate (date thirtiethOfFebruary) = reject MSG_date_unreal
  /\ validateDescription (description thirtiethOfFebruary)
     = reject MSG_description_invalid
  /\ validateCategory (category thirtiethOfFebruary)
     = reject MSG_category_invalid.
Proof.
  assert (Hfile : forall l others,
    ImportCheck.validateImportData Number_toString nullReadMessage
      (fileOf l others)
    = ImportCheck.checkFrom Number_toString nullReadMessage 0
        (List.map toJson l)).
  { reflexivity. }
  split.
  { intros l others. rewrite Hfile.
    destruct (List.forallb importable l) eqn:Hall.
    - rewrite (proj1 (checkFrom_records l 0) Hall). split; reflexivity.
    - destruct (forallb_split _ _ Hall) as (g & b & r & Hl & Hg & Hb).
      rewrite (proj2 (checkFrom_records l 0) g b r Hl Hg Hb).
      split; discriminate. }
  split.
  { intros l others good bad rest Hl Hg Hb. rewrite Hfile.
    apply (proj2 (checkFrom_records l 0) good bad rest Hl Hg Hb). }
  split.
  { intros data [H | ->]; [|reflexivity].
    destruct data; try discriminate H; try reflexivity.
    all: unfold ImportCheck.validateImportData.
    all: cbn [isObjectType negb orb].
    all: rewrite orb_true_r; reflexivity. }
  split.
  { intros data Hobj Hnull Harr.
    unfold ImportCheck.validateImportData. rewrite Hobj, Harr.
    destruct data; try discriminate Hobj; try congruence.
    all: cbn [truthyValue negb orb]; rewrite orb_true_r; reflexivity. }
  split.
  { intros before behind others Hbefore.
    change (ImportCheck.validateImportData Number_toString nullReadMessage
              (JObject ((js "transactions", JArray (before ++ JNull :: behind))
                          :: others)))
      with (ImportCheck.checkFrom Number_toString nullReadMessage 0
              (before ++ JNull :: behind)).
    generalize 0. induction Hbefore as [|x b Hx Hb IH]; intros i.
    - reflexivity.
    - cbn [List.app ImportCheck.checkFrom]. rewrite Hx. apply IH. }
  repeat split; vm_compute; reflexivity.
Qed.

End ImportFacts.

End ImportCheckFacts.

(** ** Saving an imported file *)

Section StoreFacts.
Variable JSON_stringify : json -> jsstring.
Variable quotaExceeded : Storage.LocalStorage -> jsstring -> jsstring -> bool.
Variable Number_toString : Q -> jsstring.

Lemma saveItem_lookup (store : Storage.LocalStorage) (key text k : jsstring) :
  fst (Storage.saveItem quotaExceeded store key text) !! k
  = if quotaExceeded store key text then store !! k
    else if JsString.eqb key k then Some text else store !! k.
Proof.
  unfold Storage.saveItem, Storage.setItem, Storage.LocalStorage in *.
  destruct (quotaExceeded store key text); [reflexivity|]. cbn [fst].
  destruct (JsString.eqb key k) eqn:E.
  - apply jsstring_eqb_eq in E. subst. apply lookup_insert_eq.
  - apply jsstring_eqb_neq in E. apply lookup_insert_ne. exact E.
Qed.

Lemma saveItem_other (store : Storage.LocalStorage) (key text k : jsstring) :
  key <> k -> fst (Storage.saveItem quotaExceeded store key text) !! k = store !! k.
Proof.
  intros H. rewrite saveItem_lookup.
  destruct (quotaExceeded store key text); [reflexivity|].
  apply jsstring_eqb_neq in H. rewrite H. reflexivity.
Qed.

Lemma saveItem_full (store : Storage.LocalStorage) (key text : jsstring) :
  quotaExceeded store key text = true ->
  fst (Storage.saveItem quotaExceeded store key text) = store.
Proof.
  intros H. unfold Storage.saveItem, Storage.setItem. rewrite H. reflexivity.
Qed.

Lemma stage_other (cond : bool) (v : value) (key k : jsstring)
    (enc : json -> jsstring) (s : Storage.LocalStorage) :
  key <> k ->
  (if cond
   then match v with
        | Some x => fst (Storage.saveItem quotaExceeded s key (enc x))
        | None => s
        end
   else s) !! k = s !! k.
Proof.
  intros H. destruct cond; [|reflexivity]. destruct v; [|reflexivity].
  apply saveItem_other. exact H.
Qed.

Lemma stage_own (cond : bool) (v : value) (key : jsstring)
    (enc : json -> jsstring) (s : Storage.LocalStorage) :
  (forall s' k' v', quotaExceeded s' k' v' = false) ->
  (if cond
   then match v with
        | Some x => fst (Storage.saveItem quotaExceeded s key (enc x))
        | None => s
        end
   else s) !! key
  = if cond then match v with
                 | Some x => Some (enc x)
                 | None => s !! key
                 end
    else s !! key.
Proof.
  intros H. destruct cond; [|reflexivity]. destruct v; [|reflexivity].
  rewrite saveItem_lookup, H, jsstring_eqb_refl. reflexivity.
Qed.

Lemma stage_full (cond : bool) (v : value) (key : jsstring)
    (enc : json -> jsstring) (s : Storage.LocalStorage) :
  (forall s' k' v', quotaExceeded s' k' v' = true) ->
  (if cond
   then match v with
        | Some x => fst (Storage.saveItem quotaExceeded s key (enc x))
        | None => s
        end
   else s) = s.
Proof.
  intros H. destruct cond; [|reflexivity]. destruct v; [|reflexivity].
  apply saveItem_full. apply H.
Qed.


Lemma importData_container (store : Storage.LocalStorage) (data : json) :
  isContainer data = true ->
  Storage.importData JSON_stringify quotaExceeded Number_toString store data
  = (let store1 :=
       if truthyValue (read data "transactions")
          && isArray (read data "transactions")
       then match read data "transactions" with
            | Some x => fst (Storage.saveItem quotaExceeded store
                               Storage.KEY_TRANSACTIONS (JSON_stringify x))
            | None => store
            end
       else store in
     let store2 :=
       if truthyValue (read data "settings")
          && isObjectType (read data "settings")
       then match read data "settings" with
            | Some x => fst (Storage.saveItem quotaExceeded store1
                               Storage.KEY_SETTINGS (JSON_stringify x))
            | None => store1
            end
       else store1 in
     let store3 :=
       if truthyValue (read data "categories")
          && isArray (read data "categories")
       then match read data "categories" with
            | Some x => fst (Storage.saveItem quotaExceeded store2
                               Storage.KEY_CATEGORIES (JSON_stringify x))
            | None => store2
            end
       else store2 in
     let store4 :=
       if isNumber (read data "budgetCap")
       then match read data "budgetCap" with
            | Some x =>
                fst (Storage.saveItem quotaExceeded store3
                       Storage.KEY_BUDGET_CAP
                       (match x with
                        | JNumber cap => Number_toString cap
                        | _ => []
                        end))
            | None => store3
            end
       else store3 in
     (store4,
      Storage.mkImportResult true (js "Data imported successfully"))).
Proof.
  intros Hc. unfold Storage.importData.
  replace (negb (truthyValue (Some data)) || negb (isObjectType (Some data)))
    with false by (destruct data; try discriminate Hc; reflexivity).
  cbv zeta. f_equal.
  unfold Storage.saveBudgetCap, Storage.saveCategories, Storage.saveSettings,
    Storage.saveTransactions.
  destruct (read data "budgetCap") as [[]|]; reflexivity.
Qed.

Lemma importData_transactions_key (store : Storage.LocalStorage)
    (data : json) :
  (forall s k v, quotaExceeded s k v = false) ->
  isContainer data = true ->
  fst (Storage.importData JSON_stringify quotaExceeded Number_toString store
         data) !! Storage.KEY_TRANSACTIONS
  = (if isArray (read data "transactions")
     then option_map JSON_stringify (read data "transactions")
     else store !! Storage.KEY_TRANSACTIONS).
Proof.
  intros Hfree Hc.
  rewrite (importData_container store data Hc). cbv zeta. cbn [fst].
  rewrite !stage_other by discriminate. rewrite stage_own by exact Hfree.
  destruct (read data "transactions") as [[]|];
    cbn [truthyValue isArray andb]; rewrite ?andb_false_r; reflexivity.
Qed.

(** X21. [importData] of storage.js reports success exactly for an array or
    an object.  It writes under no key but the four of the application; when
    every write fails the store is unchanged and success is reported all the
    same; when writes succeed each key takes the text of the member of its
    name if that member has the wanted kind, and keeps its old text
    otherwise. *)
Theorem importData_saves_what_is_there (store : Storage.LocalStorage)
    (data : json) :
  let result :=
    Storage.importData JSON_stringify quotaExceeded Number_toString store
      data in
  Storage.success (snd result) = isContainer data
  /\ (isContainer data = false ->
      result = (store, Storage.mkImportResult false (js "Invalid data format")))
  /\ (forall k, ~ In k storageKeys -> fst result !! k = store !! k)
  /\ ((forall s k v, quotaExceeded s k v = true) -> fst result = store)
  /\ ((forall s k v, quotaExceeded s k v = false) ->
      isContainer data = true ->
      fst result !! Storage.KEY_TRANSACTIONS
      = (if isArray (read data "transactions")
         then option_map JSON_stringify (read data "transactions")
         else store !! Storage.KEY_TRANSACTIONS)
      /\ fst result !! Storage.KEY_SETTINGS
         = (if truthyValue (read data "settings")
               && isObjectType (read data "settings")
            then option_map JSON_stringify (read data "settings")
            else store !! Storage.KEY_SETTINGS)
      /\ fst result !! Storage.KEY_CATEGORIES
         = (if isArray (read data "categories")
            then option_map JSON_stringify (read data "categories")
            else store !! Storage.KEY_CATEGORIES)
      /\ fst result !! Storage.KEY_BUDGET_CAP
         = match read data "budgetCap" with
           | Some (JNumber cap) => Some (Number_toString cap)
           | _ => store !! Storage.KEY_BUDGET_CAP
           end).
Proof.
  cbn zeta.
  destruct (isContainer data) eqn:Hc.
  2: { assert (Hr : Storage.importData JSON_stringify quotaExceeded
                      Number_toString store data
                    = (store, Storage.mkImportResult false
                                (js "Invalid data format"))).
       { unfold Storage.importData.
         replace (negb (truthyValue (Some data))
                  || negb (isObjectType (Some data))) with true; [reflexivity|].
         destruct data; try discriminate Hc; cbn [isObjectType negb];
           rewrite ?orb_true_r; reflexivity. }
       rewrite Hr. cbn [fst snd Storage.success].
       split; [reflexivity|]. split; [reflexivity|]. split; [reflexivity|].
       split; [reflexivity|]. intros _ H. discriminate H. }
  rewrite (importData_container store data Hc). cbv zeta. cbn [fst snd].
  split; [reflexivity|]. split; [discriminate|]. split.
  { intros k Hk.
    assert (Hne : forall key, In key storageKeys -> key <> k)
      by (intros key Hin ->; contradiction).
    rewrite !stage_other; [reflexivity|apply Hne..]; vm_compute; tauto. }
  split.
  { intros Hfull. rewrite !stage_full by exact Hfull. reflexivity. }
  intros Hfree _.
  split; [|split; [|split]].
  - pose proof (importData_transactions_key store data Hfree Hc) as Hkey.
    rewrite (importData_container store data Hc) in Hkey. exact Hkey.
  - rewrite !stage_other by discriminate. rewrite stage_own by exact Hfree.
    rewrite stage_other by discriminate.
    destruct (read data "settings") as [[]|]; try reflexivity.
    all: cbn [truthyValue isObjectType andb];
      match goal with |- context [if ?c then _ else _] => destruct c end;
      reflexivity.
  - rewrite !stage_other by discriminate. rewrite stage_own by exact Hfree.
    rewrite !stage_other by discriminate.
    destruct (read data "categories") as [[]|];
      cbn [truthyValue isArray andb]; rewrite ?andb_false_r; reflexivity.
  - rewrite stage_own by exact Hfree. rewrite !stage_other by discriminate.
    destruct (read data "budgetCap") as [[]|]; reflexivity.
Qed.

End StoreFacts.

(** ** Saving and reloading *)

Section ReloadFacts.
Import Tracker.




Lemma fromJson_toJson (t : Transaction) : fromJson (toJson t) = Some t.
Proof. destruct t. reflexivity. Qed.

Lemma transactionsOf_transactionsJson (l : list Transaction) :
  transactionsOf (transactionsJson l) = Some l.
Proof.
  unfold transactionsOf, transactionsJson.
  induction l as [|t l IH]; cbn [List.map allOf]; [reflexivity|].
  rewrite fromJson_toJson, IH. reflexivity.
Qed.

Section Reload.
Variable JSON_parse : jsstring -> option json.
Variable JSON_stringify : json -> jsstring.
Variable quotaExceeded : Storage.LocalStorage -> jsstring -> jsstring -> bool.
Variable Number_toString : Q -> jsstring.

Lemma loadTransactions_saved (store : Storage.LocalStorage)
    (l : list Transaction) :
  JSON_parse [] = None ->
  JSON_parse (JSON_stringify (transactionsJson l)) = Some (transactionsJson l) ->
  store !! Storage.KEY_TRANSACTIONS = Some (JSON_stringify (transactionsJson l)) ->
  transactionsOf (Storage.loadTransactions JSON_parse store) = Some l.
Proof.
  intros Hempty Hround Hstore.
  unfold Storage.loadTransactions, Storage.parsedItem, Storage.getItem.
  rewrite Hstore.
  destruct (JSON_stringify (transactionsJson l)) as [|c text] eqn:E;
    [congruence|].
  cbn [truthy]. rewrite Hround. apply transactionsOf_transactionsJson.
Qed.

(** X28. [addTransaction], [updateTransaction] and [deleteTransaction] leave
    the state with the new sequence and the store as [saveTransactions]
    leaves it.  When [JSON.parse] reads back what [JSON.stringify] wrote and
    the write succeeds, [loadTransactions] reads exactly the new sequence
    from the store; when the write fails the store is as it was, and
    [loadTransactions] reads what it read before the change. *)
Theorem saved_transactions_reload (w : World) (l : list Transaction) :
  JSON_parse [] = None ->
  JSON_parse (JSON_stringify (transactionsJson l)) = Some (transactionsJson l) ->
  let w' := savedChange JSON_stringify quotaExceeded w l in
  (quotaExceeded (localStorage w) Storage.KEY_TRANSACTIONS
     (JSON_stringify (transactionsJson l)) = false ->
   localStorage w' !! Storage.KEY_TRANSACTIONS
   = Some (JSON_stringify (transactionsJson l))
   /\ transactionsOf
        (Storage.loadTransactions JSON_parse (localStorage w'))
      = Some l)
  /\ (quotaExceeded (localStorage w) Storage.KEY_TRANSACTIONS
        (JSON_stringify (transactionsJson l)) = true ->
      localStorage w' = localStorage w
      /\ Storage.loadTransactions JSON_parse (localStorage w')
         = Storage.loadTransactions JSON_parse (localStorage w))
  /\ (forall generatedId now formData w1 t,
        addTransaction JSON_stringify quotaExceeded Number_toString
          generatedId now formData w = Some (w1, t) ->
        w1 = savedChange JSON_stringify quotaExceeded w (transactions w1))
  /\ (forall wanted now formData w1 updated,
        updateTransaction JSON_stringify quotaExceeded Number_toString
          wanted now formData w = Some (w1, Some updated) ->
        w1 = savedChange JSON_stringify quotaExceeded w (transactions w1))
  /\ (forall wanted,
        snd (deleteTransaction JSON_stringify quotaExceeded wanted w) = true ->
        fst (deleteTransaction JSON_stringify quotaExceeded wanted w)
        = savedChange JSON_stringify quotaExceeded w
            (transactions
               (fst (deleteTransaction JSON_stringify quotaExceeded wanted w)))).
Proof.
  intros Hempty Hround. cbn zeta.
  pose proof (saveTransactions_stored JSON_stringify quotaExceeded w l)
    as Hstored.
  unfold stored in Hstored. cbn zeta in Hstored.
  split.
  { intros Hq. rewrite Hq in Hstored.
    assert (Hkey : localStorage (savedChange JSON_stringify quotaExceeded w l)
                     !! Storage.KEY_TRANSACTIONS
                   = Some (JSON_stringify (transactionsJson l))).
    { unfold savedChange. cbn [localStorage]. rewrite Hstored.
      unfold Storage.LocalStorage. apply lookup_insert_eq. }
    split; [exact Hkey|].
    apply loadTransactions_saved; [exact Hempty | exact Hround | exact Hkey]. }
  split.
  { intros Hq. rewrite Hq in Hstored.
    unfold savedChange. cbn [localStorage]. split; [exact Hstored|].
    rewrite Hstored. reflexivity. }
  split.
  { intros generatedId now formData w1 t. unfold addTransaction.
    destruct (parseFloat _); [|discriminate]. intros [= <- _]. reflexivity. }
  split.
  { intros wanted now formData w1 updated. unfold updateTransaction.
    destruct (findIndex wanted (transactions w)); [|discriminate].
    destruct (transactions w !! n); [|discriminate].
    destruct (parseFloat _); [|discriminate]. intros [= <- _]. reflexivity. }
  intros wanted. unfold deleteTransaction.
  destruct (findIndex wanted (transactions w)); [|discriminate].
  intros _. reflexivity.
Qed.

(** X29. [importData] of storage.js on a file with the records [l] under
    [transactions], when the writes succeed and [JSON.parse] reads back what
    [JSON.stringify] wrote: success is reported, the text of [l] is what
    the store holds for the transactions, and [loadTransactions], through
    which the state is then initialised again, reads exactly [l].  The
    transactions stored before are replaced, not merged. *)
Theorem importData_then_load (l : list Transaction)
    (others : list (jsstring * json)) (store : Storage.LocalStorage) :
  JSON_parse [] = None ->
  JSON_parse (JSON_stringify (transactionsJson l)) = Some (transactionsJson l) ->
  (forall s k v, quotaExceeded s k v = false) ->
  let result :=
    Storage.importData JSON_stringify quotaExceeded Number_toString
      store (fileOf l others) in
  Storage.success (snd result) = true
  /\ fst result !! Storage.KEY_TRANSACTIONS
     = Some (JSON_stringify (transactionsJson l))
  /\ transactionsOf (Storage.loadTransactions JSON_parse (fst result))
     = Some l.
Proof.
  intros Hempty Hround Hfree. cbn zeta.
  assert (Hc : isContainer (fileOf l others) = true) by reflexivity.
  assert (Hkey : fst (Storage.importData JSON_stringify quotaExceeded
                        Number_toString store (fileOf l others))
                   !! Storage.KEY_TRANSACTIONS
                 = Some (JSON_stringify (transactionsJson l))).
  { rewrite (importData_transactions_key JSON_stringify quotaExceeded
               Number_toString store _ Hfree Hc).
    unfold fileOf, read, field, member. rewrite jsstring_eqb_refl.
    reflexivity. }
  split.
  { rewrite (importData_container JSON_stringify quotaExceeded Number_toString
               store _ Hc). reflexivity. }
  split; [exact Hkey|].
  apply loadTransactions_saved; [exact Hempty | exact Hround | exact Hkey].
Qed.

End Reload.

(** The sample array is saved from a page with nothing saved and read
    back as it was. *)
Lemma saved_transactions_reload_witness :
  HostJson.JSON_parse [] = None
  /\ HostJson.JSON_parse (HostJson.JSON_stringify (transactionsJson sampleArray))
     = Some (transactionsJson sampleArray)
  /\ transactionsOf
       (Storage.loadTransactions HostJson.JSON_parse (localStorage sampleSaved))
     = Some sampleArray.
Proof.
  assert (H1 : HostJson.JSON_parse [] = None) by reflexivity.
  assert (H2 : HostJson.JSON_parse
                 (HostJson.JSON_stringify (transactionsJson sampleArray))
               = Some (transactionsJson sampleArray))
    by (vm_compute; reflexivity).
  split; [exact H1|]. split; [exact H2|].
  destruct (saved_transactions_reload HostJson.JSON_parse
              HostJson.JSON_stringify HostJson.noQuota Host.Number_toString
              freshWorld sampleArray H1 H2) as [H _].
  exact (proj2 (H eq_refl)).
Defined.

(** A file with the sample array is imported into an empty store: the
    transactions read from the store are the sample array. *)
Lemma importData_then_load_witness :
  HostJson.JSON_parse [] = None
  /\ HostJson.JSON_parse (HostJson.JSON_stringify (transactionsJson sampleArray))
     = Some (transactionsJson sampleArray)
  /\ (forall (s : Storage.LocalStorage) (k v : jsstring),
        HostJson.noQuota s k v = false)
  /\ transactionsOf
       (Storage.loadTransactions HostJson.JSON_parse
          (fst (Storage.importData HostJson.JSON_stringify HostJson.noQuota
                  Host.Number_toString (localStorage freshWorld)
                  (fileOf sampleArray []))))
     = Some sampleArray.
Proof.
  assert (H1 : HostJson.JSON_parse [] = None) by reflexivity.
  assert (H2 : HostJson.JSON_parse
                 (HostJson.JSON_stringify (transactionsJson sampleArray))
               = Some (transactionsJson sampleArray))
    by (vm_compute; reflexivity).
  assert (H3 : forall (s : Storage.LocalStorage) (k v : jsstring),
             HostJson.noQuota s k v = false) by reflexivity.
  split; [exact H1|]. split; [exact H2|]. split; [exact H3|].
  exact (proj2 (proj2
           (importData_then_load HostJson.JSON_parse HostJson.JSON_stringify
              HostJson.noQuota Host.Number_toString sampleArray []
              (localStorage freshWorld) H1 H2 H3))).
Defined.

End ReloadFacts.

(** ** Submitting the form *)

Section FormFacts.
Import Tracker.












Section Submit.
Variable JSON_stringify : json -> jsstring.
Variable quotaExceeded : Storage.LocalStorage -> jsstring -> jsstring -> bool.
Variable Number_toString : Q -> jsstring.



End Submit.

End FormFacts.

(** ** The seven-day chart *)

Section TrendFacts.
Import Charts.

Lemma insertIndex_In (n : Z) (k : jsstring) (l : list (Z * jsstring))
    (x : jsstring) :
  In x (List.map snd (insertIndex n k l)) <-> x = k \/ In x (List.map snd l).
Proof.
  induction l as [|[m k'] l IH]; cbn [insertIndex List.map In snd].
  - intuition.
  - destruct (n <? m)%Z; cbn [List.map In snd]; [intuition|].
    rewrite IH. intuition.
Qed.

(** [Object.keys] lists the own property names, each of them. *)
Lemma Object_keys_In (o : JsObject) (k : jsstring) :
  In k (Object_keys o) <-> In k (List.map fst o).
Proof.
  unfold Object_keys. rewrite List.in_app_iff.
  induction o as [|[k' v] o IH]; cbn [indexKeys nameKeys List.map In fst].
  - tauto.
  - destruct (arrayIndex k'); cbn [In].
    + rewrite insertIndex_In. intuition.
    + intuition.
Qed.

Lemma Object_entries_In (o : JsObject) (k : jsstring) (v : propval) :
  In (k, v) (Object_entries o) <-> getOwn o k = Some v.
Proof.
  unfold Object_entries. rewrite List.in_flat_map. split.
  - intros (k' & _ & Hin). destruct (getOwn o k') eqn:E; [|contradiction].
    destruct Hin as [[= <- <-]|[]]. exact E.
  - intros H. exists k. split.
    + apply Object_keys_In. apply getOwn_Some_key in H. exact H.
    + rewrite H. left. reflexivity.
Qed.

Local Open Scope Q_scope.





End TrendFacts.


(** ** The category breakdown *)

Section BreakdownFacts.
Import Charts.
Local Open Scope Q_scope.










End BreakdownFacts.


Section BreakdownThrowsFacts.
Import Charts.


Lemma allOf_none {A B : Type} (f : A -> option B) (l : list A) (x : A) :
  In x l -> f x = None -> allOf f l = None.
Proof.
  induction l as [|y rest IH]; intros Hin Hx; [destruct Hin|].
  cbn [allOf]. destruct Hin as [-> | Hin].
  - rewrite Hx. reflexivity.
  - rewrite (IH Hin Hx). destruct (f y); reflexivity.
Qed.

Lemma getOwn_set_other (o : JsObject) (k c : jsstring) (v : propval) :
  k <> c -> getOwn (set o k v) c = getOwn o c.
Proof.
  intros Hne. unfold set. destruct (JsString.eqb k (js "__proto__"));
    [reflexivity|]. apply getOwn_setOwn_other. exact Hne.
Qed.

(** Once the total of an inherited name is on the object it is not a
    number, and it stays so. *)
Lemma addToCategory_junk (o : JsObject) (txn : Transaction) (c : jsstring) :
  inherited c = true -> JsString.eqb c (js "__proto__") = false ->
  (getOwn o c = None \/ getOwn o c = Some PJunk) ->
  (getOwn (addToCategory o txn) c = None
   \/ getOwn (addToCategory o txn) c = Some PJunk)
  /\ (category txn = c \/ getOwn o c = Some PJunk ->
      getOwn (addToCategory o txn) c = Some PJunk).
Proof.
  intros Hinh Hproto Hown. unfold addToCategory.
  destruct (JsString.eqb (category txn) c) eqn:E.
  - apply jsstring_eqb_eq in E. rewrite E.
    assert (Hget : get o c = Some PJunk).
    { unfold get. destruct Hown as [-> | ->]; [rewrite Hinh|]; reflexivity. }
    rewrite Hget. cbn [truthyProp negb]. rewrite Hget. cbn [addNumber].
    unfold set. rewrite Hproto. rewrite getOwn_setOwn_same. auto.
  - apply jsstring_eqb_neq in E.
    rewrite getOwn_set_other by exact E.
    destruct (negb _).
    + rewrite getOwn_set_other by exact E. split; [exact Hown|].
      intros [H | H]; [congruence | exact H].
    + split; [exact Hown|]. intros [H | H]; [congruence | exact H].
Qed.

Lemma categoryTotals_junk (l : list Transaction) (t : Transaction) :
  In t l -> inherited (category t) = true ->
  JsString.eqb (category t) (js "__proto__") = false ->
  getOwn (categoryTotals l) (category t) = Some PJunk.
Proof.
  intros Hin Hinh Hproto. unfold categoryTotals.
  set (c := category t) in *.
  assert (Hgen : forall records o,
    (getOwn o c = None \/ getOwn o c = Some PJunk) ->
    (getOwn (List.fold_left addToCategory records o) c = None
     \/ getOwn (List.fold_left addToCategory records o) c = Some PJunk)
    /\ (In t records \/ getOwn o c = Some PJunk ->
        getOwn (List.fold_left addToCategory records o) c = Some PJunk)).
  { clear Hin. intros records.
    induction records as [|x rest IH]; intros o Ho; cbn [List.fold_left].
    - split; [exact Ho|]. intros [[] | H]; exact H.
    - destruct (addToCategory_junk o x c Hinh Hproto Ho) as [H1 H2].
      destruct (IH _ H1) as [H3 H4]. split; [exact H3|].
      intros [[<- | Hin] | Hj].
      + apply H4. right. apply H2. left. reflexivity.
      + apply H4. left. exact Hin.
      + apply H4. right. apply H2. right. exact Hj. }
  apply (Hgen l []); [left; reflexivity | left; exact Hin].
Qed.

(** X25. When a transaction has for category the name of a member of
    [Object.prototype] other than [__proto__] (as [constructor], which
    [validateCategory] accepts), the total of that category is not a number
    and [renderCategoryBreakdown] stops with a TypeError at [toFixed]:
    nothing is drawn. *)
Theorem renderCategoryBreakdown_inherited_category
    (transactions : list Transaction) (t : Transaction) :
  In t transactions ->
  inherited (category t) = true ->
  category t <> js "__proto__" ->
  renderCategoryBreakdown transactions = ToFixedThrows.
Proof.
  intros Hin Hinh Hproto.
  assert (Hown : getOwn (categoryTotals transactions) (category t)
                 = Some PJunk).
  { apply categoryTotals_junk; [exact Hin | exact Hinh|].
    apply jsstring_eqb_neq. exact Hproto. }
  apply Object_entries_In in Hown.
  unfold renderCategoryBreakdown.
  set (sorted := arraySort byTotalDescending
                   (Object_entries (categoryTotals transactions))).
  assert (Hs : In (category t, PJunk) sorted).
  { apply (Permutation_in _
             (Permutation_sym (arraySort_perm byTotalDescending _))).
    exact Hown. }
  destruct sorted as [|[k top] rest]; [destruct Hs|].
  rewrite (allOf_none _ _ (category t, PJunk) Hs); reflexivity.
Qed.

(** One record under [constructor], a name [validateCategory] accepts: the
    breakdown throws. *)
Lemma renderCategoryBreakdown_inherited_category_witness :
  In (Host.txn "constructor" 5 "2025-01-14") constructorItem
  /\ validateCategory (js "constructor") = accept
  /\ renderCategoryBreakdown constructorItem = ToFixedThrows.
Proof.
  assert (Hin : In (Host.txn "constructor" 5 "2025-01-14") constructorItem)
    by (left; reflexivity).
  split; [exact Hin|]. split; [vm_compute; reflexivity|].
  apply (renderCategoryBreakdown_inherited_category constructorItem
           (Host.txn "constructor" 5 "2025-01-14") Hin);
    [reflexivity | discriminate].
Defined.

End BreakdownThrowsFacts.

(** ** The month of a transaction *)

Section MonthFacts.
Import Charts.
Local Open Scope Z_scope.

(** The calendar date of a time value, from its day number. *)
Lemma date_of_day (t y m d : Z) :
  1 <= m <= 12 -> 1 <= d <= daysInMonth y m ->
  Day t = DayFromYear y + monthStart (leapDay y) (m - 1) + d - 1 ->
  YearFromTime t = y /\ MonthFromTime t = m - 1 /\ DateFromTime t = d.
Proof.
  intros Hm Hd Hday.
  unfold daysInMonth in Hd. fold (leapDay y) in Hd.
  pose proof (monthStart_at (leapDay y) (m - 1) m ltac:(lia) ltac:(lia)) as Htm.
  assert (Hyear : YearFromTime t = y).
  { unfold YearFromTime. apply YearFromDay_unique.
    rewrite DayFromYear_step, Hday.
    destruct (leapDay_cases y) as [[Hl Hdy] | [Hl Hdy]]; lia. }
  destruct (month_and_date_of_day t y Hyear) as (Hmr & Hin & Hdate).
  rewrite Hday in Hin, Hdate.
  pose proof (monthStart_at (leapDay y) (MonthFromTime t) (MonthFromTime t + 1)
                Hmr eq_refl) as Htk.
  assert (Hmonth : MonthFromTime t = m - 1).
  { destruct (leapDay_cases y) as [[Hl _] | [Hl _]]; lia. }
  split; [exact Hyear|]. split; [exact Hmonth|].
  rewrite Hdate, Hmonth. lia.
Qed.

Lemma Day_utcMidnight (y m d : Z) :
  1 <= m <= 12 ->
  Day (utcMidnight y m d)
  = DayFromYear y + monthStart (leapDay y) (m - 1) + d - 1.
Proof.
  intros Hm. unfold utcMidnight. rewrite Day_MakeDate. unfold MakeDay.
  replace ((m - 1) / 12) with 0 by (symmetry; apply Z.div_small; lia).
  rewrite Z.mod_small by lia. rewrite Z.add_0_r. reflexivity.
Qed.

Lemma Day_shifted (y m d tza : Z) :
  - msPerDay <= tza < msPerDay ->
  Day (utcMidnight y m d + tza)
  = Day (utcMidnight y m d) + (if tza <? 0 then -1 else 0).
Proof.
  intros Htza. unfold utcMidnight, MakeDate. rewrite Z.add_0_r.
  set (n := MakeDay y (m - 1) d). unfold Day.
  rewrite Z.div_mul by discriminate. unfold msPerDay in *.
  destruct (tza <? 0) eqn:E.
  - apply Z.ltb_lt in E. Z.to_euclidean_division_equations. lia.
  - apply Z.ltb_ge in E. Z.to_euclidean_division_equations. lia.
Qed.


Lemma daysInMonth_positive (y m : Z) : 1 <= m <= 12 -> 28 <= daysInMonth y m.
Proof.
  intros Hm. unfold daysInMonth. fold (leapDay y).
  pose proof (monthStart_at (leapDay y) (m - 1) m ltac:(lia) ltac:(lia)) as H.
  destruct (leapDay_cases y) as [[Hl _] | [Hl _]]; lia.
Qed.

(** X26. [renderMonthlyTrend] files a transaction dated [y-m-d] under the
    month of the local date of midnight UTC of that day: under [y-m] when
    local time is at or ahead of UTC by less than a day, or behind it and
    [d] is not 1; under the month before when local time is behind UTC by at
    most a day and [d] is 1. *)
Theorem monthOf_follows_the_local_date (tza y m d : Z) (text : jsstring) :
  Date_parse text = Some (utcMidnight y m d) ->
  1 <= m <= 12 -> 1 <= d <= daysInMonth y m ->
  (0 <= tza < msPerDay -> monthOf tza text = Some (y, m))
  /\ (- msPerDay <= tza < 0 -> 1 < d -> monthOf tza text = Some (y, m))
  /\ (- msPerDay <= tza < 0 -> d = 1 ->
      monthOf tza text = Some (monthBefore y m)).
Proof.
  intros Hparse Hm Hd. unfold monthOf. rewrite Hparse.
  pose proof (Day_utcMidnight y m d Hm) as Hday.
  split; [|split].
  - intros Htza.
    pose proof (Day_shifted y m d tza ltac:(unfold msPerDay in *; lia)) as Hs.
    replace (tza <? 0) with false in Hs by (symmetry; apply Z.ltb_ge; lia).
    rewrite Z.add_0_r, Hday in Hs.
    destruct (date_of_day _ y m d Hm Hd Hs) as (-> & -> & _).
    do 2 f_equal. lia.
  - intros Htza Hd1.
    pose proof (Day_shifted y m d tza ltac:(unfold msPerDay in *; lia)) as Hs.
    replace (tza <? 0) with true in Hs by (symmetry; apply Z.ltb_lt; lia).
    rewrite Hday in Hs.
    destruct (date_of_day (utcMidnight y m d + tza) y m (d - 1) Hm
                ltac:(lia) ltac:(lia)) as (-> & -> & _).
    do 2 f_equal. lia.
  - intros Htza ->.
    pose proof (Day_shifted y m 1 tza ltac:(unfold msPerDay in *; lia)) as Hs.
    replace (tza <? 0) with true in Hs by (symmetry; apply Z.ltb_lt; lia).
    rewrite Hday in Hs. unfold monthBefore.
    destruct (m =? 1) eqn:E.
    + apply Z.eqb_eq in E. subst m.
      assert (H31 : daysInMonth (y - 1) 12 = 31).
      { unfold daysInMonth. destruct (DaysInYear (y - 1) =? 366); reflexivity. }
      destruct (date_of_day (utcMidnight y 1 1 + tza) (y - 1) 12 31
                  ltac:(lia) ltac:(lia)) as (-> & -> & _); [|reflexivity].
      rewrite Hs. pose proof (DayFromYear_step (y - 1)) as Hstep.
      replace (y - 1 + 1) with y in Hstep by lia.
      change (monthStart (leapDay y) (1 - 1)) with 0.
      change (monthStart (leapDay (y - 1)) (12 - 1))
        with (334 + leapDay (y - 1)).
      destruct (leapDay_cases (y - 1)) as [[Hl Hdy] | [Hl Hdy]]; lia.
    + apply Z.eqb_neq in E.
      pose proof (daysInMonth_positive y (m - 1) ltac:(lia)) as Hdim.
      destruct (date_of_day (utcMidnight y m 1 + tza) y (m - 1)
                  (daysInMonth y (m - 1)) ltac:(lia) ltac:(lia))
        as (-> & -> & _).
      * rewrite Hs. unfold daysInMonth. fold (leapDay y).
        replace (m - 1 - 1) with (m - 2) by lia. lia.
      * do 2 f_equal. lia.
Qed.

(** The first of March 2025 read five hours behind UTC is counted in
    February; the first of January in December of the year before. *)
Lemma monthOf_follows_the_local_date_witness :
  Date_parse (js "2025-03-01") = Some (utcMidnight 2025 3 1)
  /\ monthOf (-18000000) (js "2025-03-01") = Some (2025, 2)
  /\ monthKey (-18000000) (js "2025-03-01") = js "2025-02"
  /\ monthKey 0 (js "2025-03-01") = js "2025-03"
  /\ monthKey (-18000000) (js "2025-01-01") = js "2024-12".
Proof.
  assert (Hp : Date_parse (js "2025-03-01") = Some (utcMidnight 2025 3 1))
    by reflexivity.
  split; [exact Hp|]. split.
  - pose proof (monthOf_follows_the_local_date (-18000000) 2025 3 1
                  (js "2025-03-01") Hp ltac:(lia)
                  ltac:(vm_compute; split; discriminate)) as (_ & _ & H).
    apply H; [unfold msPerDay; lia | reflexivity].
  - repeat split; vm_compute; reflexivity.
Defined.

End MonthFacts.

(** ** The theme *)

Section ThemeFacts.
Import Theme.


(** X27. When the store takes the write, [setTheme] stores the theme under
    the key of the theme and touches no other key; [getTheme] then gives
    [dark] for the theme [dark] and [light] for any other; the buttons, when
    present, show the light one pressed exactly for [light] and the dark one
    pressed for anything else; and [initTheme] on a later page shows the
    same theme. *)
Theorem setTheme_then_getTheme
    (quotaExceeded : Storage.LocalStorage -> jsstring -> jsstring -> bool)
    (theme : jsstring) (store : Storage.LocalStorage) (page : Page) :
  (forall s v, quotaExceeded s THEME_KEY v = false) ->
  exists store' page',
    setTheme quotaExceeded theme store page = Done store' page'
    /\ Storage.getItem store' THEME_KEY = Some theme
    /\ (forall key, key <> THEME_KEY ->
          Storage.getItem store' key = Storage.getItem store key)
    /\ getTheme page' = shownTheme theme
    /\ (hasButtons page = true ->
          lightPressed page' = Some (boolText (JsString.eqb theme (js "light")))
          /\ darkPressed page'
             = Some (boolText (negb (JsString.eqb theme (js "light")))))
    /\ (forall page0, exists store'' page'',
          initTheme quotaExceeded store' page0 = Done store'' page''
          /\ getTheme page'' = shownTheme theme).
Proof.
  intros Hq. unfold setTheme, Storage.setItem. rewrite Hq.
  eexists _, _. split; [reflexivity|].
  unfold Storage.getItem, Storage.LocalStorage in *.
  split; [apply lookup_insert_eq|].
  split; [intros key Hk; apply lookup_insert_ne; congruence|].
  split.
  { unfold updateButtonStates, getTheme, shownTheme.
    destruct (JsString.eqb theme (js "dark")), (hasButtons page); reflexivity. }
  split.
  { intros Hb. unfold updateButtonStates.
    destruct (JsString.eqb theme (js "dark")); cbn; rewrite Hb; cbn; auto. }
  intros page0. unfold initTheme, setTheme, Storage.setItem, Storage.getItem.
  rewrite Hq.
  replace (<[THEME_KEY:=theme]> store !! THEME_KEY) with (Some theme)
    by (symmetry; apply lookup_insert_eq).
  eexists _, _. split; [reflexivity|].
  unfold updateButtonStates, getTheme, shownTheme.
  destruct theme as [|c rest]; cbn [truthy].
  - destruct (hasButtons page0); reflexivity.
  - destruct (JsString.eqb (c :: rest) (js "dark")), (hasButtons page0);
      reflexivity.
Qed.

(** The theme [blue] with a store that takes every write: the page is light
    and the dark button is the pressed one. *)
Lemma setTheme_then_getTheme_witness :
  (forall (s : Storage.LocalStorage) (v : jsstring),
      HostJson.noQuota s THEME_KEY v = false)
  /\ exists store' page',
    setTheme HostJson.noQuota (js "blue") ∅
      (mkPage None true None None) = Done store' page'
    /\ getTheme page' = js "light"
    /\ lightPressed page' = Some (js "false")
    /\ darkPressed page' = Some (js "true").
Proof.
  assert (Hq : forall (s : Storage.LocalStorage) (v : jsstring),
             HostJson.noQuota s THEME_KEY v = false) by reflexivity.
  split; [exact Hq|].
  destruct (setTheme_then_getTheme HostJson.noQuota (js "blue") ∅
              (mkPage None true None None) Hq)
    as (store' & page' & Hrun & _ & _ & Hshown & Hbuttons & _).
  exists store', page'. split; [exact Hrun|]. split; [exact Hshown|].
  exact (Hbuttons eq_refl).
Defined.

End ThemeFacts.
